(** * WinScope: opportunity discovery and lifecycle pipeline

    A shallow embedding of the parts of
    [winscope_intelligence_network.py] and
    [winscope_master_orchestrator.py] that carry the discovery pipeline:
    identity derivation, deduplication, fan-out collection, scoring factors,
    ranking, adaptive scheduling, the in-memory pipeline store and the
    pricing-accuracy ledger.

    Modelling conventions.
    - A Python [str] is a Rocq [string], read as the bytes of its UTF-8
      encoding (so [s.encode()] is the list of its characters).
      [str.strip()] removes the white space of Unicode; [str.upper()] is
      modelled on the letters of ASCII only.
    - A Python [float] that holds a score, an amount of money or a number
      of hours is an exact rational [Q]; rounding is not modelled.  The text
      returned by the semantic-judgment service is untrusted, so what
      [float(text)] yields there also covers infinities and NaN ([pyfloat]).
    - A [datetime] is a number of microseconds on some fixed time line, and
      [datetime.now()] is an explicit argument.
      The readings of the clock made within one call are passed as one
      argument.
    - Where a property counts log lines (the collection step),
      [logger.error] appends to an explicit log; elsewhere logging is left
      out.
    - A call that may raise returns a [result]; what it raises is an
      instance of [Exception].  The cancellation of a task, which raises a
      [BaseException] outside [Exception], is modelled for the tasks of
      the collection step. *)

From Stdlib Require Import ZArith QArith Qminmax Qabs Qround Lia Lqa List Sorted Permutation Ascii String.
From stdpp Require Import gmap strings list fin_maps pretty sorting.

Local Open Scope Z_scope.

(** ** hashlib.md5 (RFC 1321), on 32-bit words carried in [Z] *)

Module MD5.

Definition mask32 : Z := 0xFFFFFFFF.

Definition add32 (x y : Z) : Z := Z.land (x + y) mask32.

Definition not32 (x : Z) : Z := Z.lxor x mask32.

Definition rotl32 (x : Z) (c : Z) : Z :=
  Z.land (Z.lor (Z.shiftl x c) (Z.shiftr x (32 - c))) mask32.

Definition shifts : list Z :=
  [7; 12; 17; 22; 7; 12; 17; 22; 7; 12; 17; 22; 7; 12; 17; 22;
   5; 9; 14; 20; 5; 9; 14; 20; 5; 9; 14; 20; 5; 9; 14; 20;
   4; 11; 16; 23; 4; 11; 16; 23; 4; 11; 16; 23; 4; 11; 16; 23;
   6; 10; 15; 21; 6; 10; 15; 21; 6; 10; 15; 21; 6; 10; 15; 21].

(** [sines !! i] is the integer part of [2^32 * |sin (i + 1)|]. *)
Definition sines : list Z :=
  [0xd76aa478; 0xe8c7b756; 0x242070db; 0xc1bdceee; 0xf57c0faf; 0x4787c62a;
   0xa8304613; 0xfd469501; 0x698098d8; 0x8b44f7af; 0xffff5bb1; 0x895cd7be;
   0x6b901122; 0xfd987193; 0xa679438e; 0x49b40821; 0xf61e2562; 0xc040b340;
   0x265e5a51; 0xe9b6c7aa; 0xd62f105d; 0x02441453; 0xd8a1e681; 0xe7d3fbc8;
   0x21e1cde6; 0xc33707d6; 0xf4d50d87; 0x455a14ed; 0xa9e3e905; 0xfcefa3f8;
   0x676f02d9; 0x8d2a4c8a; 0xfffa3942; 0x8771f681; 0x6d9d6122; 0xfde5380c;
   0xa4beea44; 0x4bdecfa9; 0xf6bb4b60; 0xbebfbc70; 0x289b7ec6; 0xeaa127fa;
   0xd4ef3085; 0x04881d05; 0xd9d4d039; 0xe6db99e5; 0x1fa27cf8; 0xc4ac5665;
   0xf4292244; 0x432aff97; 0xab9423a7; 0xfc93a039; 0x655b59c3; 0x8f0ccc92;
   0xffeff47d; 0x85845dd1; 0x6fa87e4f; 0xfe2ce6e0; 0xa3014314; 0x4e0811a1;
   0xf7537e82; 0xbd3af235; 0x2ad7d2bb; 0xeb86d391].

(** The four chaining words. *)
Record state := State { wa : Z; wb : Z; wc : Z; wd : Z }.

Definition init : state :=
  State 0x67452301 0xefcdab89 0x98badcfe 0x10325476.

(** Padding: a 1 bit, zeros up to 56 mod 64, then the bit length on 64 bits,
    least significant byte first. *)
Fixpoint le_bytes (n : nat) (x : Z) : list Z :=
  match n with
  | O => []
  | S n' => Z.land x 0xFF :: le_bytes n' (Z.shiftr x 8)
  end.

Definition pad (msg : list Z) : list Z :=
  let len := Z.of_nat (length msg) in
  let zeros := Z.to_nat ((55 - len) mod 64) in
  msg ++ [0x80] ++ repeat 0 zeros ++ le_bytes 8 (Z.land (8 * len) 0xFFFFFFFFFFFFFFFF).

Fixpoint words_le (n : nat) (bs : list Z) : list Z :=
  match n with
  | O => []
  | S n' =>
      match bs with
      | b0 :: b1 :: b2 :: b3 :: rest =>
          Z.lor b0 (Z.lor (Z.shiftl b1 8) (Z.lor (Z.shiftl b2 16) (Z.shiftl b3 24)))
            :: words_le n' rest
      | _ => []
      end
  end.

Definition round_fg (i : Z) (b c d : Z) : Z * Z :=
  if i <? 16 then (Z.lor (Z.land b c) (Z.land (not32 b) d), i)
  else if i <? 32 then (Z.lor (Z.land d b) (Z.land (not32 d) c), (5 * i + 1) mod 16)
  else if i <? 48 then (Z.lxor b (Z.lxor c d), (3 * i + 5) mod 16)
  else (Z.lxor c (Z.lor b (not32 d)), (7 * i) mod 16).

Definition step (m : list Z) (st : state) (i : nat) : state :=
  let '(f, g) := round_fg (Z.of_nat i) (wb st) (wc st) (wd st) in
  let f' := add32 (add32 (add32 f (wa st)) (nth i sines 0)) (nth (Z.to_nat g) m 0) in
  State (wd st) (add32 (wb st) (rotl32 f' (nth i shifts 0))) (wb st) (wc st).

Definition compress (h : state) (m : list Z) : state :=
  let st := fold_left (step m) (seq 0 64) h in
  State (add32 (wa h) (wa st)) (add32 (wb h) (wb st))
        (add32 (wc h) (wc st)) (add32 (wd h) (wd st)).

Fixpoint chunks (n : nat) (h : state) (bs : list Z) : state :=
  match n with
  | O => h
  | S n' => chunks n' (compress h (words_le 16 (firstn 64 bs))) (skipn 64 bs)
  end.

Definition digest (msg : list Z) : list Z :=
  let p := pad msg in
  let h := chunks (Nat.div (length p) 64) init p in
  le_bytes 4 (wa h) ++ le_bytes 4 (wb h) ++ le_bytes 4 (wc h) ++ le_bytes 4 (wd h).

Definition hex_digit (x : Z) : ascii :=
  if x <? 10 then ascii_of_nat (Z.to_nat (48 + x)) else ascii_of_nat (Z.to_nat (87 + x)).

Fixpoint hex (bs : list Z) : string :=
  match bs with
  | [] => EmptyString
  | b :: rest => String (hex_digit (Z.shiftr b 4)) (String (hex_digit (Z.land b 0xF)) (hex rest))
  end.

(** [s.encode()] *)
Fixpoint encode (s : string) : list Z :=
  match s with
  | EmptyString => []
  | String c rest => Z.of_nat (nat_of_ascii c) :: encode rest
  end.

(** [hashlib.md5(s.encode()).hexdigest()] *)
Definition hexdigest (s : string) : string := hex (digest (encode s)).

End MD5.

(** [s[:n]] on a string. *)
Fixpoint str_take (n : nat) (s : string) : string :=
  match n, s with
  | S n', String c rest => String c (str_take n' rest)
  | _, _ => EmptyString
  end.


(** ** Python values and control *)

(** An exception that is an instance of [Exception], which is what every
    [except Exception] of the program catches: the name of its class and
    [str(e)], the text that the log lines show.  A [BaseException] outside
    [Exception] enters the program in one place only, as the
    [asyncio.CancelledError] of a cancelled task (see [cancelled]). *)
Record exn := mk_exn {
  class_name : string;
  str : string
}.

Definition NotImplementedError : exn := mk_exn "NotImplementedError" "".
Definition ZeroDivisionError : exn := mk_exn "ZeroDivisionError" "float division by zero".
Definition IndexError : exn := mk_exn "IndexError" "list index out of range".
Definition IntegrityError : exn :=
  mk_exn "IntegrityError" "UNIQUE constraint failed: win_loss_history.id".

(** The outcome of a call that may raise. *)
Inductive result (A : Type) : Type :=
  | Ok (a : A)
  | Raised (e : exn).
Arguments Ok {A} a.
Arguments Raised {A} e.

#[global] Instance result_ret : MRet result := fun A a => Ok a.

#[global] Instance result_bind : MBind result := fun A B k r =>
  match r with
  | Ok a => k a
  | Raised e => Raised e
  end.

(** [try: body  except Exception as e: handler e] *)
Definition try_except {A : Type} (body : result A) (handler : exn -> result A) : result A :=
  match body with
  | Ok a => Ok a
  | Raised e => handler e
  end.

(** [datetime]: microseconds on a fixed time line. *)
Definition datetime := Z.

(** [(a - b).total_seconds()] *)
Definition total_seconds (a b : datetime) : Q := (a - b) # 1000000.

Definition Qltb (x y : Q) : bool := negb (Qle_bool y x).

(** [x / y] on floats: raises [ZeroDivisionError] when [y] is zero. *)
Definition py_div (x y : Q) : result Q :=
  if Qeq_bool y 0 then Raised ZeroDivisionError else Ok (x / y)%Q.

(** [max(a, b)]: the first argument unless the second is strictly
    larger. *)
Definition py_max (a b : Q) : Q := if Qltb a b then b else a.

(** [l[:n]] on a list, [n] possibly negative. *)
Definition slice_to {A : Type} (n : Z) (l : list A) : list A :=
  if 0 <=? n then firstn (Z.to_nat n) l
  else firstn (Z.to_nat (Z.of_nat (length l) + n)) l.

(** [l.sort(key=key, reverse=True)]: a stable sort, larger keys first;
    elements with equal keys keep their order. *)
Fixpoint insert_desc {A : Type} (key : A -> Q) (x : A) (l : list A) : list A :=
  match l with
  | [] => [x]
  | y :: ys => if Qltb (key x) (key y) then y :: insert_desc key x ys else x :: y :: ys
  end.

Fixpoint sort_reverse {A : Type} (key : A -> Q) (l : list A) : list A :=
  match l with
  | [] => []
  | x :: xs => insert_desc key x (sort_reverse key xs)
  end.

(** What [float(text)] can yield on untrusted text. *)
Inductive pyfloat : Type :=
  | Finite (q : Q)
  | PosInf
  | NegInf
  | NaN.

(** [a < b] on these; every comparison with NaN is false. *)
Definition float_lt (a b : pyfloat) : bool :=
  match a, b with
  | NaN, _ | _, NaN => false
  | _, NegInf => false
  | NegInf, _ => true
  | PosInf, _ => false
  | Finite _, PosInf => true
  | Finite x, Finite y => Qltb x y
  end.

(** [max(a, b)] and [min(a, b)]: the first argument unless the second is
    strictly better. *)
Definition float_max (a b : pyfloat) : pyfloat := if float_lt a b then b else a.
Definition float_min (a b : pyfloat) : pyfloat := if float_lt b a then b else a.

(** [s.upper()] on the letters [a] to [z].  The case mapping of the
    characters outside ASCII is not modelled: their bytes are left as they
    are. *)
Definition upper_char (c : ascii) : ascii :=
  let n := nat_of_ascii c in
  if ((97 <=? n) && (n <=? 122))%nat then ascii_of_nat (n - 32) else c.

Fixpoint upper (s : string) : string :=
  match s with
  | EmptyString => EmptyString
  | String c rest => String (upper_char c) (upper rest)
  end.

(** [sub in s] on strings. *)
Fixpoint contains (sub s : string) : bool :=
  String.prefix sub s ||
  match s with
  | EmptyString => false
  | String _ rest => contains sub rest
  end.

(** [round(x, 2)] on an exact rational: the nearest multiple of 1/100, a
    tie going to the even one.  (On a binary float the builtin rounds the
    value that the float holds, which lies beside the decimal that was
    written: it can go the other way at what looks like a tie.) *)
Definition round_half_even (x : Q) : Z :=
  let f := Qfloor x in
  let r := (x - inject_Z f)%Q in
  if Qltb r 0.5 then f
  else if Qltb 0.5 r then f + 1
  else if Z.even f then f else f + 1.

Definition py_round2 (x : Q) : Q := round_half_even (x * 100) # 100.

(** ** winscope_intelligence_network.py *)

Inductive PortalType : Type :=
  | FEDERAL_API | STATE_WEB | LOCAL_WEB | DIBBS | COOPERATIVE | GRANT.

Inductive ScrapingStrategy : Type :=
  | REST_API | GRAPHQL | SELENIUM | PLAYWRIGHT | BEAUTIFUL_SOUP | SCRAPY.

Module PortalConfig.

Record t := mk {
  name : string;
  url : string;
  portal_type : PortalType;
  strategy : ScrapingStrategy;
  scrape_frequency_hours : Z;
  naics_codes : list string;
  keywords : list string;
  requires_auth : bool;
  auth_credentials : option (gmap string string);
  selectors : gmap string string;
  api_endpoint : option string;
  api_key : option string;
  last_scrape : option datetime;
  success_rate : Q;
  avg_opportunities_per_scrape : Q
}.

(** The local [frequency] of [should_scrape]: the interval, in hours, that
    must have passed since the last scrape. *)
Definition frequency (self : t) : Q :=
  if Qltb 5 (avg_opportunities_per_scrape self) then
    (inject_Z (scrape_frequency_hours self) * 0.5)%Q
  else if Qltb (avg_opportunities_per_scrape self) 1 then
    (inject_Z (scrape_frequency_hours self) * 2)%Q
  else inject_Z (scrape_frequency_hours self).

(** The local [hours_since_scrape]. *)
Definition hours_since_scrape (now last : datetime) : Q :=
  (total_seconds now last / 3600)%Q.

Definition should_scrape (self : t) (now : datetime) : bool :=
  match last_scrape self with
  | None => true
  | Some last => Qle_bool (frequency self) (hours_since_scrape now last)
  end.

(** In-place updates of the scheduling fields. *)
Definition set_scraped (self : t) (now : datetime) (n : nat) : t :=
  mk (name self) (url self) (portal_type self) (strategy self)
     (scrape_frequency_hours self) (naics_codes self) (keywords self)
     (requires_auth self) (auth_credentials self) (selectors self)
     (api_endpoint self) (api_key self)
     (Some now) (success_rate self) (inject_Z (Z.of_nat n)).

End PortalConfig.

Module Opportunity.

Record t := mk {
  id : string;
  source_portal : string;
  title : string;
  agency : string;
  naics_codes : list string;
  description : string;
  solicitation_number : string;
  posted_date : datetime;
  due_date : option datetime;
  estimated_value : option Q;
  set_aside : option string;
  location : option string;
  attachments : list string;
  raw_data : list (string * string);
  match_score : Q;
  win_probability : Q;
  extracted_at : datetime
}.

Definition generate_id (self : t) : string :=
  let unique_string := (source_portal self ++ "_" ++ solicitation_number self)%string in
  str_take 16 (MD5.hexdigest unique_string).

Definition set_id (self : t) (i : string) : t :=
  mk i (source_portal self) (title self) (agency self) (naics_codes self)
     (description self) (solicitation_number self) (posted_date self)
     (due_date self) (estimated_value self) (set_aside self) (location self)
     (attachments self) (raw_data self) (match_score self)
     (win_probability self) (extracted_at self).

Definition set_match_score (self : t) (s : Q) : t :=
  mk (id self) (source_portal self) (title self) (agency self) (naics_codes self)
     (description self) (solicitation_number self) (posted_date self)
     (due_date self) (estimated_value self) (set_aside self) (location self)
     (attachments self) (raw_data self) s
     (win_probability self) (extracted_at self).

(** [__post_init__]: an empty [id] is replaced by the generated one. *)
Definition post_init (self : t) : t :=
  if decide (id self = ""%string) then set_id self (generate_id self) else self.

End Opportunity.

Module OpportunityScorer.

(** [self.company_profile] *)
Record profile := mk_profile {
  profile_naics_codes : list string;
  certifications : list string;
  capabilities : list string;
  sweet_spot_value : Q * Q;
  preferred_states : list string;
  historical_win_rate : Q
}.

(** The profile set by [__init__]. *)
Definition company_profile : profile :=
  mk_profile
    ["333249"; "541330"; "541512"; "541715"; "237130"; "333922"]%string
    ["FANUC ASI"; "UR CSP"; "MBE"; "WBENC"; "SBE"]%string
    ["FANUC robot integration"; "Universal Robots integration";
     "AI vision systems"; "Material handling automation";
     "Conveyor systems"; "PLC programming"; "Industrial automation"]%string
    (50000%Q, 500000%Q)
    ["CA"; "MI"]%string
    0.87%Q.

(** The scorer object: its profile and the two things it calls that are
    not part of the program, the remote [client.messages.create] (given the
    prompt, it returns the texts of the content blocks of the answer, or
    raises) and the builtin [float] on text (a number, or [ValueError]). *)
Record t := mk {
  self_profile : profile;
  client_messages_create : string -> result (list string);
  float_of_text : string -> result pyfloat
}.

Definition _score_contract_value (self : t) (value : option Q) : result Q :=
  match value with
  | None => Ok 0.5%Q
  | Some value =>
      let '(min_sweet, max_sweet) := sweet_spot_value (self_profile self) in
      if Qle_bool min_sweet value && Qle_bool value max_sweet then Ok 1%Q
      else if Qltb value min_sweet then
        r ← py_div value min_sweet; Ok (py_max 0.3%Q r)
      else
        ratio ← py_div max_sweet value; Ok (py_max 0.2%Q ratio)
  end.

(** [", ".join(l)] *)
Fixpoint join (sep : string) (l : list string) : string :=
  match l with
  | [] => ""
  | [s] => s
  | s :: rest => s ++ sep ++ join sep rest
  end%string.

(** The characters that [str.strip()] removes, those for which
    [str.isspace()] holds, each in its UTF-8 encoding: U+0009 to U+000D,
    U+001C to U+001F, U+0020, U+0085, U+00A0, U+1680, U+2000 to U+200A,
    U+2028, U+2029, U+202F, U+205F and U+3000. *)
Definition of_bytes (l : list nat) : string :=
  fold_right (fun n s => String (ascii_of_nat n) s) EmptyString l.

Definition whitespace : list string :=
  map of_bytes
    [[9]; [10]; [11]; [12]; [13]; [28]; [29]; [30]; [31]; [32];
     [194; 133]; [194; 160]; [225; 154; 128];
     [226; 128; 128]; [226; 128; 129]; [226; 128; 130]; [226; 128; 131];
     [226; 128; 132]; [226; 128; 133]; [226; 128; 134]; [226; 128; 135];
     [226; 128; 136]; [226; 128; 137]; [226; 128; 138];
     [226; 128; 168]; [226; 128; 169]; [226; 128; 175]; [226; 129; 159];
     [227; 128; 128]]%nat.

Definition is_space (c : string) : bool := existsb (String.eqb c) whitespace.

Fixpoint reverse_onto (s acc : string) : string :=
  match s with
  | EmptyString => acc
  | String c rest => reverse_onto rest (String c acc)
  end.

Definition reverse (s : string) : string := reverse_onto s EmptyString.

(** Removes the characters at the head of [s] that [space] accepts: a
    character is encoded on one, two or three bytes here. *)
Fixpoint drop_while_space (space : string -> bool) (s : string) : string :=
  match s with
  | EmptyString => EmptyString
  | String a rest1 =>
      if space (String a EmptyString) then drop_while_space space rest1
      else
        match rest1 with
        | EmptyString => s
        | String b rest2 =>
            if space (String a (String b EmptyString)) then drop_while_space space rest2
            else
              match rest2 with
              | EmptyString => s
              | String c rest3 =>
                  if space (String a (String b (String c EmptyString)))
                  then drop_while_space space rest3
                  else s
              end
        end
  end.

Definition lstrip (s : string) : string := drop_while_space is_space s.

(** The same from the end: the bytes are read backwards. *)
Definition rstrip (s : string) : string :=
  reverse (drop_while_space (fun c => is_space (reverse c)) (reverse s)).

(** [s.strip()] *)
Definition strip (s : string) : string := rstrip (lstrip s).

Definition prompt (self : t) (combined_text : string) : string :=
  ("Analyze this procurement opportunity and score how well it matches our capabilities on a 0-1 scale.

Our Capabilities:
" ++ join ", " (capabilities (self_profile self)) ++ "

Opportunity:
" ++ str_take 1000 combined_text ++ "  # Limit to 1000 chars for speed

Return ONLY a number between 0.0 and 1.0 representing the match quality.
1.0 = Perfect match for multiple capabilities
0.5 = Related but not core capabilities  
0.0 = Completely unrelated

Score:")%string.

(** [content[0]] *)
Definition first_block (content : list string) : result string :=
  match content with
  | [] => Raised IndexError
  | b :: _ => Ok b
  end.

(** The local [combined_text]. *)
Definition combined_text (title description : string) : string :=
  (title ++ "

" ++ description)%string.

Definition _score_keywords (self : t) (title description : string) : result pyfloat :=
  try_except
    (content ← client_messages_create self (prompt self (combined_text title description));
     text ← first_block content;
     let score_text := strip text in
     score ← float_of_text self score_text;
     Ok (float_max (Finite 0) (float_min (Finite 1) score)))
    (fun e => Ok (Finite 0.5%Q)).

(** [set(l)] *)
Definition py_set (l : list string) : gset string := list_to_set l.

Definition _score_naics_match (self : t) (opp_naics : list string) : Q :=
  match opp_naics with
  | [] => 0.5
  | _ =>
      let company_naics := py_set (profile_naics_codes (self_profile self)) in
      let opp_naics_set := py_set opp_naics in
      if decide (company_naics ∩ opp_naics_set ≠ ∅) then 1
      else if existsb
                (fun cn =>
                   existsb (fun on => String.eqb (str_take 4 cn) (str_take 4 on))
                     (elements opp_naics_set))
                (elements company_naics)
      then 0.7
      else 0.2
  end%Q.

(** [not s] on an optional string: [None] and the empty string are
    falsy. *)
Definition falsy (s : option string) : bool :=
  match s with
  | None | Some EmptyString => true
  | Some _ => false
  end.

Definition _score_geography (self : t) (location : option string) : Q :=
  if falsy location then 0.5
  else
    let location_upper := upper (default "" location) in
    if existsb (fun state => contains state location_upper)
         (preferred_states (self_profile self))
    then 1
    else if contains "CONUS" location_upper || contains "NATIONWIDE" location_upper
    then 0.7
    else 0.3.

Definition _score_setaside (self : t) (setaside : option string) : Q :=
  if falsy setaside then 0.5
  else
    let setaside_upper := upper (default "" setaside) in
    if existsb (fun cert => contains cert setaside_upper)
         ["MINORITY"; "WOMEN"; "MBE"; "WBE"; "WOSB"]%string
    then 1
    else if existsb (fun sb => contains sb setaside_upper)
              ["SMALL BUSINESS"; "SB"; "SDVOSB"]%string
    then 0.8
    else if contains "UNRESTRICTED" setaside_upper
            || contains "FULL AND OPEN" setaside_upper
    then 0.4
    else 0.5.

(** [score + keyword_score * 25] and [round(_, 2)], where [score] is finite
    and [keyword_score] is what [float] gave: an infinity or a NaN goes
    through both. *)
Definition add_keyword_points (score : Q) (keyword_score : pyfloat) : pyfloat :=
  match keyword_score with
  | Finite k => Finite (py_round2 (score + k * 25))
  | PosInf => PosInf
  | NegInf => NegInf
  | NaN => NaN
  end.

Definition score_opportunity (self : t) (opp : Opportunity.t) : result pyfloat :=
  let score := 0%Q in
  let naics_score := _score_naics_match self (Opportunity.naics_codes opp) in
  let score := (score + naics_score * 25)%Q in
  value_score ← _score_contract_value self (Opportunity.estimated_value opp);
  let score := (score + value_score * 20)%Q in
  let geo_score := _score_geography self (Opportunity.location opp) in
  let score := (score + geo_score * 15)%Q in
  let setaside_score := _score_setaside self (Opportunity.set_aside opp) in
  let score := (score + setaside_score * 15)%Q in
  keyword_score ← _score_keywords self (Opportunity.title opp) (Opportunity.description opp);
  Ok (add_keyword_points score keyword_score).

End OpportunityScorer.

(** What the outside world does during one scrape of one portal: the
    browser session of the Playwright scrapers, the HTTP exchange of the API
    scrapers, and the clock when the scraper finishes.

    The browser: launching it or opening the page raises, which happens
    before the [try]; or something raises inside the [try], from the
    navigation to the extraction; or the extraction returns.  The API: the
    request or the decoding of the answer raises; or an answer comes with
    its status and, for each record of [opportunitiesData], what
    [_parse_sam_opportunity] makes of it. *)
Inductive browser_run : Type :=
  | LaunchRaises (e : exn)
  | PageRaises (e : exn)
  | Extracted (opps : list Opportunity.t).

Inductive api_run : Type :=
  | GetRaises (e : exn)
  | Response (status : Z) (parsed : list (result Opportunity.t)).

Record external := mk_external {
  browser : browser_run;
  api : api_run;
  finished_at : datetime;
  (** The task that runs the scrape is cancelled while it waits for the
      browser or for the network, before it has logged anything:
      [asyncio.CancelledError] is raised in it at that point. *)
  cancelled : bool
}.

(** A scrape yields the portal configuration as it leaves it, the lines it
    sent to [logger.error], and what the coroutine returned or raised. *)
Definition scrape_outcome : Type :=
  PortalConfig.t * list string * result (list Opportunity.t).

Module PortalScraper.

Definition scrape (config : PortalConfig.t) (ext : external) : scrape_outcome :=
  (config, [], Raised NotImplementedError).

End PortalScraper.

Module CaliforniaEProcureScraper.

Definition scrape (config : PortalConfig.t) (ext : external) : scrape_outcome :=
  match browser ext with
  | LaunchRaises e => (config, [], Raised e)
  | run =>
      let '(opportunities, log) :=
        match run with
        | Extracted opps => (opps, [])
        | PageRaises e => ([], ["Error scraping California eProcure: " ++ str e]%string)
        | LaunchRaises _ => ([], [])
        end in
      (PortalConfig.set_scraped config (finished_at ext) (length opportunities),
       log, Ok opportunities)
  end.

(** What the browser shows of one row of the results table: the inner text
    of the elements that the selectors find ([None] when there is no such
    element), the [href] of the detail link, and what opening and reading
    the detail page gives. *)
Record detail_page := mk_detail_page {
  desc_elem : option string;
  attachment_hrefs : list (option string);
  sol_elem : option string
}.

Record table_row := mk_table_row {
  title_elem : option string;
  agency_elem : option string;
  due_elem : option string;
  link_href : option (option string);
  detail : result detail_page
}.

(** Reading a row may fail before anything is known of it. *)
Inductive row_run : Type :=
  | RowRaises (e : exn)
  | RowRead (r : table_row).

(** The page under extraction: its rows (or the exception of
    [query_selector_all]), the clock while each row is read, and the two
    library functions [datetime.strptime(_, "%m/%d/%Y")] and
    [strftime("%Y%m%d")]. *)
Record results_page := mk_results_page {
  rows : result (list row_run);
  row_clock : nat -> datetime;
  strptime : string -> result datetime;
  strftime_day : datetime -> string
}.

(** The attachments kept: the links whose [href] is a non-empty text. *)
Definition kept_href (href : option string) : option string :=
  match href with
  | Some (String c rest) => Some (String c rest)
  | _ => None
  end.

(** The body of the loop for one row that could be read: [None] when the row
    has no title, else the opportunity or the exception. *)
Definition extract_row (config : PortalConfig.t) (page : results_page)
    (i : nat) (extracted_so_far : nat) (r : table_row)
    : option (result Opportunity.t) :=
  match title_elem r with
  | None => None
  | Some title =>
      let agency := default "Unknown"%string (agency_elem r) in
      let due_date_str := due_elem r in
      let detail_url := link_href r ≫= id in
      let due_date :=
        if OpportunityScorer.falsy due_date_str then None
        else match strptime page (OpportunityScorer.strip (default ""%string due_date_str)) with
             | Ok d => Some d
             | Raised _ => None
             end in
      let description := ""%string in
      let attachments := [] in
      let solicitation_number :=
        ("CA-" ++ strftime_day page (row_clock page i) ++ "-"
         ++ pretty extracted_so_far)%string in
      let build description attachments solicitation_number :=
        Opportunity.post_init
          (Opportunity.mk "" (PortalConfig.name config) (OpportunityScorer.strip title)
             (OpportunityScorer.strip agency) (PortalConfig.naics_codes config)
             description solicitation_number (row_clock page i) due_date None None
             (Some "California"%string) attachments [] 0 0 (row_clock page i)) in
      if OpportunityScorer.falsy detail_url then
        Some (Ok (build description attachments solicitation_number))
      else
        match detail r with
        | Raised e => Some (Raised e)
        | Ok d =>
            Some (Ok (build (default description (desc_elem d))
                        (omap kept_href (attachment_hrefs d))
                        (default solicitation_number (sol_elem d))))
        end
  end.

(** The loop over the rows: a row that raises is logged and skipped. *)
Fixpoint extract_rows (config : PortalConfig.t) (page : results_page)
    (rs : list row_run) (i : nat) (opportunities : list Opportunity.t)
    (log : list string) : list Opportunity.t * list string :=
  match rs with
  | [] => (opportunities, log)
  | run :: rest =>
      let outcome :=
        match run with
        | RowRaises e => Some (Raised e)
        | RowRead r => extract_row config page i (length opportunities) r
        end in
      match outcome with
      | None => extract_rows config page rest (S i) opportunities log
      | Some (Ok opp) =>
          extract_rows config page rest (S i) (opportunities ++ [opp]) log
      | Some (Raised e) =>
          extract_rows config page rest (S i) opportunities
            (log ++ ["Error extracting opportunity from row: " ++ str e]%string)
      end
  end.

(** [_extract_opportunities]: the opportunities and the lines logged, or the
    exception of [query_selector_all]. *)
Definition _extract_opportunities (config : PortalConfig.t) (page : results_page)
    : result (list Opportunity.t * list string) :=
  let opportunities := [] in
  let rows_selector := PortalConfig.selectors config !! "opportunity_rows"%string in
  if OpportunityScorer.falsy rows_selector then Ok (opportunities, [])
  else
    rs ← rows page;
    Ok (extract_rows config page rs 0 opportunities []).

End CaliforniaEProcureScraper.

Module SAMGovScraper.

(** The loop over [opportunitiesData]: a record that fails to parse is
    logged and skipped. *)
Fixpoint collect (parsed : list (result Opportunity.t))
    : list Opportunity.t * list string :=
  match parsed with
  | [] => ([], [])
  | Ok opp :: rest => let '(opps, log) := collect rest in (opp :: opps, log)
  | Raised e :: rest =>
      let '(opps, log) := collect rest in
      (opps, ("Error parsing SAM opportunity: " ++ str e)%string :: log)
  end.

Definition scrape (config : PortalConfig.t) (ext : external) : scrape_outcome :=
  match PortalConfig.api_key config with
  | None | Some EmptyString =>
      (config, ["SAM.gov API key not configured"%string], Ok [])
  | Some _ =>
      let '(opportunities, log) :=
        match api ext with
        | GetRaises e => ([], ["Error scraping SAM.gov: " ++ str e]%string)
        | Response status parsed =>
            if (status =? 200)%Z then collect parsed
            else ([], ["SAM.gov API error: " ++ pretty status]%string)
        end in
      (PortalConfig.set_scraped config (finished_at ext) (length opportunities),
       log, Ok opportunities)
  end.

End SAMGovScraper.

Module WinScopeIntelligenceNetwork.

Record t := mk {
  portals : list PortalConfig.t;
  opportunities : list Opportunity.t
}.

(** The place of a task in the list that [asyncio.gather] returns with
    [return_exceptions=True]: the list that the coroutine returned, the
    [Exception] that it raised, or the [asyncio.CancelledError] of a task
    that was cancelled, a [BaseException] that is no [Exception]. *)
Inductive gathered : Type :=
  | Returned (opportunities : list Opportunity.t)
  | RaisedException (e : exn)
  | CancelledError.

(** [get_scraper(portal)] followed by [scraper.scrape()]. *)
Definition scrape_portal (portal : PortalConfig.t) (ext : external) : scrape_outcome :=
  if decide (PortalConfig.name portal = "California eProcure"%string) then
    CaliforniaEProcureScraper.scrape portal ext
  else if decide (PortalConfig.name portal = "SAM.gov"%string) then
    SAMGovScraper.scrape portal ext
  else PortalScraper.scrape portal ext.

(** One task of the gather, running the coroutine [scrape_portal(portal)].
    When the task is cancelled, the [CancelledError] goes through the
    handlers of the scrapers, which catch [Exception] only, and leaves the
    configuration as it was: the scrapers assign to it after their last
    wait. *)
Definition run_task (portal : PortalConfig.t) (ext : external)
    : PortalConfig.t * list string * gathered :=
  if cancelled ext then (portal, [], CancelledError)
  else
    let '(portal', log, r) := scrape_portal portal ext in
    (portal', log,
     match r with
     | Ok opportunities => Returned opportunities
     | Raised e => RaisedException e
     end).

(** The task list and [asyncio.gather] with [return_exceptions=True]: one
    task per due portal, [env i] being what the world does to the portal at
    position [i]; the results come in task order, a raised exception taking
    the place of the list.  Each task touches its own configuration only. *)
Fixpoint gather (now : datetime) (env : nat -> external) (i : nat)
    (portals : list PortalConfig.t)
    : list PortalConfig.t * list string * list gathered :=
  match portals with
  | [] => ([], [], [])
  | portal :: rest =>
      let '(rest', log_rest, results) := gather now env (S i) rest in
      if PortalConfig.should_scrape portal now then
        let '(portal', log, r) := run_task portal (env i) in
        (portal' :: rest', log ++ log_rest, r :: results)
      else (portal :: rest', log_rest, results)
  end.

(** The loop that flattens the results: a list is appended, an [Exception]
    is logged with its text, and a result that is neither, there being no
    [else], is passed over. *)
Fixpoint flatten (results : list gathered)
    (all_opportunities : list Opportunity.t) (log : list string)
    : list Opportunity.t * list string :=
  match results with
  | [] => (all_opportunities, log)
  | Returned l :: rest => flatten rest (all_opportunities ++ l) log
  | RaisedException e :: rest =>
      flatten rest all_opportunities (log ++ ["Scraping error: " ++ str e]%string)
  | CancelledError :: rest => flatten rest all_opportunities log
  end.

Fixpoint dedup_loop (opportunities : list Opportunity.t) (seen_ids : gset string)
    (unique_opportunities : list Opportunity.t) : list Opportunity.t :=
  match opportunities with
  | [] => unique_opportunities
  | opp :: rest =>
      if decide (Opportunity.id opp ∈ seen_ids) then
        dedup_loop rest seen_ids unique_opportunities
      else
        dedup_loop rest ({[Opportunity.id opp]} ∪ seen_ids) (unique_opportunities ++ [opp])
  end.

Definition _deduplicate (opportunities : list Opportunity.t) : list Opportunity.t :=
  dedup_loop opportunities ∅ [].

(** What a cycle of collection leaves behind. *)
Record collected := mk_collected {
  self_after : t;
  scraper_log : list string;
  error_log : list string;
  returned : list Opportunity.t
}.

Definition scrape_all_portals (self : t) (now : datetime) (env : nat -> external)
    : collected :=
  let '(portals', log, results) := gather now env 0 (portals self) in
  let '(all_opportunities, errors) := flatten results [] [] in
  mk_collected (mk portals' (opportunities self)) log errors
    (_deduplicate all_opportunities).

(** [score_one] sets the score of one opportunity.  [score_opportunity i]
    is what the awaited [self.scorer.score_opportunity] returns for the
    opportunity at position [i] of the list: the judgment service behind it
    need not answer twice alike. *)
Definition score_one (score_opportunity : Opportunity.t -> Q) (opp : Opportunity.t)
    : Opportunity.t :=
  Opportunity.set_match_score opp (score_opportunity opp).

Definition score_opportunities (score_opportunity : nat -> Opportunity.t -> Q)
    (opportunities : list Opportunity.t) : list Opportunity.t :=
  let scored := imap (fun i => score_one (score_opportunity i)) opportunities in
  sort_reverse Opportunity.match_score scored.

(** The body of the loop of [run_continuous], up to the sleep. *)
Definition run_cycle (self : t) (score_opportunity : nat -> Opportunity.t -> Q)
    (now : datetime) (env : nat -> external) : t :=
  let c := scrape_all_portals self now env in
  match returned c with
  | [] => self_after c
  | new_opportunities =>
      let scored_opportunities := score_opportunities score_opportunity new_opportunities in
      mk (portals (self_after c)) (opportunities (self_after c) ++ scored_opportunities)
  end.

Definition default_limit : Z := 10.
Definition default_min_score : Q := 50.

Definition get_top_opportunities (self : t) (limit : Z) (min_score : Q)
    : list Opportunity.t :=
  let filtered :=
    List.filter (fun opp => Qle_bool min_score (Opportunity.match_score opp)) (opportunities self) in
  slice_to limit (sort_reverse Opportunity.match_score filtered).

End WinScopeIntelligenceNetwork.

(** ** winscope_master_orchestrator.py *)

Inductive OpportunityStage : Type :=
  | DISCOVERED
  | SCORED
  | QUALIFIED
  | DOCUMENTS_DOWNLOADED
  | DATA_EXTRACTED
  | RFQ_GENERATED
  | RFQ_SENT
  | QUOTES_RECEIVED
  | PROPOSAL_GENERATED
  | PROPOSAL_SUBMITTED
  | WON
  | LOST
  | NO_BID.

#[global] Instance OpportunityStage_eq_dec : EqDecision OpportunityStage.
Proof. solve_decision. Defined.

(** [stage.value] *)
Definition stage_value (s : OpportunityStage) : string :=
  match s with
  | DISCOVERED => "discovered"
  | SCORED => "scored"
  | QUALIFIED => "qualified"
  | DOCUMENTS_DOWNLOADED => "documents_downloaded"
  | DATA_EXTRACTED => "data_extracted"
  | RFQ_GENERATED => "rfq_generated"
  | RFQ_SENT => "rfq_sent"
  | QUOTES_RECEIVED => "quotes_received"
  | PROPOSAL_GENERATED => "proposal_generated"
  | PROPOSAL_SUBMITTED => "proposal_submitted"
  | WON => "won"
  | LOST => "lost"
  | NO_BID => "no_bid"
  end.

(** The position of a stage in the pipeline, in declaration order. *)
Definition stage_index (s : OpportunityStage) : nat :=
  match s with
  | DISCOVERED => 0
  | SCORED => 1
  | QUALIFIED => 2
  | DOCUMENTS_DOWNLOADED => 3
  | DATA_EXTRACTED => 4
  | RFQ_GENERATED => 5
  | RFQ_SENT => 6
  | QUOTES_RECEIVED => 7
  | PROPOSAL_GENERATED => 8
  | PROPOSAL_SUBMITTED => 9
  | WON => 10
  | LOST => 11
  | NO_BID => 12
  end.

Module OpportunityRecord.

Record t := mk {
  id : string;
  solicitation_number : string;
  source_portal : string;
  title : string;
  agency : string;
  naics_codes : list string;
  description : string;
  posted_date : datetime;
  due_date : option datetime;
  estimated_value : option Q;
  set_aside : option string;
  location : option string;
  stage : OpportunityStage;
  match_score : Q;
  win_probability : Q;
  discovered_at : datetime;
  qualified_at : option datetime;
  submitted_at : option datetime;
  award_date : option datetime;
  solicitation_package_id : option string;
  rfq_document_path : option string;
  proposal_document_path : option string;
  bid_decision : string;
  bid_decision_reason : string;
  actual_bid_amount : option Q;
  winning_bid_amount : option Q;
  time_to_process_hours : option Q;
  automation_success : bool;
  manual_interventions : list string;
  raw_data : list (string * string);
  notes : string
}.

(** [record.stage = s] *)
Definition set_stage (r : t) (s : OpportunityStage) : t :=
  mk (id r) (solicitation_number r) (source_portal r) (title r) (agency r)
     (naics_codes r) (description r) (posted_date r) (due_date r)
     (estimated_value r) (set_aside r) (location r) s (match_score r)
     (win_probability r) (discovered_at r) (qualified_at r) (submitted_at r)
     (award_date r) (solicitation_package_id r) (rfq_document_path r)
     (proposal_document_path r) (bid_decision r) (bid_decision_reason r)
     (actual_bid_amount r) (winning_bid_amount r) (time_to_process_hours r)
     (automation_success r) (manual_interventions r) (raw_data r) (notes r).

(** [record.proposal_document_path = p] *)
Definition set_proposal_document_path (r : t) (p : string) : t :=
  mk (id r) (solicitation_number r) (source_portal r) (title r) (agency r)
     (naics_codes r) (description r) (posted_date r) (due_date r)
     (estimated_value r) (set_aside r) (location r) (stage r) (match_score r)
     (win_probability r) (discovered_at r) (qualified_at r) (submitted_at r)
     (award_date r) (solicitation_package_id r) (rfq_document_path r)
     (Some p) (bid_decision r) (bid_decision_reason r)
     (actual_bid_amount r) (winning_bid_amount r) (time_to_process_hours r)
     (automation_success r) (manual_interventions r) (raw_data r) (notes r).

End OpportunityRecord.

Module LearningEngine.

(** A row of the table [pricing_accuracy]. *)
Record pricing_row := mk_pricing_row {
  row_id : Z;
  line_item_description : string;
  estimated_price : Q;
  actual_price : Q;
  error_percentage : Q;
  source : string;
  created_at : datetime
}.

(** The table, oldest row first; [id] is [INTEGER PRIMARY KEY
    AUTOINCREMENT]. *)
Record t := mk {
  pricing_accuracy : list pricing_row;
  last_rowid : Z
}.

(** The expression assigned to [error_pct]. *)
Definition error_pct (estimated actual : Q) : result Q :=
  if Qltb 0 actual then
    r ← py_div (Qabs (estimated - actual)) actual; Ok (r * 100)%Q
  else Ok 0%Q.

Definition record_pricing_accuracy (self : t) (description : string)
    (estimated actual : Q) (source : string) (now : datetime) : result t :=
  e ← error_pct estimated actual;
  let rowid := (last_rowid self + 1)%Z in
  Ok (mk (pricing_accuracy self ++
            [mk_pricing_row rowid description estimated actual e source now])
         rowid).

End LearningEngine.

(** The other two tables of [LearningEngine] and the queries on them. *)
Module LearningTables.

(** A row of [win_loss_history], whose primary key is [id]. *)
Record win_loss_row := mk_win_loss_row {
  id : string;
  solicitation_number : string;
  agency : string;
  naics_codes : list string;
  match_score : Q;
  win_probability : Q;
  actual_result : string;
  our_bid : option Q;
  winning_bid : option Q;
  submitted_date : option datetime;
  award_date : option datetime;
  created_at : datetime
}.

(** A row of [automation_metrics]; [success] is the SQL test
    [success = 1]. *)
Record automation_row := mk_automation_row {
  opportunity_id : string;
  stage : string;
  success : bool;
  error_message : string;
  processing_time_seconds : Q;
  manual_intervention_required : bool;
  metric_created_at : datetime
}.

(** [INSERT INTO win_loss_history]: a second row with the same primary key
    is refused with [sqlite3.IntegrityError], and the table is left as it
    was. *)
Definition record_win_loss (win_loss_history : list win_loss_row)
    (record : OpportunityRecord.t) (now : datetime) : result (list win_loss_row) :=
  if decide (OpportunityRecord.id record ∈ map id win_loss_history) then
    Raised IntegrityError
  else
    Ok (win_loss_history ++
          [mk_win_loss_row (OpportunityRecord.id record)
             (OpportunityRecord.solicitation_number record)
             (OpportunityRecord.agency record)
             (OpportunityRecord.naics_codes record)
             (OpportunityRecord.match_score record)
             (OpportunityRecord.win_probability record)
             (stage_value (OpportunityRecord.stage record))
             (OpportunityRecord.actual_bid_amount record)
             (OpportunityRecord.winning_bid_amount record)
             (OpportunityRecord.submitted_at record)
             (OpportunityRecord.award_date record)
             now]).

(** [COUNT(CASE WHEN .. THEN 1 END) * 1.0 / COUNT( * )]: SQLite gives NULL
    when the divisor is zero. *)
Definition sql_ratio (hits total : nat) : option Q :=
  match total with
  | O => None
  | _ => Some (inject_Z (Z.of_nat hits) / inject_Z (Z.of_nat total))%Q
  end.

(** [result[0] if result and result[0] else d]: NULL and zero are both
    falsy. *)
Definition or_default (x : option Q) (d : Q) : Q :=
  match x with
  | Some v => if Qeq_bool v 0 then d else v
  | None => d
  end.

Definition get_win_rate_by_agency (win_loss_history : list win_loss_row)
    (a : string) : Q :=
  let rows :=
    List.filter
      (fun r => bool_decide (agency r = a)
                && (String.eqb (actual_result r) "won"
                    || String.eqb (actual_result r) "lost"))
      win_loss_history in
  let won := List.filter (fun r => String.eqb (actual_result r) "won") rows in
  or_default (sql_ratio (length won) (length rows)) 0.

(** [recent] stands for the clause [created_at > date('now', '-30 days')],
    which compares the stored text with the date SQLite computes. *)
Definition get_automation_success_rate (automation_metrics : list automation_row)
    (recent : datetime -> bool) (s : string) : Q :=
  let rows :=
    List.filter (fun r => bool_decide (stage r = s) && recent (metric_created_at r))
      automation_metrics in
  let ok := List.filter success rows in
  or_default (sql_ratio (length ok) (length rows)) 1.

(** [AVG(error_percentage)] over the rows the clause
    [created_at > date('now', '-90 days')] keeps: NULL when there is none. *)
Definition sql_avg (xs : list Q) : option Q :=
  match xs with
  | [] => None
  | _ => Some (fold_right Qplus 0 xs / inject_Z (Z.of_nat (length xs)))%Q
  end.

Definition get_average_pricing_error (self : LearningEngine.t)
    (recent : datetime -> bool) : Q :=
  let rows :=
    List.filter (fun r => recent (LearningEngine.created_at r))
      (LearningEngine.pricing_accuracy self) in
  or_default (sql_avg (map LearningEngine.error_percentage rows)) 0.

End LearningTables.

Module ProposalGenerator.

(** The generator object: its remote [client.messages.create], as for the
    scorer. *)
Record t := mk {
  client_messages_create : string -> result (list string)
}.

Definition is_lower (c : ascii) : bool :=
  let n := nat_of_ascii c in ((97 <=? n) && (n <=? 122))%nat.

Definition is_upper (c : ascii) : bool :=
  let n := nat_of_ascii c in ((65 <=? n) && (n <=? 90))%nat.

Definition lower_char (c : ascii) : ascii :=
  if is_upper c then ascii_of_nat (nat_of_ascii c + 32) else c.

(** [s.title()], on the letters of ASCII: a letter that follows a letter is
    lowered, any other letter is raised. *)
Fixpoint title_from (previous_is_cased : bool) (s : string) : string :=
  match s with
  | EmptyString => EmptyString
  | String c rest =>
      if is_lower c || is_upper c then
        String (if previous_is_cased then lower_char c else upper_char c)
          (title_from true rest)
      else String c (title_from false rest)
  end.

Definition title (s : string) : string := title_from false s.

(** [s.replace('_', ' ')] *)
Fixpoint underscores_to_spaces (s : string) : string :=
  match s with
  | EmptyString => EmptyString
  | String c rest =>
      String (if Ascii.eqb c "_" then " "%char else c) (underscores_to_spaces rest)
  end.

(** The prompt of a section; [context_json] is the text
    [json.dumps(context, indent=2, default=str)]. *)
Definition section_prompt (section_name context_json instructions : string) : string :=
  ("You are writing the " ++ title (underscores_to_spaces section_name)
   ++ " section of a government proposal.

CONTEXT:
" ++ context_json ++ "

INSTRUCTIONS:
" ++ instructions ++ "

Write professional, government-appropriate content. Use specific details from the context.
Be concise but comprehensive. Use Singh Automation's voice: technical, confident, customer-focused.

SECTION CONTENT:")%string.

Definition _generate_section (self : t) (section_name context_json instructions : string)
    : string :=
  match
    try_except
      (content ← client_messages_create self
                   (section_prompt section_name context_json instructions);
       text ← OpportunityScorer.first_block content;
       Ok (OpportunityScorer.strip text))
      (fun e => Ok ("[Section generation failed: " ++ section_name ++ "]")%string)
  with
  | Ok text => text
  | Raised _ => ""%string
  end.

Definition _generate_all_sections (self : t) (context_json : string)
    : gmap string string :=
  let sections : gmap string string := ∅ in
  let sections :=
    <["executive_summary"%string :=
        _generate_section self "executive_summary" context_json
          "Write a compelling 1-page executive summary that:
            - Demonstrates understanding of the requirement
            - Highlights our relevant experience
            - Emphasizes our unique value proposition (FANUC/UR certifications)
            - Builds confidence in our ability to deliver"]> sections in
  let sections :=
    <["technical_approach"%string :=
        _generate_section self "technical_approach" context_json
          "Write a detailed technical approach that:
            - Addresses each technical requirement specifically
            - Explains our methodology
            - Describes equipment and technologies to be used
            - Includes timeline and milestones
            - Demonstrates technical expertise"]> sections in
  let sections :=
    <["past_performance"%string :=
        _generate_section self "past_performance" context_json
          "Write a past performance section that:
            - Provides 3-5 relevant project examples
            - Includes client names, contract values, dates
            - Highlights similarities to current requirement
            - Shows successful outcomes and metrics"]> sections in
  let sections :=
    <["management_plan"%string :=
        _generate_section self "management_plan" context_json
          "Write a management plan that:
            - Describes project organization
            - Lists key personnel and qualifications
            - Explains quality assurance processes
            - Details communication protocols"]> sections in
  sections.

End ProposalGenerator.

Module WinScopeMasterOrchestrator.

(** [self.config] *)
Record config_t := mk_config {
  min_match_score : Q;
  auto_process_threshold : Q;
  max_concurrent_processing : Z;
  scrape_interval_minutes : Z
}.

(** The configuration set by [__init__]. *)
Definition config : config_t := mk_config 50 80 5 60.

(** A row of the table [opportunities], whose primary key is [id]; [data]
    is the serialised record. *)
Record row := mk_row {
  row_id : string;
  row_solicitation_number : string;
  row_source_portal : string;
  row_title : string;
  row_agency : string;
  row_stage : string;
  row_match_score : Q;
  row_win_probability : Q;
  data : OpportunityRecord.t;
  created_at : datetime;
  updated_at : datetime
}.

Record t := mk {
  self_config : config_t;
  pipeline : gmap string OpportunityRecord.t;
  opportunities_table : gmap string row
}.

Definition _qualify_opportunities (self : t) (opportunities : list Opportunity.t)
    : list Opportunity.t :=
  List.filter
    (fun opp => Qle_bool (min_match_score (self_config self)) (Opportunity.match_score opp))
    opportunities.

(** [INSERT OR REPLACE INTO opportunities]: a row with the same primary key
    is replaced. *)
Definition _save_opportunity_record (self : t) (record : OpportunityRecord.t)
    (now : datetime) : t :=
  let r :=
    mk_row (OpportunityRecord.id record) (OpportunityRecord.solicitation_number record)
      (OpportunityRecord.source_portal record) (OpportunityRecord.title record)
      (OpportunityRecord.agency record) (stage_value (OpportunityRecord.stage record))
      (OpportunityRecord.match_score record) (OpportunityRecord.win_probability record)
      record (OpportunityRecord.discovered_at record) now in
  mk (self_config self) (pipeline self)
     (<[OpportunityRecord.id record := r]> (opportunities_table self)).

Definition _process_opportunity (self : t) (opportunity : Opportunity.t)
    (now : datetime) : t :=
  let record :=
    OpportunityRecord.mk
      (Opportunity.id opportunity) (Opportunity.solicitation_number opportunity)
      (Opportunity.source_portal opportunity) (Opportunity.title opportunity)
      (Opportunity.agency opportunity) (Opportunity.naics_codes opportunity)
      (Opportunity.description opportunity) (Opportunity.posted_date opportunity)
      (Opportunity.due_date opportunity) (Opportunity.estimated_value opportunity)
      (Opportunity.set_aside opportunity) (Opportunity.location opportunity)
      QUALIFIED (Opportunity.match_score opportunity)
      (Opportunity.win_probability opportunity)
      now (Some now) None None None None None "pending" "" None None None
      true [] [] "" in
  (* the body of the [try] holds assignments and logging only (document
     processing is commented out in the source), so its handler is not
     reached *)
  let record := OpportunityRecord.set_stage record DATA_EXTRACTED in
  let record := OpportunityRecord.set_stage record RFQ_GENERATED in
  let self := _save_opportunity_record self record now in
  mk (self_config self) (<[OpportunityRecord.id record := record]> (pipeline self))
     (opportunities_table self).

(** The loop of step 3 of [run_pipeline_cycle]; [clock i] is the reading
    of the clock while the opportunity at position [i] is processed. *)
Fixpoint process_each (self : t) (opportunities : list Opportunity.t)
    (clock : nat -> datetime) (i : nat) : t :=
  match opportunities with
  | [] => self
  | opp :: rest =>
      process_each (_process_opportunity self opp (clock i)) rest clock (S i)
  end.

(** Steps 2 and 3 of [run_pipeline_cycle], as a function of its local
    [scored], which the source leaves empty as long as the scraper network
    is not wired in. *)
Definition qualify_and_process (self : t) (scored : list Opportunity.t)
    (clock : nat -> datetime) : t :=
  let qualified := _qualify_opportunities self scored in
  process_each self
    (slice_to (max_concurrent_processing (self_config self)) qualified) clock 0.

(** [_generate_proposal_for_opportunity], on the record it is given:
    [written] is what generating the text, creating the directory and
    writing the file of the proposal did; the record is the object held by
    [self.pipeline]. *)
Definition _generate_proposal_for_opportunity (record : OpportunityRecord.t)
    (written : result unit) : OpportunityRecord.t :=
  match
    try_except
      (_ ← written;
       let proposal_path :=
         ("/home/claude/outputs/proposals/" ++ OpportunityRecord.id record
          ++ "_proposal.txt")%string in
       let record := OpportunityRecord.set_proposal_document_path record proposal_path in
       Ok (OpportunityRecord.set_stage record PROPOSAL_GENERATED))
      (fun e => Ok record)
  with
  | Ok record => record
  | Raised _ => record
  end.

(** Step 4 of [run_pipeline_cycle]: every record of the pipeline at
    [QUOTES_RECEIVED] is handed to [_generate_proposal_for_opportunity];
    [writes i] is the fate of the file of the record with identity [i]. *)
Definition generate_ready_proposals (self : t) (writes : string -> result unit) : t :=
  mk (self_config self)
     ((fun record =>
         if decide (OpportunityRecord.stage record = QUOTES_RECEIVED)
         then _generate_proposal_for_opportunity record
                (writes (OpportunityRecord.id record))
         else record) <$> pipeline self)
     (opportunities_table self).

(** [run_pipeline_cycle]: nothing is discovered, so steps 2 and 3 run on the
    empty list. *)
Definition run_pipeline_cycle (self : t) (clock : nat -> datetime)
    (writes : string -> result unit) : t :=
  let scored := [] in
  let self := qualify_and_process self scored clock in
  generate_ready_proposals self writes.

End WinScopeMasterOrchestrator.

(** ** Definitions used to state the properties *)

(** The loop of [_deduplicate] without its accumulator: the opportunities
    whose identity is met for the first time. *)
Fixpoint first_seen (seen : gset string) (l : list Opportunity.t) : list Opportunity.t :=
  match l with
  | [] => []
  | opp :: rest =>
      if decide (Opportunity.id opp ∈ seen) then first_seen seen rest
      else opp :: first_seen ({[Opportunity.id opp]} ∪ seen) rest
  end.


(** A candidate as a scraper builds it: no identity yet, agency "DoD". *)
Definition raw_candidate (portal solicitation : string) (value : option Q)
    (due : option datetime) : Opportunity.t :=
  Opportunity.mk "" portal "Conveyor line upgrade" "DoD" ["333249"%string] ""
    solicitation 0%Z due value None None [] [] 0 0 0%Z.

(** The tasks of a cycle: the due portals with their positions in
    [self.portals], starting at position [i]. *)
Fixpoint due_tasks (now : datetime) (i : nat) (portals : list PortalConfig.t)
    : list (nat * PortalConfig.t) :=
  match portals with
  | [] => []
  | portal :: rest =>
      if PortalConfig.should_scrape portal now
      then (i, portal) :: due_tasks now (S i) rest
      else due_tasks now (S i) rest
  end.

(** What one task leaves in the list of the gather. *)
Definition task_result (env : nat -> external) (task : nat * PortalConfig.t)
    : WinScopeIntelligenceNetwork.gathered :=
  snd (WinScopeIntelligenceNetwork.run_task (snd task) (env (fst task))).

(** The batches of the tasks that returned, and the exceptions of those
    that raised an [Exception], in task order. *)
Fixpoint batches (results : list WinScopeIntelligenceNetwork.gathered)
    : list (list Opportunity.t) :=
  match results with
  | [] => []
  | WinScopeIntelligenceNetwork.Returned l :: rest => l :: batches rest
  | _ :: rest => batches rest
  end.

Fixpoint failures (results : list WinScopeIntelligenceNetwork.gathered) : list exn :=
  match results with
  | [] => []
  | WinScopeIntelligenceNetwork.RaisedException e :: rest => e :: failures rest
  | _ :: rest => failures rest
  end.

(** The number of tasks that were cancelled. *)
Fixpoint cancellations (results : list WinScopeIntelligenceNetwork.gathered) : nat :=
  match results with
  | [] => 0
  | WinScopeIntelligenceNetwork.CancelledError :: rest => S (cancellations rest)
  | _ :: rest => cancellations rest
  end.

(** The opportunities that a task contributes to the cycle. *)
Definition yield_of (r : WinScopeIntelligenceNetwork.gathered) : list Opportunity.t :=
  match r with
  | WinScopeIntelligenceNetwork.Returned l => l
  | _ => []
  end.

(** The source of a task by the scraper that [get_scraper] gives it. *)
Definition is_california (portal : PortalConfig.t) : bool :=
  bool_decide (PortalConfig.name portal = "California eProcure"%string).

Definition is_sam (portal : PortalConfig.t) : bool :=
  negb (is_california portal)
  && bool_decide (PortalConfig.name portal = "SAM.gov"%string).

(** A failure that the scraper handles itself: California eProcure when
    the page session raises after the browser was launched, SAM.gov when
    the key is missing, the request raises or the status is not 200. *)
Definition caught_by_scraper (portal : PortalConfig.t) (ext : external) : bool :=
  negb (cancelled ext)
  && (is_california portal
      && match browser ext with PageRaises _ => true | _ => false end
      || is_sam portal
         && (OpportunityScorer.falsy (PortalConfig.api_key portal)
             || match api ext with
                | GetRaises _ => true
                | Response status _ => negb (status =? 200)%Z
                end)).

(** A failure that the scraper records as a scrape without yield: one that
    it handles itself, the missing key apart. *)
Definition recorded_failure (portal : PortalConfig.t) (ext : external) : bool :=
  caught_by_scraper portal ext
  && negb (is_sam portal && OpportunityScorer.falsy (PortalConfig.api_key portal)).

(** A failure that comes out of the coroutine as an [Exception]: the
    browser of California eProcure cannot be launched, or the portal is
    left to the base scraper. *)
Definition raised_by_task (portal : PortalConfig.t) (ext : external) : bool :=
  negb (cancelled ext)
  && (is_california portal
      && match browser ext with LaunchRaises _ => true | _ => false end
      || negb (is_california portal) && negb (is_sam portal)).

(** The fetch of a source fails: its task is cancelled, raises, or the
    scraper handles the failure. *)
Definition fetch_failed (portal : PortalConfig.t) (ext : external) : bool :=
  cancelled ext || raised_by_task portal ext || caught_by_scraper portal ext.

Definition count_tasks (p : PortalConfig.t -> external -> bool) (env : nat -> external)
    (tasks : list (nat * PortalConfig.t)) : nat :=
  length (List.filter (fun task => p (snd task) (env (fst task))) tasks).

(** Exceptions of the libraries that the program calls. *)
Definition TimeoutError : exn := mk_exn "TimeoutError" "Timeout 30000ms exceeded.".
Definition APIConnectionError : exn := mk_exn "APIConnectionError" "Connection error.".
Definition ValueError (text : string) : exn := mk_exn "ValueError" text.

(** A scorer whose judgment service cannot be reached. *)
Definition offline_scorer : OpportunityScorer.t :=
  OpportunityScorer.mk OpportunityScorer.company_profile
    (fun _ => Raised APIConnectionError)
    (fun text =>
       Raised (ValueError ("could not convert string to float: '" ++ text ++ "'"))).

(** A stored opportunity with a given score and posting date. *)
Definition scored_candidate (portal solicitation : string) (posted : datetime)
    (score : Q) : Opportunity.t :=
  Opportunity.post_init
    (Opportunity.mk "" portal "Conveyor line upgrade" "DoD" ["333249"%string] ""
       solicitation posted None None None None [] [] score 0 0%Z).

(** The order the specification asks of a ranking: higher score first, and
    among equal scores the earlier posting date first, then the smaller
    source name. *)
Definition tie_break_before (a b : Opportunity.t) : Prop :=
  (Opportunity.match_score b < Opportunity.match_score a)%Q
  \/ ((Opportunity.match_score a == Opportunity.match_score b)%Q
      /\ ((Opportunity.posted_date a < Opportunity.posted_date b)%Z
          \/ (Opportunity.posted_date a = Opportunity.posted_date b
              /\ String.leb (Opportunity.source_portal a) (Opportunity.source_portal b)
                 = true))).

Definition ranked_with_tie_break (l : list Opportunity.t) : Prop :=
  forall (i j : nat) (a b : Opportunity.t),
    (i < j)%nat -> l !! i = Some a -> l !! j = Some b -> tie_break_before a b.

(** Scores do not increase along the list. *)
Definition descending (l : list Opportunity.t) : Prop :=
  StronglySorted
    (fun a b => (Opportunity.match_score b <= Opportunity.match_score a)%Q) l.

(** The opportunities of a list whose score equals [s], in list order. *)
Definition with_score (s : Q) (l : list Opportunity.t) : list Opportunity.t :=
  List.filter (fun opp => Qeq_bool (Opportunity.match_score opp) s) l.

(** A store holding ten opportunities that score 60 to 69 and one that
    scores exactly 50. *)
Definition boundary_opp : Opportunity.t := scored_candidate "SAM.gov" "AB-100" 0 50.

Definition crowded_store : WinScopeIntelligenceNetwork.t :=
  WinScopeIntelligenceNetwork.mk []
    (boundary_opp ::
     map (fun n => scored_candidate "SAM.gov" (pretty n) 0 (inject_Z (60 + n)))
       [0; 1; 2; 3; 4; 5; 6; 7; 8; 9]%Z).

(** The registry entry of California eProcure, and a browser session that
    times out at the given moment. *)
Definition california_portal : PortalConfig.t :=
  PortalConfig.mk "California eProcure"
    "https://caleprocure.ca.gov/pages/Events-BS3/event-search.aspx"
    STATE_WEB PLAYWRIGHT 12 ["333249"; "541330"; "541512"]%string
    ["automation"; "robotics"; "material handling"]%string
    false None
    (<["search_button" := "button#searchButton"]> ∅)%string
    None None None 1 0.

Definition timed_out (at_time : datetime) : external :=
  mk_external (PageRaises TimeoutError) (GetRaises TimeoutError) at_time false.

(** The browser cannot be launched within the time allowed. *)
Definition launch_timed_out (at_time : datetime) : external :=
  mk_external (LaunchRaises TimeoutError) (GetRaises TimeoutError) at_time false.

(** The task is cancelled while it waits for the page or for the answer. *)
Definition cancelled_wait (at_time : datetime) : external :=
  mk_external (Extracted []) (Response 200 []) at_time true.

(** The record that [_process_opportunity] builds for an opportunity. *)
Definition processed_record (opportunity : Opportunity.t) (now : datetime)
    : OpportunityRecord.t :=
  OpportunityRecord.mk
    (Opportunity.id opportunity) (Opportunity.solicitation_number opportunity)
    (Opportunity.source_portal opportunity) (Opportunity.title opportunity)
    (Opportunity.agency opportunity) (Opportunity.naics_codes opportunity)
    (Opportunity.description opportunity) (Opportunity.posted_date opportunity)
    (Opportunity.due_date opportunity) (Opportunity.estimated_value opportunity)
    (Opportunity.set_aside opportunity) (Opportunity.location opportunity)
    RFQ_GENERATED (Opportunity.match_score opportunity)
    (Opportunity.win_probability opportunity)
    now (Some now) None None None None None "pending" "" None None None
    true [] [] "".

(** An orchestrator whose pipeline holds one record, for the opportunity
    [boundary_opp], already at the stage [PROPOSAL_GENERATED] with a manual
    intervention logged. *)
Definition advanced_record : OpportunityRecord.t :=
  OpportunityRecord.mk
    (Opportunity.id boundary_opp) "AB-100" "SAM.gov" "Conveyor line upgrade" "DoD"
    ["333249"%string] "" 0%Z None None None None
    PROPOSAL_GENERATED 50 0
    0%Z (Some 0%Z) None None None None None "go" "" None None None
    true ["quotes entered by hand"%string] [] "".

Definition advanced_orchestrator : WinScopeMasterOrchestrator.t :=
  WinScopeMasterOrchestrator.mk WinScopeMasterOrchestrator.config
    (<[Opportunity.id boundary_opp := advanced_record]> ∅) ∅.

(** Three portals that have never been scraped: California eProcure, a
    portal served by the generic scraper, and SAM.gov with a key. *)
Definition generic_portal : PortalConfig.t :=
  PortalConfig.mk "Texas SmartBuy"
    "https://comptroller.texas.gov/purchasing/vendor/resources/smartbuy.php"
    STATE_WEB BEAUTIFUL_SOUP 24 ["333249"; "541330"]%string
    ["automation"; "manufacturing equipment"]%string
    false None ∅ None None None 1 0.

Definition sam_portal : PortalConfig.t :=
  PortalConfig.mk "SAM.gov" "https://sam.gov"
    FEDERAL_API REST_API 6 ["333249"; "541330"; "541512"; "541715"]%string
    ["robot"; "automation"; "conveyor"; "PLC"; "vision system"]%string
    false None ∅ (Some "https://api.sam.gov/opportunities/v2/search"%string)
    (Some "key"%string) None 1 0.

Definition three_portals : WinScopeIntelligenceNetwork.t :=
  WinScopeIntelligenceNetwork.mk [california_portal; generic_portal; sam_portal] [].

Definition ca_opp : Opportunity.t :=
  scored_candidate "California eProcure" "CA-20251201-0" 0 0.

Definition sam_opp : Opportunity.t := scored_candidate "SAM.gov" "AB-100" 0 0.

(** The browser extracts one opportunity, and the API answers 200 with one
    record that parses and one that does not. *)
Definition one_failure_env : nat -> external := fun _ =>
  mk_external (Extracted [ca_opp])
    (Response 200 [Ok sam_opp; Raised (ValueError "Invalid isoformat string: ''")])
    3600000000 false.

(** California eProcure and SAM.gov, never scraped; the task of the first
    is cancelled and the second answers with one record. *)
Definition two_portals : WinScopeIntelligenceNetwork.t :=
  WinScopeIntelligenceNetwork.mk [california_portal; sam_portal] [].

Definition one_cancelled_env : nat -> external := fun i =>
  match i with
  | O => cancelled_wait 3600000000
  | _ => mk_external (Extracted []) (Response 200 [Ok sam_opp]) 3600000000 false
  end.

(** A scrape of California eProcure that finds six opportunities and ends
    at time 0. *)
Definition productive_scrape : external :=
  mk_external (Extracted (replicate 6 boundary_opp)) (GetRaises TimeoutError) 0 false.

(** The characters of a lower-case hexadecimal number. *)
Definition is_hex_digit (c : ascii) : bool :=
  let n := nat_of_ascii c in
  ((48 <=? n) && (n <=? 57) || (97 <=? n) && (n <=? 102))%nat.

Fixpoint string_forall (p : ascii -> bool) (s : string) : bool :=
  match s with
  | EmptyString => true
  | String c rest => p c && string_forall p rest
  end.

(** A portal whose scrape never records anything: it is not California
    eProcure, and it is not SAM.gov unless its key is missing. *)
Definition unrecorded (portal : PortalConfig.t) : bool :=
  negb (bool_decide (PortalConfig.name portal = "California eProcure"%string))
  && (negb (bool_decide (PortalConfig.name portal = "SAM.gov"%string))
      || OpportunityScorer.falsy (PortalConfig.api_key portal)).

(** Several turns of the loop of [run_continuous], each with its scorer
    answers, its clock and its outside world. *)
Fixpoint run_cycles (self : WinScopeIntelligenceNetwork.t)
    (turns : list ((nat -> Opportunity.t -> Q) * datetime * (nat -> external)))
    : WinScopeIntelligenceNetwork.t :=
  match turns with
  | [] => self
  | (score_opportunity, now, env) :: rest =>
      run_cycles (WinScopeIntelligenceNetwork.run_cycle self score_opportunity now env) rest
  end.

(** The records of a SAM.gov answer that parsed. *)
Definition parsed_ok (r : result Opportunity.t) : option Opportunity.t :=
  match r with
  | Ok opp => Some opp
  | Raised _ => None
  end.

(** A pricing observation, as the arguments of [record_pricing_accuracy]. *)
Record observation := mk_observation {
  obs_description : string;
  obs_estimated : Q;
  obs_actual : Q;
  obs_source : string;
  obs_time : datetime
}.

(** Recording a series of observations, in order. *)
Fixpoint record_all (self : LearningEngine.t) (obs : list observation)
    : result LearningEngine.t :=
  match obs with
  | [] => Ok self
  | o :: rest =>
      self' ← LearningEngine.record_pricing_accuracy self (obs_description o)
                (obs_estimated o) (obs_actual o) (obs_source o) (obs_time o);
      record_all self' rest
  end.

(** [hits / total], zero when [total] is zero. *)
Definition ratio_or_zero (hits total : nat) : Q :=
  match total with
  | O => 0
  | _ => (inject_Z (Z.of_nat hits) / inject_Z (Z.of_nat total))%Q
  end.

(** The rows of the win/loss table that count for an agency, and the wins
    among them. *)
Definition decided_for (a : string) (history : list LearningTables.win_loss_row)
    : list LearningTables.win_loss_row :=
  List.filter
    (fun r => bool_decide (LearningTables.agency r = a)
              && (String.eqb (LearningTables.actual_result r) "won"
                  || String.eqb (LearningTables.actual_result r) "lost"))
    history.

Definition wins_of (rows : list LearningTables.win_loss_row)
    : list LearningTables.win_loss_row :=
  List.filter (fun r => String.eqb (LearningTables.actual_result r) "won") rows.

(** The pipeline and the table agree: they hold the same identities, each
    record is filed under its own identity, and its row carries the record,
    its stage and its score. *)
Definition consistent (self : WinScopeMasterOrchestrator.t) : Prop :=
  dom (WinScopeMasterOrchestrator.pipeline self)
  = dom (WinScopeMasterOrchestrator.opportunities_table self)
  /\ forall (i : string) (r : OpportunityRecord.t),
       WinScopeMasterOrchestrator.pipeline self !! i = Some r ->
       OpportunityRecord.id r = i
       /\ exists row,
            WinScopeMasterOrchestrator.opportunities_table self !! i = Some row
            /\ WinScopeMasterOrchestrator.data row = r
            /\ WinScopeMasterOrchestrator.row_stage row
               = stage_value (OpportunityRecord.stage r)
            /\ WinScopeMasterOrchestrator.row_match_score row
               = OpportunityRecord.match_score r.

(** An orchestrator with one record waiting for its proposal. *)
Definition quoted_record : OpportunityRecord.t :=
  OpportunityRecord.set_stage advanced_record QUOTES_RECEIVED.

Definition quoted_orchestrator : WinScopeMasterOrchestrator.t :=
  WinScopeMasterOrchestrator.mk WinScopeMasterOrchestrator.config
    (<[OpportunityRecord.id quoted_record := quoted_record]> ∅) ∅.

(** The rows that could be read and have no title. *)
Definition untitled (run : CaliforniaEProcureScraper.row_run) : bool :=
  match run with
  | CaliforniaEProcureScraper.RowRead r =>
      match CaliforniaEProcureScraper.title_elem r with
      | None => true
      | Some _ => false
      end
  | CaliforniaEProcureScraper.RowRaises _ => false
  end.

(** What every opportunity extracted for a portal looks like. *)
Definition extracted_for (config : PortalConfig.t) (opp : Opportunity.t) : Prop :=
  Opportunity.source_portal opp = PortalConfig.name config
  /\ Opportunity.naics_codes opp = PortalConfig.naics_codes config
  /\ Opportunity.location opp = Some "California"%string
  /\ Opportunity.estimated_value opp = None
  /\ Opportunity.set_aside opp = None
  /\ Opportunity.id opp = Opportunity.generate_id opp.

(** The four sections of a proposal. *)
Definition section_names : list string :=
  ["executive_summary"; "technical_approach"; "past_performance"; "management_plan"]%string.

(** A row without a detail link, whose detail page is therefore never
    opened, with the given title and due date. *)
Definition plain_row (title due : option string) : CaliforniaEProcureScraper.row_run :=
  CaliforniaEProcureScraper.RowRead
    (CaliforniaEProcureScraper.mk_table_row title None due None
       (Raised (mk_exn "Error" "net::ERR_ABORTED"))).

(** A page read on 1 December 2025, whose due dates all parse. *)
Definition page_of (rs : list CaliforniaEProcureScraper.row_run)
    : CaliforniaEProcureScraper.results_page :=
  CaliforniaEProcureScraper.mk_results_page (Ok rs)
    (fun _ => 1764547200000000%Z) (fun _ => Ok 1767139200000000%Z)
    (fun _ => "20251201"%string).

(** A page of two rows without detail links, the second without a title. *)
Definition two_row_page : CaliforniaEProcureScraper.results_page :=
  page_of [plain_row (Some " Robot cell "%string) (Some "12/31/2025"%string);
           plain_row None None].

(** A page of five rows without detail links: the second has no title and
    the fourth cannot be read. *)
Definition five_row_page : CaliforniaEProcureScraper.results_page :=
  page_of [plain_row (Some " Robot cell "%string) (Some "12/31/2025"%string);
           plain_row None None;
           plain_row (Some "Conveyor line upgrade"%string) None;
           CaliforniaEProcureScraper.RowRaises TimeoutError;
           plain_row (Some "Vision system"%string) (Some "12/31/2025"%string)].

Definition california_with_rows : PortalConfig.t :=
  PortalConfig.mk "California eProcure"
    "https://caleprocure.ca.gov/pages/Events-BS3/event-search.aspx"
    STATE_WEB PLAYWRIGHT 12 ["333249"; "541330"; "541512"]%string
    ["automation"; "robotics"; "material handling"]%string
    false None
    (<["opportunity_rows" := "table#resultsTable tbody tr"]> ∅)%string
    None None None 1 0.

(** The opportunity extracted from the first row of [two_row_page]. *)
Definition extracted_sample : Opportunity.t :=
  match CaliforniaEProcureScraper._extract_opportunities california_with_rows
          two_row_page with
  | Ok (opp :: _, _) => opp
  | _ => boundary_opp
  end.
(** * Properties *)

(** ** MD5 test vectors (RFC 1321, appendix A.5, and two block boundaries) *)

Example md5_empty : MD5.hexdigest "" = "d41d8cd98f00b204e9800998ecf8427e"%string.
Proof. vm_compute. reflexivity. Qed.

Example md5_abc : MD5.hexdigest "abc" = "900150983cd24fb0d6963f7d28e17f72"%string.
Proof. vm_compute. reflexivity. Qed.

Example md5_two_blocks :
  MD5.hexdigest "aaaaaaaaaaaaaaaaaaaaaaaaaaaaaaaaaaaaaaaaaaaaaaaaaaaaaaaaaaaaaaaaaaaaaa"
  = "0f5c6c4e740bfcc08c3c26ccb2673d46"%string.
Proof. vm_compute. reflexivity. Qed.

Example md5_56 :
  MD5.hexdigest "aaaaaaaaaaaaaaaaaaaaaaaaaaaaaaaaaaaaaaaaaaaaaaaaaaaaaaaa"
  = "3b0c8ac703f828b04c6c197006d17218"%string.
Proof. vm_compute. reflexivity. Qed.

(** ** Identity and deduplication *)

Section Deduplicate.

Import WinScopeIntelligenceNetwork.

Local Abbreviation ids l := (map Opportunity.id l).

Lemma dedup_loop_first_seen l seen acc :
  dedup_loop l seen acc = acc ++ first_seen seen l.
Proof.
  revert seen acc. induction l as [|opp rest IH]; intros seen acc; simpl.
  - by rewrite app_nil_r.
  - destruct (decide (Opportunity.id opp ∈ seen)); rewrite IH; [done|].
    by rewrite <- app_assoc.
Qed.

Lemma deduplicate_first_seen l : _deduplicate l = first_seen ∅ l.
Proof. unfold _deduplicate. by rewrite dedup_loop_first_seen. Qed.

Lemma elem_of_first_seen_ids seen l i :
  i ∈ ids (first_seen seen l) ↔ i ∈ ids l ∧ i ∉ seen.
Proof.
  revert seen. induction l as [|opp rest IH]; intros seen; simpl.
  - set_solver.
  - destruct (decide (Opportunity.id opp ∈ seen)) as [Hin|Hout]; simpl.
    + rewrite IH. clear IH. set_solver.
    + rewrite !elem_of_cons, IH. clear IH.
      destruct (decide (i = Opportunity.id opp)); set_solver.
Qed.

Lemma NoDup_first_seen seen l : NoDup (ids (first_seen seen l)).
Proof.
  revert seen. induction l as [|opp rest IH]; intros seen; simpl.
  - constructor.
  - destruct (decide (Opportunity.id opp ∈ seen)); simpl; [apply IH|].
    apply NoDup_cons. split; [|apply IH].
    rewrite elem_of_first_seen_ids. set_solver.
Qed.

Lemma first_seen_fixed seen l :
  NoDup (ids l) → (∀ i, i ∈ ids l → i ∉ seen) → first_seen seen l = l.
Proof.
  revert seen. induction l as [|opp rest IH]; intros seen Hnd Hfresh; simpl; [done|].
  simpl in Hnd. apply NoDup_cons in Hnd as [Hhead Hnd].
  destruct (decide (Opportunity.id opp ∈ seen)) as [Hin|_].
  - exfalso. apply (Hfresh (Opportunity.id opp)); [simpl; set_solver | done].
  - f_equal. apply IH; [done|].
    intros i Hi. specialize (Hfresh i). simpl in Hfresh. set_solver.
Qed.

Lemma first_seen_first_occurrence seen l opp :
  opp ∈ first_seen seen l →
  ∃ l1 l2, l = l1 ++ opp :: l2 ∧ (Opportunity.id opp ∉ ids l1) ∧ Opportunity.id opp ∉ seen.
Proof.
  revert seen. induction l as [|o rest IH]; intros seen; simpl.
  - intros H. by apply elem_of_nil in H.
  - destruct (decide (Opportunity.id o ∈ seen)) as [Hin|Hout].
    + intros H. destruct (IH _ H) as (l1 & l2 & -> & Hl1 & Hs).
      exists (o :: l1), l2. split; [done|]. split; [|done].
      simpl. rewrite not_elem_of_cons. split; [congruence | done].
    + rewrite elem_of_cons. intros [->|H].
      * exists [], rest. split; [done|]. split; [simpl; set_solver | done].
      * destruct (IH _ H) as (l1 & l2 & -> & Hl1 & Hs).
        exists (o :: l1), l2. split; [done|]. split; [|set_solver].
        simpl. rewrite not_elem_of_cons. split; [set_solver | done].
Qed.

Lemma deduplicate_ids l i : i ∈ ids (_deduplicate l) ↔ i ∈ ids l.
Proof. rewrite deduplicate_first_seen, elem_of_first_seen_ids. set_solver. Qed.

Lemma deduplicate_NoDup l : NoDup (ids (_deduplicate l)).
Proof. rewrite deduplicate_first_seen. apply NoDup_first_seen. Qed.

Lemma deduplicate_idempotent l : _deduplicate (_deduplicate l) = _deduplicate l.
Proof.
  rewrite (deduplicate_first_seen (_deduplicate l)).
  apply first_seen_fixed; [apply deduplicate_NoDup | set_solver].
Qed.

Lemma deduplicate_perm_ids l l' :
  l ≡ₚ l' → ids (_deduplicate l) ≡ₚ ids (_deduplicate l').
Proof.
  intros Hp. apply NoDup_Permutation; try apply deduplicate_NoDup.
  intros i. rewrite !deduplicate_ids. by rewrite Hp.
Qed.

Example id_sam_ab100 :
  Opportunity.id (Opportunity.post_init (raw_candidate "SAM.gov" "AB-100" None None))
  = "4e212f307ed7cccc"%string.
Proof. vm_compute. reflexivity. Qed.

Example id_california_ab100 :
  Opportunity.id
    (Opportunity.post_init (raw_candidate "California eProcure" "AB-100" None None))
  = "9df2d72d08888d9e"%string.
Proof. vm_compute. reflexivity. Qed.

(** C1, as the specification words it, fails: the same solicitation number
    reported by two portals gets two identities. *)
Lemma C1_same_solicitation_two_identities :
  ¬ (∀ a b : Opportunity.t,
       Opportunity.id a = ""%string → Opportunity.id b = ""%string →
       Opportunity.solicitation_number a = Opportunity.solicitation_number b →
       Opportunity.id (Opportunity.post_init a) = Opportunity.id (Opportunity.post_init b)).
Proof.
  intros H.
  specialize (H (raw_candidate "SAM.gov" "AB-100" (Some 120000%Q) None)
                (raw_candidate "California eProcure" "AB-100" None (Some 86400000000%Z))
                eq_refl eq_refl eq_refl).
  vm_compute in H. discriminate H.
Qed.

(** C1 (amended): the identity of a candidate built without one is the
    first 16 hexadecimal digits of the MD5 digest of its portal name, an
    underscore and its solicitation number; two candidates of the same portal
    with the same solicitation number therefore share one identity, and
    deduplication keeps the first of them only. *)
Theorem C1_identity_of_portal_and_solicitation (a b : Opportunity.t) :
  Opportunity.id a = ""%string → Opportunity.id b = ""%string →
  Opportunity.source_portal a = Opportunity.source_portal b →
  Opportunity.solicitation_number a = Opportunity.solicitation_number b →
  Opportunity.id (Opportunity.post_init a)
    = str_take 16 (MD5.hexdigest (Opportunity.source_portal a ++ "_"
                                    ++ Opportunity.solicitation_number a)%string)
  ∧ Opportunity.id (Opportunity.post_init b) = Opportunity.id (Opportunity.post_init a)
  ∧ _deduplicate [Opportunity.post_init a; Opportunity.post_init b]
    = [Opportunity.post_init a].
Proof.
  intros Ha Hb Hp Hs.
  assert (Hida : Opportunity.id (Opportunity.post_init a) = Opportunity.generate_id a).
  { unfold Opportunity.post_init. by rewrite decide_True. }
  assert (Hidb : Opportunity.id (Opportunity.post_init b) = Opportunity.generate_id a).
  { unfold Opportunity.post_init. rewrite decide_True by done. simpl.
    unfold Opportunity.generate_id. by rewrite Hp, Hs. }
  split; [exact Hida|]. split; [congruence|].
  rewrite deduplicate_first_seen. simpl.
  rewrite decide_False by set_solver.
  rewrite decide_True; [done|]. rewrite Hidb, Hida. set_solver.
Qed.

Lemma C1_identity_of_portal_and_solicitation_witness :
  let a := raw_candidate "SAM.gov" "AB-100" (Some 120000%Q) None in
  let b := raw_candidate "SAM.gov" "AB-100" None (Some 86400000000%Z) in
  (Opportunity.id a = ""%string ∧ Opportunity.id b = ""%string
   ∧ Opportunity.source_portal a = Opportunity.source_portal b
   ∧ Opportunity.solicitation_number a = Opportunity.solicitation_number b)
  ∧ Opportunity.id (Opportunity.post_init b) = Opportunity.id (Opportunity.post_init a)
  ∧ _deduplicate [Opportunity.post_init a; Opportunity.post_init b]
    = [Opportunity.post_init a].
Proof.
  intros a b. split; [repeat split; reflexivity|].
  exact (proj2 (C1_identity_of_portal_and_solicitation a b eq_refl eq_refl eq_refl eq_refl)).
Defined.

(** C2, as the specification words it, fails: the two orders of the same
    two candidates give opportunities with different field values, and the
    fields of the second candidate are not merged into the first. *)
Lemma C2_order_changes_fields :
  ¬ (∀ l l' : list Opportunity.t,
       l ≡ₚ l' → ∀ opp, opp ∈ _deduplicate l ↔ opp ∈ _deduplicate l').
Proof.
  intros H.
  pose (a := Opportunity.post_init (raw_candidate "SAM.gov" "AB-100" (Some 120000%Q) None)).
  pose (b := Opportunity.post_init
               (raw_candidate "SAM.gov" "AB-100" None (Some 86400000000%Z))).
  assert (Hab : [a; b] ≡ₚ [b; a]) by apply Permutation_swap.
  destruct (H _ _ Hab a) as [Hto _].
  assert (Ha : _deduplicate [a; b] = [a]) by (vm_compute; reflexivity).
  assert (Hb : _deduplicate [b; a] = [b]) by (vm_compute; reflexivity).
  rewrite Ha, Hb in Hto.
  specialize (Hto (list_elem_of_here _ _)).
  apply list_elem_of_singleton in Hto.
  apply (f_equal Opportunity.estimated_value) in Hto. discriminate Hto.
Qed.

(** C2 (amended): deduplication is idempotent, and on any permutation of
    the list it yields the same set of identities; no fields are merged:
    each opportunity kept is the first candidate of the list that carries
    its identity, so its field values follow the order of the list. *)
Theorem C2_deduplicate_idempotent_keeps_first (l l' : list Opportunity.t) :
  l ≡ₚ l' →
  _deduplicate (_deduplicate l) = _deduplicate l
  ∧ ids (_deduplicate l) ≡ₚ ids (_deduplicate l')
  ∧ (∀ i, i ∈ ids (_deduplicate l) ↔ i ∈ ids l)
  ∧ NoDup (ids (_deduplicate l))
  ∧ (∀ opp, opp ∈ _deduplicate l →
       ∃ l1 l2, l = l1 ++ opp :: l2 ∧ (Opportunity.id opp ∉ ids l1)).
Proof.
  intros Hp. split; [apply deduplicate_idempotent|].
  split; [by apply deduplicate_perm_ids|].
  split; [apply deduplicate_ids|].
  split; [apply deduplicate_NoDup|].
  intros opp Hin. rewrite deduplicate_first_seen in Hin.
  destruct (first_seen_first_occurrence _ _ _ Hin) as (l1 & l2 & Hl & Hl1 & _).
  by exists l1, l2.
Qed.

Lemma C2_deduplicate_idempotent_keeps_first_witness :
  let a := Opportunity.post_init (raw_candidate "SAM.gov" "AB-100" (Some 120000%Q) None) in
  let b := Opportunity.post_init
             (raw_candidate "SAM.gov" "AB-100" None (Some 86400000000%Z)) in
  [a; b] ≡ₚ [b; a]
  ∧ _deduplicate (_deduplicate [a; b]) = _deduplicate [a; b]
  ∧ ids (_deduplicate [a; b]) ≡ₚ ids (_deduplicate [b; a]).
Proof.
  intros a b.
  assert (Hab : [a; b] ≡ₚ [b; a]) by apply Permutation_swap.
  split; [exact Hab|].
  pose proof (C2_deduplicate_idempotent_keeps_first [a; b] [b; a] Hab) as (H1 & H2 & _).
  exact (conj H1 H2).
Defined.

End Deduplicate.

(** ** Fan-out collection *)

Section Collect.

Import WinScopeIntelligenceNetwork.

Local Abbreviation ids l := (map Opportunity.id l).

Lemma gather_results now env i portals :
  snd (gather now env i portals) = map (task_result env) (due_tasks now i portals).
Proof.
  revert i. induction portals as [|portal rest IH]; intros i; simpl; [done|].
  specialize (IH (S i)).
  destruct (gather now env (S i) rest) as [[rest' log_rest] results].
  simpl in IH. destruct (PortalConfig.should_scrape portal now); [|done].
  unfold task_result at 1. simpl.
  destruct (run_task portal (env i)) as [[portal' log] r]. simpl.
  by rewrite IH.
Qed.

Lemma flatten_spec results acc log :
  flatten results acc log
  = (acc ++ concat (batches results),
     log ++ map (λ e, ("Scraping error: " ++ str e)%string) (failures results)).
Proof.
  revert acc log. induction results as [|[l|e|] rest IH]; intros acc log; simpl.
  - by rewrite !app_nil_r.
  - rewrite IH. by rewrite <- app_assoc.
  - rewrite IH. by rewrite <- app_assoc.
  - by rewrite IH.
Qed.

Lemma elem_of_batches results batch :
  batch ∈ batches results ↔ Returned batch ∈ results.
Proof.
  induction results as [|[l|e|] rest IH]; simpl.
  - by rewrite !elem_of_nil.
  - rewrite !elem_of_cons, IH. split; intros [H|H]; auto; left; congruence.
  - rewrite elem_of_cons, IH. split; [auto|]. by intros [H|H].
  - rewrite elem_of_cons, IH. split; [auto|]. by intros [H|H].
Qed.

Lemma batches_failures_length results :
  (length (batches results) + length (failures results) + cancellations results
   = length results)%nat.
Proof. induction results as [|[l|e|] rest IH]; simpl; lia. Qed.

Lemma due_tasks_length now i portals :
  length (due_tasks now i portals)
  = length (List.filter (λ portal, PortalConfig.should_scrape portal now) portals).
Proof.
  revert i. induction portals as [|portal rest IH]; intros i; simpl; [done|].
  destruct (PortalConfig.should_scrape portal now); simpl; by rewrite IH.
Qed.

(** The four ways in which a task can end. *)
Lemma run_task_cases (portal : PortalConfig.t) (ext : external) :
  (cancelled ext = true → run_task portal ext = (portal, [], CancelledError))
  ∧ (raised_by_task portal ext = true →
       ∃ e, run_task portal ext = (portal, [], RaisedException e))
  ∧ (caught_by_scraper portal ext = true →
       ∃ line, run_task portal ext
               = (if recorded_failure portal ext
                  then PortalConfig.set_scraped portal (finished_at ext) 0
                  else portal,
                  [line], Returned []))
  ∧ (fetch_failed portal ext = false → ∃ batch, (run_task portal ext).2 = Returned batch).
Proof.
  unfold fetch_failed, recorded_failure, raised_by_task, caught_by_scraper, is_sam,
    is_california.
  unfold run_task, scrape_portal, CaliforniaEProcureScraper.scrape, SAMGovScraper.scrape,
    PortalScraper.scrape, OpportunityScorer.falsy.
  destruct (cancelled ext); simpl.
  { repeat split; intros; simplify_eq; done. }
  split; [done|].
  destruct (decide (PortalConfig.name portal = "California eProcure"%string)) as [Hca|Hca].
  - rewrite (bool_decide_eq_true_2 _ Hca). simpl.
    destruct (browser ext) as [e|e|opps]; simpl; rewrite ?andb_false_r; simpl;
      repeat split; intros; simplify_eq; eauto.
  - rewrite (bool_decide_eq_false_2 _ Hca). simpl.
    destruct (decide (PortalConfig.name portal = "SAM.gov"%string)) as [Hs|Hs].
    + rewrite (bool_decide_eq_true_2 _ Hs). simpl.
      destruct (PortalConfig.api_key portal) as [[|a k]|]; simpl;
        [repeat split; intros; simplify_eq; eauto | | repeat split; intros; simplify_eq; eauto].
      destruct (api ext) as [e|status parsed]; simpl.
      * repeat split; intros; simplify_eq; eauto.
      * destruct (status =? 200)%Z; simpl.
        -- destruct (SAMGovScraper.collect parsed) as [opps log].
           repeat split; intros; simplify_eq; eauto.
        -- repeat split; intros; simplify_eq; eauto.
    + rewrite (bool_decide_eq_false_2 _ Hs). simpl.
      repeat split; intros; simplify_eq; eauto.
Qed.

(** A failed fetch ends in exactly one of three ways. *)
Lemma fetch_failed_split (portal : PortalConfig.t) (ext : external) :
  ((if fetch_failed portal ext then 1 else 0)
   = (if raised_by_task portal ext then 1 else 0)
     + (if caught_by_scraper portal ext then 1 else 0)
     + (if cancelled ext then 1 else 0))%nat.
Proof.
  unfold fetch_failed, raised_by_task, caught_by_scraper, is_sam.
  destruct (cancelled ext), (is_california portal),
    (bool_decide (PortalConfig.name portal = "SAM.gov"%string)),
    (OpportunityScorer.falsy (PortalConfig.api_key portal));
    simpl; try done;
    destruct (browser ext); simpl; try done;
    destruct (api ext) as [|status ?]; simpl; try done;
    destruct (status =? 200)%Z; done.
Qed.

Lemma count_tasks_sum (p : PortalConfig.t → external → bool) env tasks :
  count_tasks p env tasks
  = list_sum (map (λ task, if p task.2 (env task.1) then 1 else 0)%nat tasks).
Proof.
  unfold count_tasks. induction tasks as [|task rest IH]; simpl; [done|].
  destruct (p task.2 (env task.1)); simpl; by rewrite IH.
Qed.

Lemma failures_count env tasks :
  length (failures (map (task_result env) tasks)) = count_tasks raised_by_task env tasks
  ∧ cancellations (map (task_result env) tasks)
    = count_tasks (λ _ ext, cancelled ext) env tasks.
Proof.
  rewrite !count_tasks_sum.
  induction tasks as [|[i portal] rest [IH1 IH2]]; simpl; [done|].
  change (task_result env (i, portal)) with (run_task portal (env i)).2.
  rewrite <- IH1, <- IH2.
  destruct (run_task_cases portal (env i)) as (Hc & Hr & Hk & Hok).
  destruct (cancelled (env i)) eqn:Ec.
  { rewrite (Hc eq_refl). simpl.
    assert (raised_by_task portal (env i) = false) as ->
      by (unfold raised_by_task; by rewrite Ec).
    done. }
  destruct (raised_by_task portal (env i)) eqn:Er.
  { by destruct (Hr eq_refl) as [e ->]. }
  destruct (caught_by_scraper portal (env i)) eqn:Ek.
  { by destruct (Hk eq_refl) as [line ->]. }
  assert (Hf : fetch_failed portal (env i) = false).
  { unfold fetch_failed. by rewrite Ec, Er, Ek. }
  by destruct (Hok Hf) as [batch ->].
Qed.

Lemma fetch_failed_count env tasks :
  (count_tasks fetch_failed env tasks
   = count_tasks raised_by_task env tasks + count_tasks caught_by_scraper env tasks
     + count_tasks (λ _ ext, cancelled ext) env tasks)%nat.
Proof.
  rewrite !count_tasks_sum.
  induction tasks as [|task rest IH]; simpl; [done|].
  rewrite IH. pose proof (fetch_failed_split task.2 (env task.1)). lia.
Qed.

(** C3: the collection step isolates the sources.  What a cycle returns is
    the deduplicated concatenation of the batches of the due sources whose
    task returned, so that a candidate of such a batch is always
    represented and no failure takes away the results of another source;
    a source whose fetch did not fail returns its batch.  The collection
    step reports one error, with the text of the exception, for each task
    that raised an [Exception], and for no other: a source whose scraper
    handled the failure comes back with an empty batch and one line logged
    by the scraper, and a cancelled task is passed over without a line.  So
    the [N] failed sources are the errors reported, the failures handled
    by the scrapers and the cancelled tasks together. *)
Theorem C3_collection_isolates_sources (self : t) (now : datetime)
    (env : nat → external) :
  let c := scrape_all_portals self now env in
  let tasks := due_tasks now 0 (portals self) in
  let results := map (task_result env) tasks in
  let M := length (List.filter (λ portal, PortalConfig.should_scrape portal now)
                     (portals self)) in
  let N := count_tasks fetch_failed env tasks in
  length tasks = M
  ∧ returned c = _deduplicate (concat (batches results))
  ∧ (∀ task batch opp, task ∈ tasks → task_result env task = Returned batch →
       opp ∈ batch → Opportunity.id opp ∈ ids (returned c))
  ∧ (∀ task, task ∈ tasks →
       (fetch_failed task.2 (env task.1) = false →
          ∃ batch, task_result env task = Returned batch)
       ∧ (caught_by_scraper task.2 (env task.1) = true →
          task_result env task = Returned []
          ∧ length (run_task task.2 (env task.1)).1.2 = 1%nat)
       ∧ (raised_by_task task.2 (env task.1) = true →
          ∃ e, task_result env task = RaisedException e)
       ∧ (cancelled (env task.1) = true → task_result env task = CancelledError))
  ∧ error_log c = map (λ e, ("Scraping error: " ++ str e)%string) (failures results)
  ∧ length (error_log c) = count_tasks raised_by_task env tasks
  ∧ N = (length (error_log c) + count_tasks caught_by_scraper env tasks
         + count_tasks (λ _ ext, cancelled ext) env tasks)%nat
  ∧ (length (batches results) + N = M + count_tasks caught_by_scraper env tasks)%nat.
Proof.
  intros c tasks results M N.
  assert (HM : length tasks = M) by apply due_tasks_length.
  assert (Hc : returned c = _deduplicate (concat (batches results))
               ∧ error_log c
                 = map (λ e, ("Scraping error: " ++ str e)%string) (failures results)).
  { subst c. unfold scrape_all_portals.
    pose proof (gather_results now env 0 (portals self)) as Hg.
    destruct (gather now env 0 (portals self)) as [[portals' log] rs].
    simpl in Hg. subst rs. fold tasks. fold results.
    rewrite flatten_spec. simpl. done. }
  destruct Hc as [Hret Herr].
  destruct (failures_count env tasks) as [Hfail Hcanc]. fold results in Hfail, Hcanc.
  assert (Hlen : length (error_log c) = count_tasks raised_by_task env tasks).
  { by rewrite Herr, length_map. }
  split; [exact HM|]. split; [exact Hret|]. split.
  { intros task batch opp Ht Hb Ho. rewrite Hret, deduplicate_ids.
    assert (Hin : batch ∈ batches results).
    { apply elem_of_batches. rewrite <- Hb. subst results.
      by apply list_elem_of_fmap_2. }
    apply list_elem_of_fmap. exists opp. split; [done|].
    apply list_elem_of_In, in_concat. exists batch.
    by rewrite <- !list_elem_of_In. }
  split.
  { intros [i portal] _. unfold task_result. simpl.
    destruct (run_task_cases portal (env i)) as (Hcan & Hr & Hk & Hok).
    split; [exact Hok|]. split; [|split].
    - intros H. by destruct (Hk H) as [line ->].
    - intros H. destruct (Hr H) as [e ->]. by exists e.
    - intros H. by rewrite (Hcan H). }
  split; [exact Herr|]. split; [exact Hlen|]. split.
  { subst N. rewrite Hlen. apply fetch_failed_count. }
  pose proof (batches_failures_length results) as Hb.
  pose proof (fetch_failed_count env tasks) as Hn. fold N in Hn.
  unfold results in Hb at 4. rewrite length_map, HM in Hb. lia.
Qed.

(** Three sources are due and the fetch of each fails: the page of
    California eProcure and the request to SAM.gov time out, and the third
    portal has no scraper.  Nothing is returned and one error is reported. *)
Example three_failures_one_error :
  let timeouts := λ _ : nat, timed_out 3600000000 in
  let c := scrape_all_portals three_portals 0 timeouts in
  length (due_tasks 0 0 (portals three_portals)) = 3%nat
  ∧ count_tasks fetch_failed timeouts (due_tasks 0 0 (portals three_portals)) = 3%nat
  ∧ returned c = []
  ∧ error_log c = ["Scraping error: "%string]
  ∧ scraper_log c
    = ["Error scraping California eProcure: Timeout 30000ms exceeded.";
       "Error scraping SAM.gov: Timeout 30000ms exceeded."]%string.
Proof. vm_compute. repeat split; reflexivity. Qed.

(** Two sources are due; the task of the first is cancelled and the second
    answers.  The batch of the second is returned and no line is logged. *)
Example cancelled_task_leaves_no_line :
  let c := scrape_all_portals two_portals 0 one_cancelled_env in
  length (due_tasks 0 0 (portals two_portals)) = 2%nat
  ∧ count_tasks fetch_failed one_cancelled_env (due_tasks 0 0 (portals two_portals))
    = 1%nat
  ∧ returned c = [sam_opp]
  ∧ error_log c = [] ∧ scraper_log c = [].
Proof. vm_compute. repeat split; reflexivity. Qed.

(** C3, as the specification words it, fails: the errors that the
    collection step reports are not one for each failed source (three
    sources fail and one error is reported), and neither are the lines
    logged during the cycle, by the collection step and by the scrapers
    together (a task is cancelled and nothing is logged). *)
Lemma C3_failed_sources_without_error :
  ¬ (∀ (self : t) (now : datetime) (env : nat → external),
       length (error_log (scrape_all_portals self now env))
       = count_tasks fetch_failed env (due_tasks now 0 (portals self)))
  ∧ ¬ (∀ (self : t) (now : datetime) (env : nat → external),
         length (error_log (scrape_all_portals self now env)
                 ++ scraper_log (scrape_all_portals self now env))
         = count_tasks fetch_failed env (due_tasks now 0 (portals self))).
Proof.
  split; intros H.
  - specialize (H three_portals 0%Z (λ _, timed_out 3600000000)).
    vm_compute in H. discriminate H.
  - specialize (H two_portals 0%Z one_cancelled_env).
    vm_compute in H. discriminate H.
Qed.

Example one_of_three_fails :
  let c := scrape_all_portals three_portals 0 one_failure_env in
  returned c = [ca_opp; sam_opp]
  ∧ error_log c = ["Scraping error: "%string]
  ∧ scraper_log c
    = ["Error parsing SAM opportunity: Invalid isoformat string: ''"%string]
  ∧ PortalConfig.last_scrape <$> portals (self_after c)
    = [Some 3600000000%Z; None; Some 3600000000%Z].
Proof. vm_compute. repeat split; reflexivity. Qed.

End Collect.

(** ** Comparisons and extrema on [Q] *)

Lemma Qltb_lt (x y : Q) : Qltb x y = true ↔ (x < y)%Q.
Proof.
  unfold Qltb. rewrite negb_true_iff. split.
  - intros H. apply Qnot_le_lt. intros Hle. apply Qle_bool_iff in Hle. congruence.
  - intros H. destruct (Qle_bool y x) eqn:E; [|done].
    apply Qle_bool_iff in E. by apply Qlt_not_le in H.
Qed.

Lemma Qltb_ge (x y : Q) : Qltb x y = false ↔ (y <= x)%Q.
Proof.
  unfold Qltb. rewrite negb_false_iff. apply Qle_bool_iff.
Qed.

Lemma Qle_bool_gt (x y : Q) : Qle_bool x y = false ↔ (y < x)%Q.
Proof.
  rewrite <- Qltb_lt. unfold Qltb. by rewrite negb_true_iff.
Qed.

Lemma py_max_Qmax (a b : Q) : (py_max a b == Qmax a b)%Q.
Proof.
  unfold py_max. destruct (Q.max_spec a b) as [[Hlt ->]|[Hle ->]].
  - apply Qltb_lt in Hlt. by rewrite Hlt.
  - apply Qltb_ge in Hle. by rewrite Hle.
Qed.

Lemma py_div_nonzero (x y : Q) : ¬ (y == 0)%Q → py_div x y = Ok (x / y)%Q.
Proof.
  intros Hy. unfold py_div. destruct (Qeq_bool y 0) eqn:E; [|done].
  by apply Qeq_bool_eq in E.
Qed.

(** ** Scoring factors *)

Section Scoring.

Import OpportunityScorer.

(** C7: with target range [lo, hi], [0 < lo <= hi], the value-fit factor
    is 1 inside the range, [max(0.3, value/lo)] below it,
    [max(0.2, hi/value)] above it, and 0.5 when the value is unknown. *)
Theorem C7_value_fit (self : OpportunityScorer.t) (lo hi : Q) :
  sweet_spot_value (self_profile self) = (lo, hi) →
  (0 < lo)%Q → (lo <= hi)%Q →
  _score_contract_value self None = Ok 0.5%Q
  ∧ ∀ value : Q,
      ((lo <= value)%Q ∧ (value <= hi)%Q →
         _score_contract_value self (Some value) = Ok 1%Q)
      ∧ ((value < lo)%Q →
           ∃ r, _score_contract_value self (Some value) = Ok r
                ∧ (r == Qmax 0.3 (value / lo))%Q)
      ∧ ((hi < value)%Q →
           ∃ r, _score_contract_value self (Some value) = Ok r
                ∧ (r == Qmax 0.2 (hi / value))%Q).
Proof.
  intros Hrange Hlo Hlohi. split; [done|].
  intros value. unfold _score_contract_value. rewrite Hrange.
  split; [|split].
  - intros [H1 H2]. apply Qle_bool_iff in H1, H2. by rewrite H1, H2.
  - intros Hlt.
    assert (E1 : Qle_bool lo value = false) by by apply Qle_bool_gt.
    assert (E2 : Qltb value lo = true) by by apply Qltb_lt.
    rewrite E1, E2. simpl.
    rewrite py_div_nonzero.
    + eexists. split; [reflexivity|]. apply py_max_Qmax.
    + intros H0. rewrite H0 in Hlo. by apply Qlt_irrefl in Hlo.
  - intros Hgt.
    assert (E1 : Qle_bool value hi = false) by by apply Qle_bool_gt.
    assert (E2 : Qltb value lo = false).
    { apply Qltb_ge. apply Qlt_le_weak. by apply Qle_lt_trans with hi. }
    rewrite E1, E2, andb_false_r. simpl.
    rewrite py_div_nonzero.
    + eexists. split; [reflexivity|]. apply py_max_Qmax.
    + intros H0. rewrite H0 in Hgt.
      apply (Qlt_irrefl 0). apply Qlt_trans with lo; [done|].
      by apply Qle_lt_trans with hi.
Qed.

Lemma C7_value_fit_witness :
  (sweet_spot_value (self_profile offline_scorer) = (50000%Q, 500000%Q)
   ∧ (0 < 50000)%Q ∧ (50000 <= 500000)%Q)
  ∧ _score_contract_value offline_scorer None = Ok 0.5%Q
  ∧ _score_contract_value offline_scorer (Some 120000%Q) = Ok 1%Q.
Proof.
  assert (H1 : (0 < 50000)%Q) by reflexivity.
  assert (H2 : (50000 <= 500000)%Q) by (unfold Qle; simpl; lia).
  split; [split; [reflexivity | split; [exact H1 | exact H2]]|].
  destruct (C7_value_fit offline_scorer 50000 500000 eq_refl H1 H2) as [Hnone Hval].
  split; [exact Hnone|].
  apply (proj1 (Hval 120000%Q)).
  split; unfold Qle; simpl; lia.
Defined.

Example value_fit_below :
  _score_contract_value offline_scorer (Some 25000%Q) = Ok (25000 / 50000)%Q.
Proof. reflexivity. Qed.

Example value_fit_far_below :
  _score_contract_value offline_scorer (Some 5000%Q) = Ok 0.3%Q.
Proof. reflexivity. Qed.

Example value_fit_above :
  _score_contract_value offline_scorer (Some 1000000%Q) = Ok (500000 / 1000000)%Q.
Proof. reflexivity. Qed.

Example value_fit_far_above :
  _score_contract_value offline_scorer (Some 5000000%Q) = Ok 0.2%Q.
Proof. reflexivity. Qed.

Lemma clamp_finite (q : Q) :
  ∃ r, float_max (Finite 0) (float_min (Finite 1) (Finite q)) = Finite r
       ∧ (r == Qmax 0 (Qmin 1 q))%Q.
Proof.
  unfold float_min, float_max, float_lt.
  destruct (Qltb q 1) eqn:E1.
  - apply Qltb_lt in E1.
    assert (Hmin : (Qmin 1 q == q)%Q) by (apply Q.min_r; by apply Qlt_le_weak).
    destruct (Qltb 0 q) eqn:E0; eexists; (split; [reflexivity|]); rewrite Hmin.
    + apply Qltb_lt in E0. symmetry. apply Q.max_r. by apply Qlt_le_weak.
    + apply Qltb_ge in E0. symmetry. by apply Q.max_l.
  - apply Qltb_ge in E1.
    assert (Hmin : (Qmin 1 q == 1)%Q) by by apply Q.min_l.
    exists 1%Q. split; [reflexivity|]. rewrite Hmin. symmetry. by apply Q.max_r.
Qed.

Lemma clamp_range (x : pyfloat) :
  ∃ r, float_max (Finite 0) (float_min (Finite 1) x) = Finite r
       ∧ (0 <= r)%Q ∧ (r <= 1)%Q.
Proof.
  destruct x as [q| | |].
  - destruct (clamp_finite q) as (r & Hr & Heq). exists r. split; [done|].
    rewrite Heq. split; [apply Q.le_max_l|].
    apply Q.max_lub; [done | apply Q.le_min_l].
  - exists 1%Q. by repeat split.
  - exists 0%Q. by repeat split.
  - exists 1%Q. by repeat split.
Qed.

(** C6: whatever the judgment service does, the semantic factor is a number
    of [0,1] and no exception leaves [_score_keywords]: a failed call gives
    the neutral 0.5 (as does an empty or unreadable answer), and a number
    read from the answer is clamped into [0,1]. *)
Theorem C6_semantic_factor_total (self : OpportunityScorer.t) (title description : string) :
  let call := client_messages_create self (prompt self (combined_text title description)) in
  (∀ e, call = Raised e →
     _score_keywords self title description = Ok (Finite 0.5%Q))
  ∧ (∀ content text e, call = Ok content →
       first_block content = Raised e ∨
       (first_block content = Ok text ∧ float_of_text self (strip text) = Raised e) →
       _score_keywords self title description = Ok (Finite 0.5%Q))
  ∧ (∀ content text q, call = Ok content → first_block content = Ok text →
       float_of_text self (strip text) = Ok (Finite q) →
       ∃ r, _score_keywords self title description = Ok (Finite r)
            ∧ (r == Qmax 0 (Qmin 1 q))%Q)
  ∧ (∃ r, _score_keywords self title description = Ok (Finite r)
          ∧ (0 <= r)%Q ∧ (r <= 1)%Q).
Proof.
  intros call. unfold _score_keywords. fold call.
  split; [|split; [|split]].
  - intros e ->. reflexivity.
  - intros content text e -> [Hb|[Hb Hf]]; simpl.
    + unfold mbind, result_bind. by rewrite Hb.
    + unfold mbind, result_bind. by rewrite Hb, Hf.
  - intros content text q -> Hb Hf. simpl.
    unfold mbind, result_bind. rewrite Hb, Hf. simpl.
    destruct (clamp_finite q) as (r & Hr & Heq). exists r. by rewrite Hr.
  - assert (Hhalf : ∃ r, Ok (Finite 0.5%Q) = Ok (Finite r) ∧ (0 <= r)%Q ∧ (r <= 1)%Q).
    { exists 0.5%Q. by repeat split. }
    destruct call as [content|e]; simpl; [|exact Hhalf].
    unfold mbind, result_bind.
    destruct (first_block content) as [text|e]; simpl; [|exact Hhalf].
    destruct (float_of_text self (strip text)) as [x|e]; simpl; [|exact Hhalf].
    destruct (clamp_range x) as (r & Hr & Hrange). exists r. by rewrite Hr.
Qed.

Example semantic_factor_offline :
  _score_keywords offline_scorer "Robot cell" "FANUC integration" = Ok (Finite 0.5%Q).
Proof. reflexivity. Qed.

End Scoring.

(** ** Pricing-accuracy ledger *)

Section Learning.

Import LearningEngine.

(** C10: recording a pricing observation never divides by zero and never
    fails; the stored error percentage is 0 when the actual price is not
    positive and [|estimated - actual| / actual * 100] when it is. *)
Theorem C10_record_pricing_accuracy_total (self : LearningEngine.t)
    (description : string) (estimated actual : Q) (source : string) (now : datetime) :
  ∃ e, record_pricing_accuracy self description estimated actual source now
       = Ok (mk (pricing_accuracy self ++
                   [mk_pricing_row (last_rowid self + 1) description estimated actual
                      e source now])
                (last_rowid self + 1))
       ∧ ((actual <= 0)%Q → e = 0%Q)
       ∧ ((0 < actual)%Q → e = (Qabs (estimated - actual) / actual * 100)%Q).
Proof.
  unfold record_pricing_accuracy, error_pct.
  destruct (Qltb 0 actual) eqn:E.
  - apply Qltb_lt in E.
    rewrite py_div_nonzero.
    + eexists. split; [reflexivity|]. split; [|done].
      intros Hle. by apply Qle_not_lt in Hle.
    + intros H0. rewrite H0 in E. by apply Qlt_irrefl in E.
  - apply Qltb_ge in E. exists 0%Q. split; [reflexivity|]. split; [done|].
    intros Hlt. by apply Qle_not_lt in E.
Qed.

Example pricing_zero_actual :
  record_pricing_accuracy (mk [] 0) "conveyor belt" 1200 0 "distributor" 0%Z
  = Ok (mk [mk_pricing_row 1 "conveyor belt" 1200 0 0 "distributor" 0%Z] 1).
Proof. reflexivity. Qed.

Example pricing_ten_percent :
  error_pct 1100 1000 = Ok (Qabs (1100 - 1000) / 1000 * 100)%Q
  ∧ (Qabs (1100 - 1000) / 1000 * 100 == 10)%Q.
Proof. split; reflexivity. Qed.

End Learning.

(** ** Sorting, ranking and the threshold query *)

Section Ranking.

Context {A : Type} (key : A → Q).

Lemma insert_desc_perm (x : A) (l : list A) : insert_desc key x l ≡ₚ x :: l.
Proof.
  induction l as [|y ys IH]; simpl; [done|].
  destruct (Qltb (key x) (key y)); [|done].
  rewrite IH. apply Permutation_swap.
Qed.

Lemma sort_reverse_perm (l : list A) : sort_reverse key l ≡ₚ l.
Proof.
  induction l as [|x xs IH]; simpl; [done|].
  by rewrite insert_desc_perm, IH.
Qed.

Lemma insert_desc_sorted (x : A) (l : list A) :
  StronglySorted (λ a b, (key b <= key a)%Q) l →
  StronglySorted (λ a b, (key b <= key a)%Q) (insert_desc key x l).
Proof.
  induction 1 as [|y ys Hs IH Hy]; simpl.
  - repeat constructor.
  - destruct (Qltb (key x) (key y)) eqn:E.
    + constructor; [exact IH|].
      rewrite insert_desc_perm. constructor; [|exact Hy].
      apply Qlt_le_weak. by apply Qltb_lt.
    + apply Qltb_ge in E. constructor; [by constructor|].
      constructor; [exact E|].
      eapply Forall_impl; [exact Hy|]. intros z Hz. simpl in Hz.
      by apply Qle_trans with (key y).
Qed.

Lemma sort_reverse_sorted (l : list A) :
  StronglySorted (λ a b, (key b <= key a)%Q) (sort_reverse key l).
Proof.
  induction l as [|x xs IH]; simpl; [constructor|].
  by apply insert_desc_sorted.
Qed.

Lemma insert_desc_stable (s : Q) (x : A) (l : list A) :
  List.filter (λ a, Qeq_bool (key a) s) (insert_desc key x l)
  = List.filter (λ a, Qeq_bool (key a) s) (x :: l).
Proof.
  induction l as [|y ys IH]; [done|].
  cbn [insert_desc]. destruct (Qltb (key x) (key y)) eqn:E; [|done].
  cbn [List.filter] in *. rewrite IH.
  destruct (Qeq_bool (key y) s) eqn:Ey; [|done].
  destruct (Qeq_bool (key x) s) eqn:Ex; [|done].
  apply Qeq_bool_eq in Ex, Ey. apply Qltb_lt in E.
  rewrite Ex, Ey in E. by apply Qlt_irrefl in E.
Qed.

Lemma sort_reverse_stable (s : Q) (l : list A) :
  List.filter (λ a, Qeq_bool (key a) s) (sort_reverse key l)
  = List.filter (λ a, Qeq_bool (key a) s) l.
Proof.
  induction l as [|x xs IH]; [done|].
  cbn [sort_reverse]. rewrite insert_desc_stable.
  cbn [List.filter]. by rewrite IH.
Qed.

Lemma slice_to_all (limit : Z) (l : list A) :
  (Z.of_nat (length l) <= limit)%Z → slice_to limit l = l.
Proof.
  intros H. unfold slice_to.
  assert (E : (0 <=? limit)%Z = true) by (apply Z.leb_le; lia).
  rewrite E. apply firstn_all2. lia.
Qed.

Lemma elem_of_slice_to (limit : Z) (l : list A) (x : A) : x ∈ slice_to limit l → x ∈ l.
Proof.
  unfold slice_to.
  destruct (0 <=? limit)%Z; rewrite elem_of_take; intros (i & Hi & _);
    by apply list_elem_of_lookup_2 with i.
Qed.

End Ranking.

Section Threshold.

Import WinScopeIntelligenceNetwork WinScopeMasterOrchestrator.

Local Abbreviation score opp := (Opportunity.match_score opp).

Lemma elem_of_get_top (self : WinScopeIntelligenceNetwork.t) limit min_score opp :
  opp ∈ get_top_opportunities self limit min_score →
  opp ∈ opportunities self ∧ (min_score <= score opp)%Q.
Proof.
  unfold get_top_opportunities. intros H.
  apply elem_of_slice_to in H. rewrite sort_reverse_perm in H.
  apply list_elem_of_In, filter_In in H as [Hin Hs].
  split; [by apply list_elem_of_In | by apply Qle_bool_iff].
Qed.

Lemma get_top_complete (self : WinScopeIntelligenceNetwork.t) limit min_score opp :
  opp ∈ opportunities self → (min_score <= score opp)%Q →
  (Z.of_nat (length (List.filter (λ o, Qle_bool min_score (score o))
                       (opportunities self))) <= limit)%Z →
  opp ∈ get_top_opportunities self limit min_score.
Proof.
  intros Hin Hs Hlen. unfold get_top_opportunities.
  rewrite slice_to_all.
  - rewrite sort_reverse_perm. apply list_elem_of_In, filter_In.
    split; [by apply list_elem_of_In | by apply Qle_bool_iff].
  - by rewrite sort_reverse_perm.
Qed.

(** C5, as the specification words it, fails for the query: with ten
    better opportunities in the store, the one scoring exactly 50.0 is cut
    off by the default limit. *)
Lemma C5_boundary_cut_by_limit :
  ¬ (∀ (self : WinScopeIntelligenceNetwork.t) (opp : Opportunity.t),
       opp ∈ opportunities self → (score opp == 50)%Q →
       opp ∈ get_top_opportunities self default_limit default_min_score).
Proof.
  intros H.
  assert (Hin : boundary_opp ∈ opportunities crowded_store) by apply list_elem_of_here.
  specialize (H crowded_store boundary_opp Hin (Qeq_refl _)).
  assert (Hall : forallb (λ o, Qle_bool 60 (score o))
                   (get_top_opportunities crowded_store default_limit default_min_score)
                 = true) by (vm_compute; reflexivity).
  rewrite forallb_forall in Hall.
  apply list_elem_of_In in H. specialize (Hall _ H). discriminate Hall.
Qed.

(** C5 (amended): with the default configuration an opportunity is qualified
    exactly when its score is at least 50, so one scoring exactly 50.0 is
    qualified and one scoring less is not.  The threshold query never returns
    an opportunity below its threshold and returns every stored opportunity
    at or above it when at most [limit] of them meet the threshold; an
    opportunity below 50 stays in the store and is returned by a query
    whose threshold it meets, under the same condition on [limit]. *)
Theorem C5_qualification_threshold (orch : WinScopeMasterOrchestrator.t)
    (net : WinScopeIntelligenceNetwork.t) (opps : list Opportunity.t)
    (opp : Opportunity.t) (limit : Z) :
  self_config orch = config → opp ∈ opps → opp ∈ opportunities net →
  (opp ∈ _qualify_opportunities orch opps ↔ (50 <= score opp)%Q)
  ∧ ((score opp == 50)%Q → opp ∈ _qualify_opportunities orch opps)
  ∧ ((score opp < 50)%Q →
       (opp ∉ _qualify_opportunities orch opps)
       ∧ (opp ∉ get_top_opportunities net limit default_min_score))
  ∧ (∀ min_score : Q,
       (min_score <= score opp)%Q →
       (Z.of_nat (length (List.filter (λ o, Qle_bool min_score (score o))
                            (opportunities net))) <= limit)%Z →
       opp ∈ get_top_opportunities net limit min_score).
Proof.
  intros Hcfg Hopps Hnet.
  assert (Hq : opp ∈ _qualify_opportunities orch opps ↔ (50 <= score opp)%Q).
  { unfold _qualify_opportunities. rewrite Hcfg. simpl.
    rewrite list_elem_of_In, filter_In, <- list_elem_of_In, Qle_bool_iff. tauto. }
  split; [exact Hq|]. split; [|split].
  - intros Heq. apply Hq. rewrite Heq. apply Qle_refl.
  - intros Hlt. split.
    + rewrite Hq. by apply Qlt_not_le.
    + intros Hin. apply elem_of_get_top in Hin as [_ Hs].
      by apply Qlt_not_le in Hlt.
  - intros min_score Hs Hlen. by apply get_top_complete.
Qed.

Lemma C5_qualification_threshold_witness :
  let orch := WinScopeMasterOrchestrator.mk config ∅ ∅ in
  let net := WinScopeIntelligenceNetwork.mk [] [boundary_opp] in
  (self_config orch = config ∧ boundary_opp ∈ [boundary_opp]
   ∧ boundary_opp ∈ opportunities net)
  ∧ boundary_opp ∈ _qualify_opportunities orch [boundary_opp]
  ∧ boundary_opp ∈ get_top_opportunities net default_limit default_min_score.
Proof.
  intros orch net.
  assert (Hin : boundary_opp ∈ [boundary_opp]) by apply list_elem_of_here.
  split; [split; [reflexivity | split; exact Hin]|].
  destruct (C5_qualification_threshold orch net [boundary_opp] boundary_opp default_limit
              eq_refl Hin Hin) as (_ & Hexact & _ & Hquery).
  split.
  - apply Hexact. reflexivity.
  - apply Hquery.
    + apply Qle_bool_iff. vm_compute. reflexivity.
    + apply Z.leb_le. vm_compute. reflexivity.
Defined.

(** A cycle stores every opportunity it has scored, whatever the score. *)
Lemma run_cycle_stores_all (self : WinScopeIntelligenceNetwork.t)
    (score_opportunity : nat → Opportunity.t → Q) (now : datetime)
    (env : nat → external) (opp : Opportunity.t) :
  opp ∈ score_opportunities score_opportunity
          (returned (scrape_all_portals self now env)) →
  opp ∈ opportunities (run_cycle self score_opportunity now env).
Proof.
  unfold run_cycle.
  destruct (returned (scrape_all_portals self now env)) as [|o rest] eqn:E.
  - intros H. by apply elem_of_nil in H.
  - intros H. simpl. apply elem_of_app. by right.
Qed.

(** C9, as the specification words it, fails: of two opportunities with
    equal scores the one posted later stays first when it came first. *)
Lemma C9_ties_keep_input_order :
  ¬ (∀ (score_opportunity : nat → Opportunity.t → Q) (l : list Opportunity.t),
       ranked_with_tie_break (score_opportunities score_opportunity l)).
Proof.
  intros H.
  pose (late := scored_candidate "SAM.gov" "AB-200" 172800000000 0).
  pose (early := scored_candidate "California eProcure" "AB-100" 86400000000 0).
  assert (Hlt : (0 < 1)%nat) by lia.
  specialize (H (λ _ _, 70%Q) [late; early] 0%nat 1%nat
                (score_one (λ _, 70%Q) late) (score_one (λ _, 70%Q) early) Hlt).
  assert (H0 : score_opportunities (λ _ _, 70%Q) [late; early] !! 0%nat
               = Some (score_one (λ _, 70%Q) late)) by (vm_compute; reflexivity).
  assert (H1 : score_opportunities (λ _ _, 70%Q) [late; early] !! 1%nat
               = Some (score_one (λ _, 70%Q) early)) by (vm_compute; reflexivity).
  destruct (H H0 H1) as [Hs|[_ [Hp|[Hp _]]]].
  - vm_compute in Hs. discriminate Hs.
  - vm_compute in Hp. discriminate Hp.
  - vm_compute in Hp. discriminate Hp.
Qed.

(** C9 (amended): the ranking is a permutation of the scored opportunities
    in which scores never increase, and opportunities with equal scores keep
    the order they had in the input; no posting date or source name is
    consulted. *)
Theorem C9_ranking_descending_stable (score_opportunity : nat → Opportunity.t → Q)
    (l : list Opportunity.t) :
  let scored := imap (λ i, score_one (score_opportunity i)) l in
  let ranked := score_opportunities score_opportunity l in
  ranked ≡ₚ scored
  ∧ descending ranked
  ∧ (∀ s : Q, with_score s ranked = with_score s scored)
  ∧ (∀ i opp, l !! i = Some opp →
       ∃ opp', scored !! i = Some opp'
               ∧ score opp' = score_opportunity i opp
               ∧ Opportunity.id opp' = Opportunity.id opp
               ∧ Opportunity.posted_date opp' = Opportunity.posted_date opp
               ∧ Opportunity.source_portal opp' = Opportunity.source_portal opp).
Proof.
  intros scored ranked. subst ranked. unfold score_opportunities. fold scored.
  split; [apply sort_reverse_perm|].
  split; [apply sort_reverse_sorted|].
  split; [intros s; apply sort_reverse_stable|].
  intros i opp Hi. exists (score_one (score_opportunity i) opp).
  split; [|done]. subst scored. by rewrite list_lookup_imap, Hi.
Qed.

End Threshold.

(** ** Adaptive scheduling *)

Section Scheduling.

Import PortalConfig WinScopeIntelligenceNetwork.

Local Abbreviation base c := (inject_Z (scrape_frequency_hours c)).

(** The interval: halved above 5 per scrape, doubled below 1, else the base
    interval. *)
Lemma frequency_cases (c : PortalConfig.t) :
  ((5 < avg_opportunities_per_scrape c)%Q → frequency c = (base c * 0.5)%Q)
  ∧ ((avg_opportunities_per_scrape c < 1)%Q → frequency c = (base c * 2)%Q)
  ∧ ((1 <= avg_opportunities_per_scrape c)%Q ∧ (avg_opportunities_per_scrape c <= 5)%Q →
       frequency c = base c).
Proof.
  unfold frequency. split; [|split].
  - intros H. apply Qltb_lt in H. by rewrite H.
  - intros H.
    assert (E5 : Qltb 5 (avg_opportunities_per_scrape c) = false).
    { apply Qltb_ge. lra. }
    apply Qltb_lt in H. by rewrite E5, H.
  - intros [H1 H5]. apply Qltb_ge in H1, H5. by rewrite H5, H1.
Qed.

Lemma frequency_shorter_only_if_productive (c : PortalConfig.t) :
  (0 <= scrape_frequency_hours c)%Z →
  (frequency c < base c)%Q → (5 < avg_opportunities_per_scrape c)%Q.
Proof.
  intros Hb Hlt.
  assert (Hb' : (0 <= base c)%Q) by (unfold Qle; simpl; lia).
  destruct (frequency_cases c) as (_ & Hlow & Hmid).
  destruct (Qlt_le_dec 5 (avg_opportunities_per_scrape c)) as [|H5]; [done|].
  destruct (Qlt_le_dec (avg_opportunities_per_scrape c) 1) as [H1|H1].
  - rewrite (Hlow H1) in Hlt. lra.
  - rewrite (Hmid (conj H1 H5)) in Hlt. lra.
Qed.

Lemma frequency_after_empty_scrape (c : PortalConfig.t) (t : datetime) :
  frequency (set_scraped c t 0) = (base c * 2)%Q.
Proof. reflexivity. Qed.

(** The API scraper records a failed exchange the same way. *)
Lemma sam_failure (config : PortalConfig.t) (ext : external) (key : string) :
  api_key config = Some key → key ≠ ""%string →
  (∃ e, api ext = GetRaises e)
  ∨ (∃ status parsed, api ext = Response status parsed ∧ status ≠ 200%Z) →
  (SAMGovScraper.scrape config ext).1.1 = set_scraped config (finished_at ext) 0
  ∧ (SAMGovScraper.scrape config ext).2 = Ok [].
Proof.
  intros Hkey Hne Hfail. unfold SAMGovScraper.scrape. rewrite Hkey.
  destruct key as [|c key]; [done|].
  destruct Hfail as [[e ->]|(status & parsed & -> & Hs)]; [done|].
  apply Z.eqb_neq in Hs. by rewrite Hs.
Qed.

Lemma california_failure (config : PortalConfig.t) (ext : external) (e : exn) :
  browser ext = PageRaises e →
  CaliforniaEProcureScraper.scrape config ext
  = (set_scraped config (finished_at ext) 0,
     ["Error scraping California eProcure: " ++ str e]%string, Ok []).
Proof. intros H. unfold CaliforniaEProcureScraper.scrape. by rewrite H. Qed.

(** What a failed fetch leaves of the configuration: the failures that the
    scraper records count as a scrape without yield, the others leave no
    trace. *)
Lemma failed_attempt (portal : PortalConfig.t) (ext : external) :
  fetch_failed portal ext = true →
  (run_task portal ext).1.1
  = (if recorded_failure portal ext then set_scraped portal (finished_at ext) 0
     else portal)
  ∧ yield_of (run_task portal ext).2 = [].
Proof.
  intros Hf.
  destruct (run_task_cases portal ext) as (Hc & Hr & Hk & _).
  destruct (cancelled ext) eqn:Ec.
  { rewrite (Hc eq_refl). unfold recorded_failure, caught_by_scraper.
    by rewrite Ec. }
  destruct (raised_by_task portal ext) eqn:Er.
  { destruct (Hr eq_refl) as [e ->].
    assert (recorded_failure portal ext = false) as ->; [|done].
    revert Er. unfold recorded_failure, caught_by_scraper, raised_by_task, is_sam.
    rewrite Ec. simpl.
    destruct (is_california portal), (browser ext),
      (bool_decide (name portal = "SAM.gov"%string)); simpl; try done;
      intros _; by rewrite ?andb_false_r. }
  destruct (caught_by_scraper portal ext) eqn:Ek.
  { by destruct (Hk eq_refl) as [line ->]. }
  unfold fetch_failed in Hf. by rewrite Ec, Er, Ek in Hf.
Qed.

Lemma recorded_failure_set_scraped (portal : PortalConfig.t) (ext : external)
    (t : datetime) (n : nat) :
  recorded_failure (set_scraped portal t n) ext = recorded_failure portal ext
  ∧ fetch_failed (set_scraped portal t n) ext = fetch_failed portal ext.
Proof. done. Qed.

(** C8: the fetch of a source fails twice in a row, each time without an
    opportunity.  A failure that the scraper records (the page session of
    California eProcure raises once the browser is launched; the request
    to SAM.gov, made with a key, raises or answers with another status
    than 200) counts as a scrape without yield: after it the interval is
    twice the base interval and the portal is not due before that time has
    passed since the attempt.  A failure that is not recorded (the browser
    cannot be launched, the portal has no scraper of its own, the key of
    SAM.gov is missing, the task is cancelled) leaves the configuration as
    it was, and with it the interval and the time of the last recorded
    scrape.  In general the interval is the base interval halved when the
    yield of the last recorded scrape exceeds 5, doubled when it is below 1
    and unchanged otherwise, and only a yield above 5 makes it shorter than
    the base interval. *)
Theorem C8_interval_after_failures (portal : PortalConfig.t) (ext1 ext2 : external) :
  (0 <= scrape_frequency_hours portal)%Z →
  fetch_failed portal ext1 = true → fetch_failed portal ext2 = true →
  let attempt1 := run_task portal ext1 in
  let attempt2 := run_task attempt1.1.1 ext2 in
  let config' := attempt2.1.1 in
  yield_of attempt1.2 = [] ∧ yield_of attempt2.2 = []
  ∧ scrape_frequency_hours config' = scrape_frequency_hours portal
  ∧ (recorded_failure portal ext2 = true →
       config' = set_scraped attempt1.1.1 (finished_at ext2) 0
       ∧ frequency config' = (base portal * 2)%Q
       ∧ (base portal <= frequency config')%Q
       ∧ (∀ now, should_scrape config' now = true →
            (base portal * 2 <= hours_since_scrape now (finished_at ext2))%Q))
  ∧ (recorded_failure portal ext1 = true → recorded_failure portal ext2 = false →
       config' = set_scraped portal (finished_at ext1) 0
       ∧ frequency config' = (base portal * 2)%Q
       ∧ (base portal <= frequency config')%Q
       ∧ (∀ now, should_scrape config' now = true →
            (base portal * 2 <= hours_since_scrape now (finished_at ext1))%Q))
  ∧ (recorded_failure portal ext1 = false → recorded_failure portal ext2 = false →
       config' = portal
       ∧ ((5 < avg_opportunities_per_scrape portal)%Q →
            frequency config' = (base portal * 0.5)%Q)
       ∧ (last_scrape portal = None → ∀ now, should_scrape config' now = true))
  ∧ (∀ c : PortalConfig.t,
       ((5 < avg_opportunities_per_scrape c)%Q → frequency c = (base c * 0.5)%Q)
       ∧ ((avg_opportunities_per_scrape c < 1)%Q → frequency c = (base c * 2)%Q)
       ∧ ((1 <= avg_opportunities_per_scrape c)%Q
          ∧ (avg_opportunities_per_scrape c <= 5)%Q → frequency c = base c)
       ∧ ((0 <= scrape_frequency_hours c)%Z → (frequency c < base c)%Q →
          (5 < avg_opportunities_per_scrape c)%Q)).
Proof.
  intros Hb H1 H2 attempt1 attempt2 config'.
  assert (Hb' : (0 <= base portal)%Q) by (unfold Qle; simpl; lia).
  destruct (failed_attempt portal ext1 H1) as [Hc1 Hy1].
  assert (H2' : fetch_failed attempt1.1.1 ext2 = true).
  { subst attempt1. rewrite Hc1. by destruct (recorded_failure portal ext1). }
  destruct (failed_attempt attempt1.1.1 ext2 H2') as [Hc2 Hy2].
  assert (Hrec : recorded_failure attempt1.1.1 ext2 = recorded_failure portal ext2).
  { subst attempt1. rewrite Hc1. by destruct (recorded_failure portal ext1). }
  rewrite Hrec in Hc2. fold attempt2 in Hc2, Hy2. fold config' in Hc2.
  assert (Hdouble : ∀ (c : PortalConfig.t) (t : datetime),
            scrape_frequency_hours c = scrape_frequency_hours portal →
            frequency (set_scraped c t 0) = (base portal * 2)%Q
            ∧ (base portal <= frequency (set_scraped c t 0))%Q
            ∧ (∀ now, should_scrape (set_scraped c t 0) now = true →
                 (base portal * 2 <= hours_since_scrape now t)%Q)).
  { intros c t Hc.
    assert (Hfreq : frequency (set_scraped c t 0) = (base portal * 2)%Q).
    { rewrite frequency_after_empty_scrape. by rewrite Hc. }
    split; [exact Hfreq|]. split; [rewrite Hfreq; lra|].
    intros now Hdue. unfold should_scrape in Hdue. simpl last_scrape in Hdue.
    apply Qle_bool_iff in Hdue. by rewrite Hfreq in Hdue. }
  assert (Hbase1 : scrape_frequency_hours attempt1.1.1 = scrape_frequency_hours portal).
  { subst attempt1. rewrite Hc1. by destruct (recorded_failure portal ext1). }
  split; [exact Hy1|]. split; [exact Hy2|]. split.
  { rewrite Hc2. by destruct (recorded_failure portal ext2). }
  split; [|split; [|split]].
  - intros Hr. rewrite Hr in Hc2. rewrite Hc2.
    split; [done|]. by apply Hdouble.
  - intros Hr1 Hr2. rewrite Hr2 in Hc2. rewrite Hc2. subst attempt1.
    rewrite Hc1, Hr1. split; [done|]. by apply Hdouble.
  - intros Hr1 Hr2. rewrite Hr2 in Hc2. rewrite Hc2. subst attempt1.
    rewrite Hc1, Hr1. split; [done|]. split.
    + intros H5. by apply (frequency_cases portal).
    + intros Hnone now. unfold should_scrape. by rewrite Hnone.
  - intros c. destruct (frequency_cases c) as (Ha & Hl & Hm).
    split; [exact Ha|]. split; [exact Hl|]. split; [exact Hm|].
    apply frequency_shorter_only_if_productive.
Qed.

Lemma C8_interval_after_failures_witness :
  let ext1 := timed_out 3600000000 in
  let ext2 := timed_out 7200000000 in
  let config' := (run_task (run_task california_portal ext1).1.1 ext2).1.1 in
  ((0 <= scrape_frequency_hours california_portal)%Z
   ∧ fetch_failed california_portal ext1 = true
   ∧ fetch_failed california_portal ext2 = true
   ∧ recorded_failure california_portal ext2 = true)
  ∧ frequency config' = (inject_Z 12 * 2)%Q
  ∧ (inject_Z 12 <= frequency config')%Q.
Proof.
  intros ext1 ext2 config'.
  assert (Hb : (0 <= scrape_frequency_hours california_portal)%Z) by (simpl; lia).
  split; [split; [exact Hb | split; [reflexivity | split; reflexivity]]|].
  destruct (C8_interval_after_failures california_portal ext1 ext2 Hb eq_refl eq_refl)
    as (_ & _ & _ & Hrec & _).
  destruct (Hrec eq_refl) as (_ & Hfreq & Hle & _).
  exact (conj Hfreq Hle).
Defined.

(** California eProcure has a base interval of 12 hours, and a scrape that
    ends at time 0 finds six opportunities.  Seven and eight hours later
    the browser cannot be launched in time: both fetches fail without an
    opportunity and nothing is recorded, so the interval stays at 6 hours
    and the portal is due at once after the second failure. *)
Example launch_failures_leave_no_trace :
  let attempt0 := run_task california_portal productive_scrape in
  let attempt1 := run_task attempt0.1.1 (launch_timed_out (7 * 3600000000)) in
  let attempt2 := run_task attempt1.1.1 (launch_timed_out (8 * 3600000000)) in
  let config' := attempt2.1.1 in
  length (yield_of attempt0.2) = 6%nat
  ∧ attempt1.2 = RaisedException TimeoutError
  ∧ attempt2.2 = RaisedException TimeoutError
  ∧ last_scrape config' = Some 0%Z
  ∧ base config' = inject_Z 12
  ∧ (frequency config' == 6)%Q
  ∧ should_scrape config' (8 * 3600000000) = true.
Proof. vm_compute. repeat split; reflexivity. Qed.

(** C8, as the specification words it, fails: after two failed fetches
    in a row the interval of a source can be shorter than its base
    interval. *)
Lemma C8_launch_failures_keep_short_interval :
  ¬ (∀ (portal : PortalConfig.t) (ext1 ext2 : external),
       (0 <= scrape_frequency_hours portal)%Z →
       fetch_failed portal ext1 = true → fetch_failed portal ext2 = true →
       let attempt1 := run_task portal ext1 in
       let attempt2 := run_task attempt1.1.1 ext2 in
       yield_of attempt1.2 = [] ∧ yield_of attempt2.2 = []
       ∧ (base portal <= frequency attempt2.1.1)%Q).
Proof.
  intros H.
  assert (Hb : (0 <= scrape_frequency_hours
                      (run_task california_portal productive_scrape).1.1)%Z)
    by (vm_compute; discriminate).
  destruct (H (run_task california_portal productive_scrape).1.1
              (launch_timed_out (7 * 3600000000)) (launch_timed_out (8 * 3600000000))
              Hb eq_refl eq_refl) as (_ & _ & Hle).
  vm_compute in Hle. by apply Hle.
Qed.

Example not_due_after_failures :
  let config' := (run_task (run_task california_portal (timed_out 3600000000)).1.1
                    (timed_out 7200000000)).1.1 in
  (* 12 hours after the second failure: not due; 24 hours after: due *)
  should_scrape config' (7200000000 + 12 * 3600000000) = false
  ∧ should_scrape config' (7200000000 + 24 * 3600000000) = true.
Proof. split; reflexivity. Qed.

End Scheduling.

(** ** The pipeline store *)

Section Pipeline.

Import WinScopeMasterOrchestrator.

Lemma process_opportunity_spec (self : WinScopeMasterOrchestrator.t)
    (opportunity : Opportunity.t) (now : datetime) :
  let record := processed_record opportunity now in
  _process_opportunity self opportunity now
  = mk (self_config self)
       (<[Opportunity.id opportunity := record]> (pipeline self))
       (<[Opportunity.id opportunity :=
            mk_row (Opportunity.id opportunity) (Opportunity.solicitation_number opportunity)
              (Opportunity.source_portal opportunity) (Opportunity.title opportunity)
              (Opportunity.agency opportunity) "rfq_generated"
              (Opportunity.match_score opportunity)
              (Opportunity.win_probability opportunity) record now now]>
          (opportunities_table self)).
Proof. reflexivity. Qed.

(** C4, as the specification words it, fails: processing again an
    opportunity whose record has reached [PROPOSAL_GENERATED] puts the record
    back to [RFQ_GENERATED]. *)
Lemma C4_reprocessing_resets_stage :
  ¬ (∀ (self : WinScopeMasterOrchestrator.t) (opportunity : Opportunity.t)
       (now : datetime) (old : OpportunityRecord.t),
       pipeline self !! Opportunity.id opportunity = Some old →
       ∃ new, pipeline (_process_opportunity self opportunity now)
                !! Opportunity.id opportunity = Some new
              ∧ (stage_index (OpportunityRecord.stage old)
                 <= stage_index (OpportunityRecord.stage new))%nat).
Proof.
  intros H.
  assert (Hold : pipeline advanced_orchestrator !! Opportunity.id boundary_opp
                 = Some advanced_record) by apply lookup_insert_eq.
  destruct (H advanced_orchestrator boundary_opp 86400000000%Z advanced_record Hold)
    as (new & Hnew & Hle).
  rewrite process_opportunity_spec in Hnew. simpl in Hnew.
  rewrite lookup_insert_eq in Hnew. injection Hnew as <-.
  simpl in Hle. lia.
Qed.

(** C4 (amended): processing an opportunity whose identity already has a
    record replaces that record, in the pipeline and in the table: the
    identity still has exactly one record and no other identity is touched,
    the score and the descriptive fields are those of the opportunity, and
    the stage is set to [RFQ_GENERATED] with fresh timestamps and an empty
    intervention log, whatever the stored record held. *)
Theorem C4_reprocessing_replaces_record (self : WinScopeMasterOrchestrator.t)
    (opportunity : Opportunity.t) (now : datetime) (old : OpportunityRecord.t) :
  pipeline self !! Opportunity.id opportunity = Some old →
  let self' := _process_opportunity self opportunity now in
  let i := Opportunity.id opportunity in
  ∃ new row,
    pipeline self' !! i = Some new
    ∧ opportunities_table self' !! i = Some row
    ∧ data row = new
    ∧ row_match_score row = Opportunity.match_score opportunity
    ∧ row_stage row = "rfq_generated"%string
    ∧ OpportunityRecord.id new = i
    ∧ OpportunityRecord.match_score new = Opportunity.match_score opportunity
    ∧ OpportunityRecord.win_probability new = Opportunity.win_probability opportunity
    ∧ OpportunityRecord.title new = Opportunity.title opportunity
    ∧ OpportunityRecord.due_date new = Opportunity.due_date opportunity
    ∧ OpportunityRecord.estimated_value new = Opportunity.estimated_value opportunity
    ∧ OpportunityRecord.stage new = RFQ_GENERATED
    ∧ OpportunityRecord.discovered_at new = now
    ∧ OpportunityRecord.qualified_at new = Some now
    ∧ OpportunityRecord.manual_interventions new = []
    ∧ dom (pipeline self') = dom (pipeline self)
    ∧ size (pipeline self') = size (pipeline self)
    ∧ (∀ j, j ≠ i → pipeline self' !! j = pipeline self !! j)
    ∧ (∀ j, j ≠ i → opportunities_table self' !! j = opportunities_table self !! j).
Proof.
  intros Hold. cbv zeta. rewrite process_opportunity_spec. simpl.
  eexists _, _. rewrite !lookup_insert_eq.
  repeat (split; [reflexivity|]).
  assert (Hdom : dom (<[Opportunity.id opportunity := processed_record opportunity now]>
                        (pipeline self))
                 = dom (pipeline self)).
  { rewrite dom_insert_L. apply elem_of_dom_2 in Hold. set_solver. }
  split; [exact Hdom|]. split; [|split].
  - by rewrite <- !size_dom, Hdom.
  - intros j Hj. by rewrite lookup_insert_ne.
  - intros j Hj. by rewrite lookup_insert_ne.
Qed.

Lemma C4_reprocessing_replaces_record_witness :
  let self' := _process_opportunity advanced_orchestrator boundary_opp 86400000000%Z in
  pipeline advanced_orchestrator !! Opportunity.id boundary_opp = Some advanced_record
  ∧ ∃ new, pipeline self' !! Opportunity.id boundary_opp = Some new
           ∧ OpportunityRecord.stage new = RFQ_GENERATED
           ∧ size (pipeline self') = size (pipeline advanced_orchestrator).
Proof.
  intros self'.
  assert (Hold : pipeline advanced_orchestrator !! Opportunity.id boundary_opp
                 = Some advanced_record) by apply lookup_insert_eq.
  split; [exact Hold|].
  destruct (C4_reprocessing_replaces_record advanced_orchestrator boundary_opp
              86400000000%Z advanced_record Hold)
    as (new & row & Hnew & _ & _ & _ & _ & _ & _ & _ & _ & _ & _ & Hstage
        & _ & _ & _ & _ & Hsize & _).
  exists new. exact (conj Hnew (conj Hstage Hsize)).
Defined.

End Pipeline.

(** * Further properties of the code *)

(** ** Strings *)

Section Strings.

Lemma upper_char_idempotent (c : ascii) : upper_char (upper_char c) = upper_char c.
Proof. destruct c as [[] [] [] [] [] [] [] []]; reflexivity. Qed.

Lemma upper_idempotent (s : string) : upper (upper s) = upper s.
Proof.
  induction s as [|c s IH]; simpl; [done|].
  by rewrite upper_char_idempotent, IH.
Qed.

Lemma upper_app (a b : string) : upper (a ++ b) = (upper a ++ upper b)%string.
Proof. induction a as [|c a IH]; simpl; [done|]. by rewrite IH. Qed.

Lemma upper_empty (s : string) : upper s = ""%string ↔ s = ""%string.
Proof. destruct s; simpl; split; intros H; done. Qed.

Lemma prefix_app (p s : string) : String.prefix p (p ++ s) = true.
Proof.
  induction p as [|c p IH]; simpl; [by destruct s|].
  destruct (ascii_dec c c); [exact IH | done].
Qed.

Lemma prefix_split (p s : string) :
  String.prefix p s = true → ∃ post, s = (p ++ post)%string.
Proof.
  revert s. induction p as [|c p IH]; intros s H.
  - by exists s.
  - destruct s as [|d s]; simpl in H; [done|].
    destruct (ascii_dec c d) as [->|]; [|done].
    destruct (IH s H) as [post ->]. by exists post.
Qed.

(** [sub in s] holds exactly when [s] is some text, [sub], some text. *)
Lemma contains_spec (sub s : string) :
  contains sub s = true ↔ ∃ pre post, s = (pre ++ sub ++ post)%string.
Proof.
  split.
  - induction s as [|c s IH]; cbn [contains].
    + rewrite orb_false_r. intros H. apply prefix_split in H as [post ->].
      by exists ""%string, post.
    + intros H. apply orb_true_iff in H as [H|H].
      * apply prefix_split in H as [post ->]. by exists ""%string, post.
      * destruct (IH H) as (pre & post & ->). by exists (String c pre), post.
  - intros (pre & post & ->). induction pre as [|c pre IH].
    + change (""%string ++ sub ++ post)%string with (sub ++ post)%string.
      destruct (sub ++ post)%string eqn:E; cbn [contains]; rewrite <- E;
        by rewrite prefix_app.
    + change (String c pre ++ sub ++ post)%string
        with (String c (pre ++ sub ++ post))%string.
      cbn [contains]. rewrite IH. apply orb_true_r.
Qed.

End Strings.

(** ** The deterministic scoring factors *)

Section Factors.

Import OpportunityScorer.

Lemma falsy_upper (s : string) : falsy (Some (upper s)) = falsy (Some s).
Proof. by destruct s. Qed.

Lemma falsy_app (pre s post : string) :
  s ≠ ""%string → falsy (Some (pre ++ s ++ post)%string) = false.
Proof. intros Hs. destruct pre; [destruct s|]; done. Qed.

Lemma existsb_elem_of {A : Type} (f : A → bool) (l : list A) :
  existsb f l = true ↔ ∃ x, x ∈ l ∧ f x = true.
Proof.
  rewrite existsb_exists. by setoid_rewrite list_elem_of_In.
Qed.

(** X1: a location that holds a preferred state code anywhere in its text, in any
    letter case, gets the full geography factor. *)
Theorem geography_matches_any_substring (self : OpportunityScorer.t)
    (pre s post : string) :
  s ≠ ""%string → upper s ∈ preferred_states (self_profile self) →
  _score_geography self (Some (pre ++ s ++ post)%string) = 1%Q.
Proof.
  intros Hs Hin. unfold _score_geography.
  rewrite falsy_app by done. cbv [default from_option id].
  assert (H : existsb (λ state, contains state (upper (pre ++ s ++ post)))
                (preferred_states (self_profile self)) = true).
  { apply existsb_elem_of. exists (upper s). split; [done|].
    apply contains_spec. exists (upper pre), (upper post).
    by rewrite !upper_app. }
  by rewrite H.
Qed.

Lemma geography_matches_any_substring_witness :
  ("ca"%string ≠ ""%string
   ∧ upper "ca" ∈ preferred_states (self_profile offline_scorer))
  ∧ _score_geography offline_scorer (Some ("Chi" ++ "ca" ++ "go")%string) = 1%Q.
Proof.
  assert (H1 : "ca"%string ≠ ""%string) by discriminate.
  assert (H2 : upper "ca" ∈ preferred_states (self_profile offline_scorer))
    by apply list_elem_of_here.
  split; [exact (conj H1 H2)|].
  exact (geography_matches_any_substring offline_scorer "Chi" "ca" "go" H1 H2).
Defined.

Lemma geography_case_insensitive (self : OpportunityScorer.t) (location : string) :
  _score_geography self (Some (upper location)) = _score_geography self (Some location).
Proof.
  unfold _score_geography. rewrite falsy_upper. cbv [default from_option id].
  by rewrite upper_idempotent.
Qed.

Lemma setaside_case_insensitive (self : OpportunityScorer.t) (setaside : string) :
  _score_setaside self (Some (upper setaside)) = _score_setaside self (Some setaside).
Proof.
  unfold _score_setaside. rewrite falsy_upper. cbv [default from_option id].
  by rewrite upper_idempotent.
Qed.




(** X2: the NAICS factor looks at the set of codes only: neither their order nor
    their repetition matters. *)
Theorem naics_match_of_set (self : OpportunityScorer.t) (l l' : list string) :
  (∀ c, c ∈ l ↔ c ∈ l') →
  _score_naics_match self l = _score_naics_match self l'.
Proof.
  intros H.
  assert (Hset : py_set l = py_set l').
  { unfold py_set. apply set_eq. intros c. by rewrite !elem_of_list_to_set. }
  unfold _score_naics_match.
  destruct l as [|c l], l' as [|c' l'].
  - done.
  - exfalso. eapply elem_of_nil. apply H. apply list_elem_of_here.
  - exfalso. eapply elem_of_nil. apply H. apply list_elem_of_here.
  - by rewrite Hset.
Qed.

Lemma naics_match_of_set_witness :
  (∀ c : string, c ∈ ["541330"; "999999"; "541330"]%string
                 ↔ c ∈ ["999999"; "541330"]%string)
  ∧ _score_naics_match offline_scorer ["541330"; "999999"; "541330"]%string
    = _score_naics_match offline_scorer ["999999"; "541330"]%string.
Proof.
  assert (H : ∀ c : string, c ∈ ["541330"; "999999"; "541330"]%string
                            ↔ c ∈ ["999999"; "541330"]%string).
  { intros c. rewrite !elem_of_cons, !elem_of_nil. tauto. }
  split; [exact H|].
  exact (naics_match_of_set offline_scorer _ _ H).
Defined.

(** What the factor is worth, in terms of the codes. *)
Lemma naics_match_levels (self : OpportunityScorer.t) (l : list string) :
  l ≠ [] →
  let profile_codes := profile_naics_codes (self_profile self) in
  let exact := ∃ c, c ∈ profile_codes ∧ c ∈ l in
  let related := ∃ cn on, cn ∈ profile_codes ∧ on ∈ l ∧ str_take 4 cn = str_take 4 on in
  (exact → _score_naics_match self l = 1%Q)
  ∧ (¬ exact → related → _score_naics_match self l = 0.7%Q)
  ∧ (¬ related → _score_naics_match self l = 0.2%Q).
Proof.
  intros Hl profile_codes exact related.
  assert (Hexact : py_set profile_codes ∩ py_set l ≠ ∅ ↔ exact).
  { unfold py_set, exact. split.
    - intros Hne. apply set_choose_L in Hne as [c Hc].
      apply elem_of_intersection in Hc as [H1 H2].
      rewrite elem_of_list_to_set in H1, H2. by exists c.
    - intros (c & H1 & H2) He.
      assert (Hc : c ∈ (list_to_set profile_codes ∩ list_to_set l : gset string)).
      { apply elem_of_intersection. by rewrite !elem_of_list_to_set. }
      rewrite He in Hc. by apply not_elem_of_empty in Hc. }
  assert (Hrel : existsb
                   (λ cn, existsb (λ on, String.eqb (str_take 4 cn) (str_take 4 on))
                            (elements (py_set l)))
                   (elements (py_set profile_codes)) = true ↔ related).
  { unfold related, py_set. rewrite existsb_elem_of. split.
    - intros (cn & Hcn & Hex). apply existsb_elem_of in Hex as (on & Hon & Heq).
      apply elem_of_elements, elem_of_list_to_set in Hcn, Hon.
      apply String.eqb_eq in Heq. by exists cn, on.
    - intros (cn & on & Hcn & Hon & Heq). exists cn. split.
      + by apply elem_of_elements, elem_of_list_to_set.
      + apply existsb_elem_of. exists on. split.
        * by apply elem_of_elements, elem_of_list_to_set.
        * by apply String.eqb_eq. }
  assert (Himp : exact → related).
  { intros (c & H1 & H2). by exists c, c. }
  unfold _score_naics_match. destruct l as [|c0 l0]; [done|].
  fold profile_codes.
  destruct (decide (py_set profile_codes ∩ py_set (c0 :: l0) ≠ ∅)) as [Hy|Hn].
  - apply Hexact in Hy. split; [done|]. split; [done|]. intros Hnr. tauto.
  - assert (Hne : ¬ exact) by (intros He; by apply Hexact in He).
    destruct (existsb _ _).
    + assert (Hr : related) by by apply Hrel.
      split; [done|]. split; [done|]. done.
    + split; [done|]. split; [|done].
      intros _ Hr. apply Hrel in Hr. discriminate Hr.
Qed.

End Factors.

(** ** The whole score *)

Section WholeScore.

Import OpportunityScorer.

Lemma round_half_even_floor (y : Q) :
  round_half_even y = Qfloor y
  ∨ (round_half_even y = (Qfloor y + 1)%Z ∧ (inject_Z (Qfloor y) < y)%Q).
Proof.
  unfold round_half_even.
  destruct (Qltb (y - inject_Z (Qfloor y)) 0.5) eqn:E1; [by left|].
  apply Qltb_ge in E1.
  assert (Hlt : (inject_Z (Qfloor y) < y)%Q) by lra.
  destruct (Qltb 0.5 (y - inject_Z (Qfloor y))); [by right|].
  destruct (Z.even (Qfloor y)); [by left | by right].
Qed.

Lemma round_half_even_between (m n : Z) (y : Q) :
  (inject_Z m <= y)%Q → (y <= inject_Z n)%Q →
  (m <= round_half_even y)%Z ∧ (round_half_even y <= n)%Z.
Proof.
  intros Hm Hn.
  assert (Hfm : (m <= Qfloor y)%Z).
  { rewrite <- (Qfloor_Z m). by apply Qfloor_resp_le. }
  assert (Hfn : (Qfloor y <= n)%Z).
  { rewrite <- (Qfloor_Z n). by apply Qfloor_resp_le. }
  destruct (round_half_even_floor y) as [->|[-> Hlt]]; [lia|].
  split; [lia|].
  assert (Hfn' : (inject_Z (Qfloor y) < inject_Z n)%Q) by lra.
  rewrite <- Zlt_Qlt in Hfn'. lia.
Qed.

Lemma py_round2_between (m n : Z) (x : Q) :
  (inject_Z m <= x * 100)%Q → (x * 100 <= inject_Z n)%Q →
  (m # 100 <= py_round2 x)%Q ∧ (py_round2 x <= n # 100)%Q.
Proof.
  intros Hm Hn. destruct (round_half_even_between m n _ Hm Hn) as [H1 H2].
  unfold py_round2, Qle. simpl. lia.
Qed.


Lemma score_keywords_range (self : OpportunityScorer.t) (title description : string) :
  ∃ k, _score_keywords self title description = Ok (Finite k)
       ∧ (0 <= k)%Q ∧ (k <= 1)%Q.
Proof.
  assert (Hhalf : ∃ k, Ok (Finite 0.5%Q) = Ok (Finite k) ∧ (0 <= k)%Q ∧ (k <= 1)%Q).
  { exists 0.5%Q. split; [done|]. split; lra. }
  unfold _score_keywords.
  destruct (client_messages_create self _) as [content|e]; simpl; [|exact Hhalf].
  unfold mbind, result_bind.
  destruct (first_block content) as [text|e]; simpl; [|exact Hhalf].
  destruct (float_of_text self (strip text)) as [x|e]; simpl; [|exact Hhalf].
  destruct (clamp_range x) as (r & Hr & Hrange). exists r. by rewrite Hr.
Qed.



(** X4: when the judgment service fails, an opportunity that declares no code,
    value, location or set-aside scores exactly 50 and passes the default
    qualification threshold. *)
Theorem unknown_opportunity_qualifies_when_offline (self : OpportunityScorer.t)
    (orch : WinScopeMasterOrchestrator.t) (opp : Opportunity.t) (e : exn) :
  Opportunity.naics_codes opp = [] → Opportunity.estimated_value opp = None →
  falsy (Opportunity.location opp) = true → falsy (Opportunity.set_aside opp) = true →
  client_messages_create self
    (prompt self (combined_text (Opportunity.title opp) (Opportunity.description opp)))
  = Raised e →
  WinScopeMasterOrchestrator.self_config orch = WinScopeMasterOrchestrator.config →
  ∃ s, score_opportunity self opp = Ok (Finite s) ∧ (s == 50)%Q
       ∧ WinScopeMasterOrchestrator._qualify_opportunities orch
           [Opportunity.set_match_score opp s]
         = [Opportunity.set_match_score opp s].
Proof.
  intros Hn Hv Hl Hs Hcall Hcfg.
  exists (py_round2 (0 + 0.5 * 25 + 0.5 * 20 + 0.5 * 15 + 0.5 * 15 + 0.5 * 25)).
  split; [|split].
  - unfold score_opportunity, _score_naics_match, _score_contract_value,
      _score_geography, _score_setaside, _score_keywords.
    rewrite Hn, Hv, Hl, Hs, Hcall. reflexivity.
  - reflexivity.
  - unfold WinScopeMasterOrchestrator._qualify_opportunities. rewrite Hcfg.
    reflexivity.
Qed.

Lemma unknown_opportunity_qualifies_when_offline_witness :
  let opp := Opportunity.mk "x1" "SAM.gov" "Robot cell" "DoD" [] "" "AB-7" 0%Z None None
               None (Some ""%string) [] [] 0 0 0%Z in
  let orch := WinScopeMasterOrchestrator.mk WinScopeMasterOrchestrator.config ∅ ∅ in
  (Opportunity.naics_codes opp = [] ∧ Opportunity.estimated_value opp = None
   ∧ falsy (Opportunity.location opp) = true ∧ falsy (Opportunity.set_aside opp) = true
   ∧ client_messages_create offline_scorer
       (prompt offline_scorer
          (combined_text (Opportunity.title opp) (Opportunity.description opp)))
     = Raised APIConnectionError
   ∧ WinScopeMasterOrchestrator.self_config orch = WinScopeMasterOrchestrator.config)
  ∧ ∃ s, score_opportunity offline_scorer opp = Ok (Finite s) ∧ (s == 50)%Q
         ∧ WinScopeMasterOrchestrator._qualify_opportunities orch
             [Opportunity.set_match_score opp s]
           = [Opportunity.set_match_score opp s].
Proof.
  intros opp orch. split; [by repeat split|].
  exact (unknown_opportunity_qualifies_when_offline offline_scorer orch opp
           APIConnectionError eq_refl eq_refl eq_refl eq_refl eq_refl eq_refl).
Defined.

End WholeScore.

(** ** The shape of identities *)

Section IdentityFormat.

Lemma le_bytes_length (n : nat) (x : Z) : length (MD5.le_bytes n x) = n.
Proof. revert x. induction n as [|n IH]; intros x; simpl; [done|]. by rewrite IH. Qed.

Lemma le_bytes_range (n : nat) (x : Z) :
  Forall (λ b, (0 <= b < 256)%Z) (MD5.le_bytes n x).
Proof.
  revert x. induction n as [|n IH]; intros x; simpl; constructor; [|apply IH].
  change 255%Z with (Z.ones 8). rewrite Z.land_ones by lia.
  apply Z.mod_pos_bound. lia.
Qed.

Lemma digest_length (msg : list Z) : length (MD5.digest msg) = 16%nat.
Proof. unfold MD5.digest. by rewrite !length_app, !le_bytes_length. Qed.

Lemma digest_range (msg : list Z) : Forall (λ b, (0 <= b < 256)%Z) (MD5.digest msg).
Proof. unfold MD5.digest. repeat apply Forall_app_2; apply le_bytes_range. Qed.

Lemma hex_digit_is_hex (x : Z) : (0 <= x < 16)%Z → is_hex_digit (MD5.hex_digit x) = true.
Proof.
  intros Hx.
  assert (Hall : forallb (λ n, is_hex_digit (MD5.hex_digit (Z.of_nat n))) (seq 0 16) = true)
    by reflexivity.
  rewrite forallb_forall in Hall.
  specialize (Hall (Z.to_nat x)). rewrite Z2Nat.id in Hall by lia.
  apply Hall. apply in_seq. lia.
Qed.

Lemma hex_length (bs : list Z) : String.length (MD5.hex bs) = (2 * length bs)%nat.
Proof. induction bs as [|b bs IH]; simpl; [done|]. rewrite IH. lia. Qed.

Lemma hex_is_hex (bs : list Z) :
  Forall (λ b, (0 <= b < 256)%Z) bs → string_forall is_hex_digit (MD5.hex bs) = true.
Proof.
  induction 1 as [|b bs Hb _ IH]; [done|].
  cbn [MD5.hex string_forall]. rewrite IH, !hex_digit_is_hex; [done| |].
  - change 15%Z with (Z.ones 4). rewrite Z.land_ones by lia.
    apply Z.mod_pos_bound. lia.
  - rewrite Z.shiftr_div_pow2 by lia. split.
    + apply Z.div_pos; lia.
    + apply Z.div_lt_upper_bound; lia.
Qed.

Lemma str_take_length (n : nat) (s : string) :
  String.length (str_take n s) = Nat.min n (String.length s).
Proof.
  revert s. induction n as [|n IH]; intros [|c s]; simpl; try done.
  by rewrite IH.
Qed.

Lemma str_take_forall (p : ascii → bool) (n : nat) (s : string) :
  string_forall p s = true → string_forall p (str_take n s) = true.
Proof.
  revert s. induction n as [|n IH]; intros [|c s]; simpl; try done.
  intros H. apply andb_true_iff in H as [Hc Hs]. by rewrite Hc, IH.
Qed.

(** X5: a generated identity is always 16 lower-case hexadecimal digits. *)
Theorem generate_id_format (opp : Opportunity.t) :
  String.length (Opportunity.generate_id opp) = 16%nat
  ∧ string_forall is_hex_digit (Opportunity.generate_id opp) = true.
Proof.
  unfold Opportunity.generate_id, MD5.hexdigest. split.
  - rewrite str_take_length, hex_length, digest_length. reflexivity.
  - apply str_take_forall, hex_is_hex, digest_range.
Qed.

(** X6: [__post_init__] leaves no opportunity without an identity, keeps an
    identity that was given, and changes nothing when applied again. *)
Theorem post_init_idempotent (opp : Opportunity.t) :
  Opportunity.id (Opportunity.post_init opp) ≠ ""%string
  ∧ (Opportunity.id opp ≠ ""%string → Opportunity.post_init opp = opp)
  ∧ Opportunity.post_init (Opportunity.post_init opp) = Opportunity.post_init opp.
Proof.
  assert (Hkeep : ∀ o, Opportunity.id o ≠ ""%string → Opportunity.post_init o = o).
  { intros o Ho. unfold Opportunity.post_init. by rewrite decide_False. }
  assert (Hid : Opportunity.id (Opportunity.post_init opp) ≠ ""%string).
  { unfold Opportunity.post_init.
    destruct (decide (Opportunity.id opp = ""%string)) as [He|Hne]; [|done].
    simpl. intros Hempty.
    pose proof (proj1 (generate_id_format opp)) as Hlen.
    rewrite Hempty in Hlen. discriminate Hlen. }
  split; [exact Hid|]. split; [apply Hkeep|]. by apply Hkeep.
Qed.

End IdentityFormat.

(** ** More on deduplication, the threshold query and the store *)

Section MoreNetwork.

Import WinScopeIntelligenceNetwork.

Local Abbreviation ids l := (map Opportunity.id l).
Local Abbreviation score opp := (Opportunity.match_score opp).

Lemma first_seen_sublist (seen : gset string) (l : list Opportunity.t) :
  first_seen seen l `sublist_of` l.
Proof.
  revert seen. induction l as [|opp rest IH]; intros seen; simpl; [done|].
  destruct (decide (Opportunity.id opp ∈ seen)).
  - by apply sublist_cons.
  - by apply sublist_skip.
Qed.

(** X7: deduplication returns the candidates in their order of arrival, exactly
    one for each distinct identity, and nothing changes when the identities
    are distinct already. *)
Theorem deduplicate_one_per_identity (l : list Opportunity.t) :
  _deduplicate l `sublist_of` l
  ∧ length (_deduplicate l) = size (list_to_set (ids l) : gset string)
  ∧ (NoDup (ids l) → _deduplicate l = l).
Proof.
  split; [|split].
  - rewrite deduplicate_first_seen. apply first_seen_sublist.
  - assert (Hset : (list_to_set (ids l) : gset string)
                   = list_to_set (ids (_deduplicate l))).
    { apply set_eq. intros i. by rewrite !elem_of_list_to_set, deduplicate_ids. }
    rewrite Hset, size_list_to_set by apply deduplicate_NoDup.
    by rewrite length_map.
  - intros Hnd. rewrite deduplicate_first_seen.
    apply first_seen_fixed; [done | set_solver].
Qed.

(** X8: the threshold query returns the head of the ranking of the stored
    opportunities that meet the threshold: [limit] of them when [limit] is
    not negative, all but the last [-limit] otherwise; what it leaves out
    scores no higher than anything it returns. *)
Theorem get_top_is_head_of_ranking (self : WinScopeIntelligenceNetwork.t)
    (limit : Z) (min_score : Q) :
  let qualifying :=
    List.filter (λ opp, Qle_bool min_score (score opp)) (opportunities self) in
  let top := get_top_opportunities self limit min_score in
  ∃ rest,
    top ++ rest ≡ₚ qualifying
    ∧ descending (top ++ rest)
    ∧ (∀ a b, a ∈ top → b ∈ rest → (score b <= score a)%Q)
    ∧ Z.of_nat (length top)
      = (if 0 <=? limit then Z.min limit (Z.of_nat (length qualifying))
         else Z.max 0 (Z.of_nat (length qualifying) + limit))%Z.
Proof.
  intros qualifying top. subst top. unfold get_top_opportunities. fold qualifying.
  set (ranked := sort_reverse Opportunity.match_score qualifying).
  assert (Hperm : ranked ≡ₚ qualifying) by apply sort_reverse_perm.
  assert (Hsorted : descending ranked) by apply sort_reverse_sorted.
  assert (Hlen : length ranked = length qualifying) by by rewrite Hperm.
  assert (Hslice : ∃ k, slice_to limit ranked = take k ranked
                        ∧ Z.of_nat (length (take k ranked))
                          = (if 0 <=? limit then Z.min limit (Z.of_nat (length qualifying))
                             else Z.max 0 (Z.of_nat (length qualifying) + limit))%Z).
  { unfold slice_to. destruct (0 <=? limit)%Z eqn:E.
    - exists (Z.to_nat limit). split; [done|].
      apply Z.leb_le in E. rewrite length_take, Hlen. lia.
    - exists (Z.to_nat (Z.of_nat (length ranked) + limit)). split; [done|].
      apply Z.leb_gt in E. rewrite length_take, Hlen. lia. }
  destruct Hslice as (k & -> & Hk).
  exists (drop k ranked). rewrite take_drop.
  split; [exact Hperm|]. split; [exact Hsorted|]. split; [|exact Hk].
  intros a b Ha Hb. unfold descending in Hsorted.
  rewrite <- (take_drop k ranked) in Hsorted.
  by apply (StronglySorted_app_1_elem_of _ _ _ a b Hsorted).
Qed.


End MoreNetwork.

(** ** More on scheduling and collection *)

Section MoreScheduling.

Import PortalConfig WinScopeIntelligenceNetwork.

Local Abbreviation base c := (inject_Z (scrape_frequency_hours c)).

Lemma hours_since_scrape_mono (last now now' : datetime) :
  (now <= now')%Z → (hours_since_scrape now last <= hours_since_scrape now' last)%Q.
Proof.
  intros H. unfold hours_since_scrape, total_seconds.
  assert (Hs : ((now - last) # 1000000 <= (now' - last) # 1000000)%Q)
    by (unfold Qle; simpl; lia).
  apply Qmult_le_compat_r; [exact Hs | by (unfold Qle; simpl; lia)].
Qed.

(** X10: once a portal is due it stays due until it is scraped, and a portal that
    was never scraped is always due. *)
Theorem should_scrape_stays_due (config : PortalConfig.t) (now now' : datetime) :
  should_scrape config now = true → (now <= now')%Z →
  should_scrape config now' = true
  ∧ (last_scrape config = None → ∀ t, should_scrape config t = true).
Proof.
  intros Hdue Hle. unfold should_scrape in *. split.
  - destruct (last_scrape config) as [last|]; [|done].
    apply Qle_bool_iff in Hdue. apply Qle_bool_iff.
    eapply Qle_trans; [exact Hdue|]. by apply hours_since_scrape_mono.
  - by intros ->.
Qed.

Lemma should_scrape_stays_due_witness :
  let config := (CaliforniaEProcureScraper.scrape california_portal
                   (timed_out 0)).1.1 in
  (should_scrape config (24 * 3600000000) = true
   ∧ (24 * 3600000000 <= 30 * 3600000000)%Z)
  ∧ should_scrape config (30 * 3600000000) = true.
Proof.
  intros config.
  assert (H1 : should_scrape config (24 * 3600000000) = true) by reflexivity.
  assert (H2 : (24 * 3600000000 <= 30 * 3600000000)%Z) by lia.
  split; [exact (conj H1 H2)|].
  exact (proj1 (should_scrape_stays_due config _ _ H1 H2)).
Defined.

(** X11: after a scrape of California eProcure that extracted [n] opportunities
    at time [t], the portal is due again once half the base interval has
    passed when [n > 5], twice the base interval when [n = 0], and the base
    interval otherwise. *)
Theorem california_reschedule (config : PortalConfig.t) (ext : external)
    (opps : list Opportunity.t) (now : datetime) :
  browser ext = Extracted opps →
  let config' := (CaliforniaEProcureScraper.scrape config ext).1.1 in
  let elapsed := hours_since_scrape now (finished_at ext) in
  last_scrape config' = Some (finished_at ext)
  ∧ scrape_frequency_hours config' = scrape_frequency_hours config
  ∧ ((5 < length opps)%nat →
       (should_scrape config' now = true ↔ (base config * 0.5 <= elapsed)%Q))
  ∧ (length opps = 0%nat →
       (should_scrape config' now = true ↔ (base config * 2 <= elapsed)%Q))
  ∧ ((1 <= length opps <= 5)%nat →
       (should_scrape config' now = true ↔ (base config <= elapsed)%Q)).
Proof.
  intros Hrun config' elapsed. subst config'.
  unfold CaliforniaEProcureScraper.scrape. rewrite Hrun. simpl.
  set (config' := set_scraped config (finished_at ext) (length opps)).
  assert (Hdue : should_scrape config' now = true ↔ (frequency config' <= elapsed)%Q).
  { unfold should_scrape. simpl. apply Qle_bool_iff. }
  destruct (frequency_cases config') as (Hhigh & Hlow & Hmid).
  simpl in Hhigh, Hlow, Hmid.
  split; [done|]. split; [done|]. split; [|split].
  - intros Hn. rewrite Hdue, Hhigh; [done|]. unfold Qlt. simpl. lia.
  - intros Hn. rewrite Hdue, Hlow; [done|]. rewrite Hn. reflexivity.
  - intros Hn. rewrite Hdue, Hmid; [done|].
    split; unfold Qle; simpl; lia.
Qed.

Lemma california_reschedule_witness :
  let ext := mk_external (Extracted (replicate 6 boundary_opp)) (GetRaises TimeoutError) 0 false in
  let config' := (CaliforniaEProcureScraper.scrape california_portal ext).1.1 in
  browser ext = Extracted (replicate 6 boundary_opp)
  ∧ last_scrape config' = Some 0%Z
  ∧ (should_scrape config' (6 * 3600000000) = true
     ↔ (inject_Z 12 * 0.5 <= hours_since_scrape (6 * 3600000000)%Z 0%Z)%Q).
Proof.
  intros ext config'. split; [reflexivity|].
  destruct (california_reschedule california_portal ext (replicate 6 boundary_opp)
              (6 * 3600000000) eq_refl) as (Hlast & _ & Hhigh & _).
  split; [exact Hlast|]. apply Hhigh. simpl. lia.
Defined.

Lemma scrape_portal_unrecorded (portal : PortalConfig.t) (ext : external) :
  unrecorded portal = true → (scrape_portal portal ext).1.1 = portal.
Proof.
  unfold unrecorded, scrape_portal. intros H.
  apply andb_true_iff in H as [Hca Hsam].
  apply negb_true_iff, bool_decide_eq_false in Hca.
  rewrite decide_False by done.
  destruct (decide (name portal = "SAM.gov"%string)) as [Hs|Hs]; [|done].
  apply orb_true_iff in Hsam as [Hsam|Hkey].
  - apply negb_true_iff, bool_decide_eq_false in Hsam. done.
  - unfold SAMGovScraper.scrape.
    destruct (api_key portal) as [[|c k]|]; done.
Qed.

Lemma scrape_portal_registry (portal : PortalConfig.t) (ext : external) :
  name (scrape_portal portal ext).1.1 = name portal
  ∧ scrape_frequency_hours (scrape_portal portal ext).1.1 = scrape_frequency_hours portal.
Proof.
  unfold scrape_portal, CaliforniaEProcureScraper.scrape, SAMGovScraper.scrape,
    PortalScraper.scrape.
  repeat case_decide; repeat case_match; simplify_eq; done.
Qed.

Lemma run_task_config (portal : PortalConfig.t) (ext : external) :
  (run_task portal ext).1.1
  = (if cancelled ext then portal else (scrape_portal portal ext).1.1).
Proof.
  unfold run_task. destruct (cancelled ext); [done|].
  by destruct (scrape_portal portal ext) as [[portal' log] r].
Qed.

Lemma gather_lookup now env j portals i portal :
  portals !! i = Some portal →
  (gather now env j portals).1.1 !! i
  = Some (if should_scrape portal now
          then (run_task portal (env (j + i)%nat)).1.1 else portal).
Proof.
  revert j i. induction portals as [|p rest IH]; intros j i Hi; [done|].
  cbn [gather]. specialize (IH (S j)).
  destruct (gather now env (S j) rest) as [[rest' log_rest] results].
  destruct i as [|i].
  - simpl in Hi. injection Hi as ->. rewrite Nat.add_0_r.
    destruct (should_scrape portal now); [|done].
    by destruct (run_task portal (env j)) as [[portal' log] r].
  - simpl in Hi. specialize (IH i Hi). simpl in IH.
    replace (j + S i)%nat with (S j + i)%nat by lia.
    destruct (should_scrape p now); [|done].
    by destruct (run_task p (env j)) as [[portal' log] r].
Qed.

Lemma gather_length now env j portals :
  length (gather now env j portals).1.1 = length portals.
Proof.
  revert j. induction portals as [|p rest IH]; intros j; [done|].
  cbn [gather]. specialize (IH (S j)).
  destruct (gather now env (S j) rest) as [[rest' log_rest] results].
  destruct (should_scrape p now); [|simpl in *; by rewrite IH].
  destruct (run_task p (env j)) as [[portal' log] r]. simpl in *. by rewrite IH.
Qed.

Lemma scrape_all_portals_after (self : WinScopeIntelligenceNetwork.t) now env :
  portals (self_after (scrape_all_portals self now env))
  = (gather now env 0 (portals self)).1.1.
Proof.
  unfold scrape_all_portals.
  destruct (gather now env 0 (portals self)) as [[portals' log] results].
  by destruct (flatten results [] []).
Qed.

Lemma run_cycle_portals (self : WinScopeIntelligenceNetwork.t) f now env :
  portals (run_cycle self f now env)
  = portals (self_after (scrape_all_portals self now env)).
Proof.
  unfold run_cycle. by destruct (returned (scrape_all_portals self now env)).
Qed.

(** X12: a cycle keeps the registry: the same portals at the same positions with
    their names and base intervals, a portal that was not due being left
    exactly as it was. *)
Theorem cycle_keeps_registry (self : WinScopeIntelligenceNetwork.t)
    (now : datetime) (env : nat → external) :
  let after := portals (self_after (scrape_all_portals self now env)) in
  length after = length (portals self)
  ∧ ∀ i portal, portals self !! i = Some portal →
      ∃ portal', after !! i = Some portal'
        ∧ name portal' = name portal
        ∧ scrape_frequency_hours portal' = scrape_frequency_hours portal
        ∧ (should_scrape portal now = false → portal' = portal)
        ∧ (last_scrape portal' = last_scrape portal
           ∨ last_scrape portal' = Some (finished_at (env i))).
Proof.
  intros after. subst after. rewrite scrape_all_portals_after.
  split; [apply gather_length|].
  intros i portal Hi. rewrite (gather_lookup now env 0 _ i portal Hi). simpl.
  eexists. split; [reflexivity|].
  destruct (should_scrape portal now); [|by repeat split; auto].
  rewrite run_task_config.
  destruct (cancelled (env i)); [by repeat split; auto|].
  destruct (scrape_portal_registry portal (env i)) as [Hn Hf].
  split; [exact Hn|]. split; [exact Hf|]. split; [done|].
  unfold scrape_portal, CaliforniaEProcureScraper.scrape, SAMGovScraper.scrape,
    PortalScraper.scrape.
  repeat case_decide; repeat case_match; simplify_eq; simpl; auto.
Qed.

(** X13: a portal served by the base scraper, or SAM.gov without a key, is never
    marked as scraped: whatever the cycles that run, it stays as it was, and
    if it was never scraped it is due in every one of them. *)
Theorem unrecorded_portal_stays_due (self : WinScopeIntelligenceNetwork.t)
    (turns : list ((nat → Opportunity.t → Q) * datetime * (nat → external)))
    (i : nat) (portal : PortalConfig.t) :
  portals self !! i = Some portal → unrecorded portal = true →
  portals (run_cycles self turns) !! i = Some portal
  ∧ (last_scrape portal = None → ∀ now, should_scrape portal now = true).
Proof.
  intros Hi Hun. split.
  - revert self Hi. induction turns as [|[[f now] env] rest IH]; intros self Hi; [done|].
    cbn [run_cycles]. apply IH.
    rewrite run_cycle_portals, scrape_all_portals_after.
    rewrite (gather_lookup now env 0 _ i portal Hi).
    rewrite run_task_config, scrape_portal_unrecorded by done.
    by destruct (should_scrape portal now), (cancelled (env (0 + i)%nat)).
  - intros Hnone now. unfold should_scrape. by rewrite Hnone.
Qed.

Lemma unrecorded_portal_stays_due_witness :
  let turns := [(λ _ _, 70%Q, 0%Z, one_failure_env);
                (λ _ _, 70%Q, 3600000000%Z, one_failure_env)] in
  (portals three_portals !! 1%nat = Some generic_portal
   ∧ unrecorded generic_portal = true)
  ∧ portals (run_cycles three_portals turns) !! 1%nat = Some generic_portal.
Proof.
  intros turns.
  assert (H1 : portals three_portals !! 1%nat = Some generic_portal) by reflexivity.
  assert (H2 : unrecorded generic_portal = true) by reflexivity.
  split; [exact (conj H1 H2)|].
  exact (proj1 (unrecorded_portal_stays_due three_portals turns 1 generic_portal H1 H2)).
Defined.

Lemma collect_spec (parsed : list (result Opportunity.t)) :
  (SAMGovScraper.collect parsed).1 = omap parsed_ok parsed
  ∧ (length (SAMGovScraper.collect parsed).1
     + length (SAMGovScraper.collect parsed).2 = length parsed)%nat.
Proof.
  induction parsed as [|[opp|e] rest [IH1 IH2]]; [done| |];
    cbn [SAMGovScraper.collect omap parsed_ok];
    destruct (SAMGovScraper.collect rest) as [opps log]; simpl in *;
    (split; [by rewrite IH1 | lia]).
Qed.

(** X14: with a key, a scrape of SAM.gov that gets an answer always returns and
    marks the portal as scraped: on status 200 it returns the records that
    parsed, in their order, logs one line for each record that did not, and
    records the number returned as the yield; on any other status it returns
    nothing, logs one line and records a yield of zero. *)
Theorem sam_scrape_answer (config : PortalConfig.t) (ext : external) (key : string)
    (status : Z) (parsed : list (result Opportunity.t)) :
  api_key config = Some key → key ≠ ""%string → api ext = Response status parsed →
  let out := SAMGovScraper.scrape config ext in
  let opps := if decide (status = 200%Z) then omap parsed_ok parsed else [] in
  out.2 = Ok opps
  ∧ out.1.1 = set_scraped config (finished_at ext) (length opps)
  ∧ (status = 200%Z → (length opps + length out.1.2 = length parsed)%nat)
  ∧ (status ≠ 200%Z → length out.1.2 = 1%nat).
Proof.
  intros Hkey Hne Hapi out opps. subst out opps.
  unfold SAMGovScraper.scrape. rewrite Hkey, Hapi.
  destruct key as [|c key]; [done|].
  destruct (collect_spec parsed) as [Hc Hlen].
  destruct (decide (status = 200%Z)) as [->|Hs].
  - simpl. destruct (SAMGovScraper.collect parsed) as [os log]. simpl in *.
    subst os. split; [done|]. split; [done|]. split; [done|]. done.
  - apply Z.eqb_neq in Hs as Hs'. rewrite Hs'. simpl.
    split; [done|]. split; [done|]. split; [done|]. done.
Qed.

Lemma sam_scrape_answer_witness :
  (api_key sam_portal = Some "key"%string ∧ "key"%string ≠ ""%string
   ∧ api (one_failure_env 2)
     = Response 200 [Ok sam_opp; Raised (ValueError "Invalid isoformat string: ''")])
  ∧ (SAMGovScraper.scrape sam_portal (one_failure_env 2)).2 = Ok [sam_opp].
Proof.
  assert (H2 : "key"%string ≠ ""%string) by discriminate.
  split; [split; [reflexivity | split; [exact H2 | reflexivity]]|].
  exact (proj1 (sam_scrape_answer sam_portal (one_failure_env 2) "key" 200
                  [Ok sam_opp; Raised (ValueError "Invalid isoformat string: ''")]
                  eq_refl H2 eq_refl)).
Defined.

End MoreScheduling.

(** ** The learning ledger *)

Section MoreLearning.

Import LearningEngine LearningTables.

Lemma Qdiv_nonneg (a b : Q) : (0 <= a)%Q → (0 < b)%Q → (0 <= a / b)%Q.
Proof.
  intros Ha Hb. apply Qle_shift_div_l; [exact Hb|]. lra.
Qed.

Lemma error_pct_nonneg (estimated actual e : Q) :
  error_pct estimated actual = Ok e → (0 <= e)%Q.
Proof.
  unfold error_pct. destruct (Qltb 0 actual) eqn:E.
  - apply Qltb_lt in E. rewrite py_div_nonzero by lra. simpl.
    intros [= <-].
    assert (H : (0 <= Qabs (estimated - actual) / actual)%Q)
      by (apply Qdiv_nonneg; [apply Qabs_nonneg | exact E]).
    apply Qmult_le_0_compat; [exact H | by (unfold Qle; simpl; lia)].
  - intros [= <-]. lra.
Qed.

Lemma record_pricing_accuracy_step (self : LearningEngine.t) description estimated
    actual source now :
  ∃ e, record_pricing_accuracy self description estimated actual source now
       = Ok (mk (pricing_accuracy self ++
                   [mk_pricing_row (last_rowid self + 1) description estimated actual
                      e source now])
                (last_rowid self + 1))
       ∧ (0 <= e)%Q.
Proof.
  unfold record_pricing_accuracy.
  destruct (error_pct estimated actual) as [e|x] eqn:E.
  - exists e. split; [done|]. by apply error_pct_nonneg in E.
  - exfalso. unfold error_pct in E. destruct (Qltb 0 actual) eqn:E0; [|done].
    apply Qltb_lt in E0. rewrite py_div_nonzero in E by lra. done.
Qed.

(** X15: recording any series of pricing observations never fails and only
    appends: the rows already there are kept, one row is added for each
    observation, in order, with consecutive identifiers, and no stored error
    percentage is negative. *)
Theorem pricing_ledger_append_only (self : LearningEngine.t) (obs : list observation) :
  ∃ self' added,
    record_all self obs = Ok self'
    ∧ pricing_accuracy self' = pricing_accuracy self ++ added
    ∧ last_rowid self' = (last_rowid self + Z.of_nat (length obs))%Z
    ∧ map row_id added
      = map (λ k, (last_rowid self + 1 + Z.of_nat k)%Z) (seq 0 (length obs))
    ∧ map estimated_price added = map obs_estimated obs
    ∧ map actual_price added = map obs_actual obs
    ∧ Forall (λ r, (0 <= error_percentage r)%Q) added.
Proof.
  revert self. induction obs as [|o rest IH]; intros self.
  - exists self, []. rewrite app_nil_r. simpl. repeat split; try done. lia.
  - cbn [record_all].
    destruct (record_pricing_accuracy_step self (obs_description o) (obs_estimated o)
                (obs_actual o) (obs_source o) (obs_time o)) as (e & -> & He).
    cbn [mbind result_bind].
    destruct (IH (mk (pricing_accuracy self ++
                        [mk_pricing_row (last_rowid self + 1) (obs_description o)
                           (obs_estimated o) (obs_actual o) e (obs_source o) (obs_time o)])
                     (last_rowid self + 1)))
      as (self' & added & Hrun & Hrows & Hlast & Hids & Hest & Hact & Herr).
    simpl in Hrows, Hlast, Hids.
    exists self', (mk_pricing_row (last_rowid self + 1) (obs_description o)
                     (obs_estimated o) (obs_actual o) e (obs_source o) (obs_time o)
                   :: added).
    split; [exact Hrun|]. split; [by rewrite Hrows, <- app_assoc|].
    split; [rewrite Hlast; simpl; lia|]. split.
    { cbn [map length seq]. f_equal; [simpl; lia|].
      rewrite Hids, <- seq_shift, map_map. apply map_ext. intros k. lia. }
    split; [simpl; by rewrite Hest|]. split; [simpl; by rewrite Hact|].
    by constructor.
Qed.

Lemma sum_between (a b : Q) (xs : list Q) :
  Forall (λ x, (a <= x)%Q ∧ (x <= b)%Q) xs →
  (inject_Z (Z.of_nat (length xs)) * a <= fold_right Qplus 0 xs)%Q
  ∧ (fold_right Qplus 0 xs <= inject_Z (Z.of_nat (length xs)) * b)%Q.
Proof.
  induction 1 as [|x xs [Hx1 Hx2] _ [IH1 IH2]].
  - cbn [length fold_right]. change (inject_Z (Z.of_nat 0)) with 0%Q. split; lra.
  - cbn [length fold_right]. rewrite Nat2Z.inj_succ, <- Z.add_1_r, inject_Z_plus.
    change (inject_Z 1) with 1%Q. split; lra.
Qed.

Lemma or_default_zero (x : option Q) : (or_default x 0 == default 0 x)%Q.
Proof.
  destruct x as [v|]; simpl; [|done].
  destruct (Qeq_bool v 0) eqn:E; [|done].
  apply Qeq_bool_eq in E. by rewrite E.
Qed.

(** X16: the average pricing error is the mean of the error percentages of the
    recent rows and zero when there is none; it lies between the smallest
    and the largest of them. *)
Theorem average_pricing_error_between (self : LearningEngine.t)
    (recent : datetime → bool) (a b : Q) :
  let errors :=
    map error_percentage
      (List.filter (λ r, recent (LearningEngine.created_at r)) (pricing_accuracy self)) in
  Forall (λ x, (a <= x)%Q ∧ (x <= b)%Q) errors →
  (errors = [] → get_average_pricing_error self recent = 0%Q)
  ∧ (errors ≠ [] →
       (get_average_pricing_error self recent
        == fold_right Qplus 0 errors / inject_Z (Z.of_nat (length errors)))%Q
       ∧ (a <= get_average_pricing_error self recent)%Q
       ∧ (get_average_pricing_error self recent <= b)%Q).
Proof.
  intros errors Hall. unfold get_average_pricing_error. fold errors.
  split; [by intros ->|]. intros Hne.
  assert (Hlen : (0 < inject_Z (Z.of_nat (length errors)))%Q).
  { destruct errors; [done|]. unfold Qlt. simpl. lia. }
  assert (Havg : (or_default (sql_avg errors) 0
                  == fold_right Qplus 0 errors / inject_Z (Z.of_nat (length errors)))%Q).
  { rewrite or_default_zero. by destruct errors. }
  split; [exact Havg|]. rewrite Havg.
  destruct (sum_between a b errors Hall) as [Hlow Hhigh]. split.
  - apply Qle_shift_div_l; [exact Hlen|]. lra.
  - apply Qle_shift_div_r; [exact Hlen|]. lra.
Qed.

Lemma average_pricing_error_between_witness :
  let self := mk [mk_pricing_row 1 "belt" 1100 1000 10 "quote" 0%Z;
                  mk_pricing_row 2 "motor" 900 1000 20 "quote" 5%Z] 2 in
  Forall (λ x, (10 <= x)%Q ∧ (x <= 20)%Q) [10%Q; 20%Q]
  ∧ (10 <= get_average_pricing_error self (λ _, true))%Q
  ∧ (get_average_pricing_error self (λ _, true) <= 20)%Q.
Proof.
  intros self.
  assert (H : Forall (λ x, (10 <= x)%Q ∧ (x <= 20)%Q) [10%Q; 20%Q]).
  { repeat constructor; unfold Qle; simpl; lia. }
  split; [exact H|].
  destruct (average_pricing_error_between self (λ _, true) 10 20 H) as [_ Hsome].
  apply Hsome. discriminate.
Defined.

Lemma ratio_range (hits total : nat) :
  (hits <= total)%nat → (0 < total)%nat →
  (0 <= inject_Z (Z.of_nat hits) / inject_Z (Z.of_nat total))%Q
  ∧ (inject_Z (Z.of_nat hits) / inject_Z (Z.of_nat total) <= 1)%Q.
Proof.
  intros Hle Hpos.
  assert (Ht : (0 < inject_Z (Z.of_nat total))%Q) by (unfold Qlt; simpl; lia).
  assert (Hh : (0 <= inject_Z (Z.of_nat hits))%Q) by (unfold Qle; simpl; lia).
  assert (Hht : (inject_Z (Z.of_nat hits) <= inject_Z (Z.of_nat total))%Q)
    by (unfold Qle; simpl; lia).
  split.
  - by apply Qdiv_nonneg.
  - apply Qle_shift_div_r; [exact Ht|]. lra.
Qed.

Lemma ratio_positive (hits total : nat) :
  (0 < hits)%nat → (0 < total)%nat →
  (0 < inject_Z (Z.of_nat hits) / inject_Z (Z.of_nat total))%Q.
Proof.
  intros Hh Ht. apply Qlt_shift_div_l.
  - unfold Qlt. simpl. lia.
  - rewrite Qmult_0_l. unfold Qlt. simpl. lia.
Qed.

Lemma filter_length_le {A : Type} (f : A → bool) (l : list A) :
  (length (List.filter f l) <= length l)%nat.
Proof. induction l as [|x l IH]; simpl; [done|]. destruct (f x); simpl; lia. Qed.

(** X17: the automation success rate of a stage is the share of its recent runs
    that succeeded when at least one did, and 1 otherwise: a stage without
    recent runs and a stage all of whose recent runs failed both report 1,
    and the rate is never zero. *)
Theorem automation_success_rate_never_zero (automation_metrics : list automation_row)
    (recent : datetime → bool) (s : string) :
  let runs :=
    List.filter (λ r, bool_decide (stage r = s) && recent (metric_created_at r))
      automation_metrics in
  let ok := List.filter success runs in
  (ok = [] → get_automation_success_rate automation_metrics recent s = 1%Q)
  ∧ (ok ≠ [] →
       get_automation_success_rate automation_metrics recent s
       = (inject_Z (Z.of_nat (length ok)) / inject_Z (Z.of_nat (length runs)))%Q)
  ∧ (0 < get_automation_success_rate automation_metrics recent s)%Q
  ∧ (get_automation_success_rate automation_metrics recent s <= 1)%Q.
Proof.
  intros runs ok. unfold get_automation_success_rate. fold runs. fold ok.
  assert (Hle : (length ok <= length runs)%nat) by apply filter_length_le.
  destruct ok as [|r0 ok0] eqn:Eok.
  - assert (Hone : or_default (sql_ratio 0 (length runs)) 1 = 1%Q).
    { unfold sql_ratio. destruct (length runs); [done|]. reflexivity. }
    simpl length. rewrite Hone. split; [done|]. split; [done|]. split; lra.
  - set (n := length (r0 :: ok0)) in *.
    assert (Hn : (0 < n)%nat) by (subst n; simpl; lia).
    assert (Hruns : (0 < length runs)%nat) by lia.
    assert (Hpos := ratio_positive n (length runs) Hn Hruns).
    assert (Hrange := ratio_range n (length runs) Hle Hruns).
    assert (Hval : or_default (sql_ratio n (length runs)) 1
                   = (inject_Z (Z.of_nat n) / inject_Z (Z.of_nat (length runs)))%Q).
    { unfold sql_ratio, or_default. destruct (length runs) eqn:El; [lia|].
      match goal with
      | |- context [Qeq_bool ?x 0] => destruct (Qeq_bool x 0) eqn:E; [|done]
      end.
      apply Qeq_bool_eq in E. rewrite E in Hpos. by apply Qlt_irrefl in Hpos. }
    rewrite Hval. split; [done|]. split; [done|]. split; [done | apply Hrange].
Qed.

End MoreLearning.

(** ** Win and loss history *)

Section WinLoss.

Import LearningTables.

Lemma Qdiv_le_cross (a b c d : Z) :
  (0 < b)%Z → (0 < d)%Z → (a * d <= c * b)%Z →
  (inject_Z a / inject_Z b <= inject_Z c / inject_Z d)%Q.
Proof.
  intros Hb Hd H. destruct b as [|b|b], d as [|d|d]; try lia.
  unfold Qle, Qdiv, Qmult, Qinv. simpl. nia.
Qed.

Lemma ratio_or_zero_win (w n : nat) :
  (w <= n)%nat → (ratio_or_zero w n <= ratio_or_zero (S w) (S n))%Q.
Proof.
  intros Hle. unfold ratio_or_zero. destruct n as [|n].
  - apply Qdiv_nonneg; unfold Qle, Qlt; simpl; lia.
  - apply Qdiv_le_cross; lia.
Qed.

Lemma ratio_or_zero_loss (w n : nat) :
  (w <= n)%nat → (ratio_or_zero w (S n) <= ratio_or_zero w n)%Q.
Proof.
  intros Hle. unfold ratio_or_zero. destruct n as [|n].
  - assert (w = 0%nat) as -> by lia. unfold Qle. simpl. lia.
  - apply Qdiv_le_cross; lia.
Qed.

Lemma win_rate_value (history : list win_loss_row) (a : string) :
  (get_win_rate_by_agency history a
   == ratio_or_zero (length (wins_of (decided_for a history)))
        (length (decided_for a history)))%Q.
Proof.
  unfold get_win_rate_by_agency. fold (decided_for a history).
  fold (wins_of (decided_for a history)).
  rewrite or_default_zero. unfold sql_ratio, ratio_or_zero.
  by destruct (length (decided_for a history)).
Qed.

Lemma decided_for_app (a : string) (h1 h2 : list win_loss_row) :
  decided_for a (h1 ++ h2) = decided_for a h1 ++ decided_for a h2.
Proof. unfold decided_for. apply List.filter_app. Qed.

Lemma wins_of_app (h1 h2 : list win_loss_row) :
  wins_of (h1 ++ h2) = wins_of h1 ++ wins_of h2.
Proof. unfold wins_of. apply List.filter_app. Qed.

Lemma wins_le_decided (rows : list win_loss_row) :
  (length (wins_of rows) <= length rows)%nat.
Proof. apply filter_length_le. Qed.

(** X18: the win rate of an agency is the share of wins among its rows that are
    won or lost, zero when it has none; it lies between 0 and 1. *)
Theorem win_rate_is_share_of_wins (history : list win_loss_row) (a : string) :
  let decided := decided_for a history in
  let won := wins_of decided in
  (decided = [] → get_win_rate_by_agency history a = 0%Q)
  ∧ (decided ≠ [] →
       (get_win_rate_by_agency history a
        == inject_Z (Z.of_nat (length won)) / inject_Z (Z.of_nat (length decided)))%Q)
  ∧ (0 <= get_win_rate_by_agency history a)%Q
  ∧ (get_win_rate_by_agency history a <= 1)%Q.
Proof.
  intros decided won.
  pose proof (win_rate_value history a) as Hval. fold decided in Hval. fold won in Hval.
  pose proof (wins_le_decided decided) as Hle. fold won in Hle.
  split; [|split].
  - intros He. unfold get_win_rate_by_agency. fold (decided_for a history).
    fold decided. by rewrite He.
  - intros Hne. rewrite Hval. unfold ratio_or_zero.
    destruct decided; [done | reflexivity].
  - rewrite Hval. unfold ratio_or_zero. destruct (length decided) eqn:E.
    + split; lra.
    + rewrite <- E. apply ratio_range; lia.
Qed.

Lemma stage_value_won (s : OpportunityStage) :
  String.eqb (stage_value s) "won" = bool_decide (s = WON).
Proof. by destruct s. Qed.

Lemma stage_value_lost (s : OpportunityStage) :
  String.eqb (stage_value s) "lost" = bool_decide (s = LOST).
Proof. by destruct s. Qed.

(** X19: recording an outcome appends one row.  A win never lowers the win rate
    of its agency and a loss never raises it; an outcome in any other stage
    leaves every win rate as it was, and the win rates of the other agencies
    never move. *)
Theorem recording_outcome_moves_win_rate (history history' : list win_loss_row)
    (record : OpportunityRecord.t) (now : datetime) :
  record_win_loss history record now = Ok history' →
  let a := OpportunityRecord.agency record in
  length history' = S (length history)
  ∧ (∀ b, b ≠ a → get_win_rate_by_agency history' b = get_win_rate_by_agency history b)
  ∧ (OpportunityRecord.stage record = WON →
       (get_win_rate_by_agency history a <= get_win_rate_by_agency history' a)%Q)
  ∧ (OpportunityRecord.stage record = LOST →
       (get_win_rate_by_agency history' a <= get_win_rate_by_agency history a)%Q)
  ∧ (OpportunityRecord.stage record ≠ WON → OpportunityRecord.stage record ≠ LOST →
       get_win_rate_by_agency history' a = get_win_rate_by_agency history a).
Proof.
  unfold record_win_loss.
  destruct (decide (OpportunityRecord.id record ∈ map id history)); [done|].
  intros H. injection H as <-. set (a := OpportunityRecord.agency record).
  set (row := mk_win_loss_row _ _ _ _ _ _ _ _ _ _ _ _).
  assert (Hother : ∀ b, b ≠ a → decided_for b (history ++ [row]) = decided_for b history).
  { intros b Hb. rewrite decided_for_app. unfold decided_for at 2. simpl.
    rewrite bool_decide_eq_false_2 by (subst a; congruence). simpl.
    by rewrite app_nil_r. }
  assert (Hrate : ∀ b h h', decided_for b h' = decided_for b h →
            get_win_rate_by_agency h' b = get_win_rate_by_agency h b).
  { intros b h h' Hd. unfold get_win_rate_by_agency.
    fold (decided_for b h). fold (decided_for b h'). by rewrite Hd. }
  split; [rewrite length_app; simpl; lia|].
  split; [intros b Hb; by apply Hrate, Hother|].
  assert (Hown : decided_for a (history ++ [row])
                 = decided_for a history
                   ++ (if bool_decide (OpportunityRecord.stage record = WON)
                          || bool_decide (OpportunityRecord.stage record = LOST)
                       then [row] else [])).
  { rewrite decided_for_app. f_equal. unfold decided_for. simpl.
    rewrite bool_decide_eq_true_2 by done.
    by rewrite stage_value_won, stage_value_lost. }
  pose proof (wins_le_decided (decided_for a history)) as Hle.
  split; [|split].
  - intros Hwon. rewrite !win_rate_value, Hown, Hwon. simpl.
    rewrite wins_of_app, !length_app.
    assert (Hw : wins_of [row] = [row]).
    { unfold wins_of. simpl. by rewrite stage_value_won, Hwon. }
    rewrite Hw. simpl. rewrite !Nat.add_1_r. by apply ratio_or_zero_win.
  - intros Hlost. rewrite !win_rate_value, Hown, Hlost. simpl.
    rewrite wins_of_app, !length_app.
    assert (Hw : wins_of [row] = []).
    { unfold wins_of. simpl. by rewrite stage_value_won, Hlost. }
    rewrite Hw. simpl. rewrite Nat.add_0_r, Nat.add_1_r. by apply ratio_or_zero_loss.
  - intros Hnw Hnl. apply Hrate. rewrite Hown.
    rewrite !bool_decide_eq_false_2 by done. simpl. by rewrite app_nil_r.
Qed.

Lemma recording_outcome_moves_win_rate_witness :
  let record := OpportunityRecord.set_stage advanced_record WON in
  ∃ history',
    record_win_loss [] record 0%Z = Ok history'
    ∧ length history' = 1%nat
    ∧ (get_win_rate_by_agency [] "DoD" <= get_win_rate_by_agency history' "DoD")%Q.
Proof.
  intros record. eexists. split; [reflexivity|].
  destruct (recording_outcome_moves_win_rate [] _ record 0%Z eq_refl)
    as (Hlen & _ & Hwin & _).
  split; [exact Hlen|]. by apply Hwin.
Defined.

(** X20: the outcome of an opportunity is recorded once: a second recording for
    the same identity is refused, so identities stay distinct in the
    table. *)
Theorem win_loss_recorded_once (history history' : list win_loss_row)
    (record : OpportunityRecord.t) (now : datetime) :
  record_win_loss history record now = Ok history' → NoDup (map id history) →
  NoDup (map id history')
  ∧ (∀ record' now', OpportunityRecord.id record' = OpportunityRecord.id record →
       record_win_loss history' record' now' = Raised IntegrityError)
  ∧ (∀ old record' now', old ∈ history → OpportunityRecord.id record' = id old →
       record_win_loss history record' now' = Raised IntegrityError).
Proof.
  unfold record_win_loss.
  destruct (decide (OpportunityRecord.id record ∈ map id history)) as [|Hnew]; [done|].
  intros [= <-] Hnd. split; [|split].
  - rewrite map_app. simpl. apply NoDup_app. split; [done|]. split.
    + intros i Hi Hi'. apply list_elem_of_singleton in Hi'. by subst i.
    + apply NoDup_singleton.
  - intros record' now' Hid. rewrite decide_True; [done|].
    rewrite map_app, Hid. simpl. apply elem_of_app. right. apply list_elem_of_here.
  - intros old record' now' Hold Hid. rewrite decide_True; [done|].
    rewrite Hid. by apply list_elem_of_fmap_2.
Qed.

Lemma win_loss_recorded_once_witness :
  ∃ history',
    (record_win_loss [] advanced_record 0%Z = Ok history'
     ∧ NoDup (map id ([] : list win_loss_row)))
    ∧ record_win_loss history' advanced_record 5%Z = Raised IntegrityError.
Proof.
  eexists. assert (Hnd : NoDup (map id ([] : list win_loss_row))) by constructor.
  split; [split; [reflexivity | exact Hnd]|].
  destruct (win_loss_recorded_once [] _ advanced_record 0%Z eq_refl Hnd)
    as (_ & Hagain & _).
  by apply Hagain.
Defined.

End WinLoss.

(** ** More on the pipeline store *)

Section MorePipeline.

Import WinScopeMasterOrchestrator.

Local Abbreviation ids l := (map Opportunity.id l).

Lemma process_each_other (self : WinScopeMasterOrchestrator.t)
    (opps : list Opportunity.t) (clock : nat → datetime) (k : nat) (i : string) :
  i ∉ ids opps →
  pipeline (process_each self opps clock k) !! i = pipeline self !! i
  ∧ opportunities_table (process_each self opps clock k) !! i
    = opportunities_table self !! i.
Proof.
  revert self k. induction opps as [|opp rest IH]; intros self k Hi; [done|].
  cbn [process_each]. simpl in Hi. apply not_elem_of_cons in Hi as [Hne Hi].
  destruct (IH (_process_opportunity self opp (clock k)) (S k) Hi) as [-> ->].
  rewrite process_opportunity_spec. simpl. by rewrite !lookup_insert_ne.
Qed.

Lemma process_each_in (self : WinScopeMasterOrchestrator.t)
    (opps : list Opportunity.t) (clock : nat → datetime) (k : nat) (i : string) :
  i ∈ ids opps →
  ∃ opp j, opp ∈ opps ∧ Opportunity.id opp = i
           ∧ pipeline (process_each self opps clock k) !! i
             = Some (processed_record opp (clock j)).
Proof.
  revert self k. induction opps as [|opp rest IH]; intros self k Hi.
  - by apply elem_of_nil in Hi.
  - cbn [process_each].
    destruct (decide (i ∈ ids rest)) as [Hrest|Hrest].
    + destruct (IH (_process_opportunity self opp (clock k)) (S k) Hrest)
        as (o & j & Ho & Hid & Hlook).
      exists o, j. split; [by apply elem_of_cons; right|]. done.
    + simpl in Hi. apply elem_of_cons in Hi as [->|Hi]; [|done].
      exists opp, k. split; [apply list_elem_of_here|]. split; [done|].
      destruct (process_each_other (_process_opportunity self opp (clock k)) rest
                  clock (S k) _ Hrest) as [-> _].
      rewrite process_opportunity_spec. simpl. by rewrite lookup_insert_eq.
Qed.

Lemma process_each_dom (self : WinScopeMasterOrchestrator.t)
    (opps : list Opportunity.t) (clock : nat → datetime) (k : nat) :
  dom (pipeline (process_each self opps clock k))
  = dom (pipeline self) ∪ list_to_set (ids opps).
Proof.
  revert self k. induction opps as [|opp rest IH]; intros self k.
  - simpl. set_solver.
  - cbn [process_each]. rewrite IH, process_opportunity_spec. simpl.
    rewrite dom_insert_L. set_solver.
Qed.

Lemma elem_of_qualify (self : WinScopeMasterOrchestrator.t)
    (scored : list Opportunity.t) (opp : Opportunity.t) :
  opp ∈ _qualify_opportunities self scored
  ↔ opp ∈ scored
    ∧ (min_match_score (self_config self) <= Opportunity.match_score opp)%Q.
Proof.
  unfold _qualify_opportunities.
  by rewrite list_elem_of_In, filter_In, <- list_elem_of_In, Qle_bool_iff.
Qed.

(** X21: one turn of qualification and processing handles the first
    [max_concurrent_processing] opportunities that meet the threshold and no
    other: each of them ends with a record at [RFQ_GENERATED] under its
    identity, and every other identity keeps what the pipeline held for it,
    so a qualified opportunity beyond the cap gets no record in this turn. *)
Theorem qualify_and_process_caps (self : WinScopeMasterOrchestrator.t)
    (scored : list Opportunity.t) (clock : nat → datetime) :
  let cap := max_concurrent_processing (self_config self) in
  let chosen := slice_to cap (_qualify_opportunities self scored) in
  let after := qualify_and_process self scored clock in
  ((0 <= cap)%Z → (Z.of_nat (length chosen) <= cap)%Z)
  ∧ (∀ opp, opp ∈ chosen →
       opp ∈ scored
       ∧ (min_match_score (self_config self) <= Opportunity.match_score opp)%Q)
  ∧ dom (pipeline after) = dom (pipeline self) ∪ list_to_set (ids chosen)
  ∧ (∀ i, i ∉ ids chosen → pipeline after !! i = pipeline self !! i)
  ∧ (∀ i, i ∈ ids chosen →
       ∃ opp r, opp ∈ chosen ∧ Opportunity.id opp = i
                ∧ pipeline after !! i = Some r
                ∧ OpportunityRecord.stage r = RFQ_GENERATED
                ∧ OpportunityRecord.match_score r = Opportunity.match_score opp).
Proof.
  intros cap chosen after. subst after. unfold qualify_and_process.
  fold cap. fold chosen.
  split; [|split; [|split; [|split]]].
  - intros Hcap. subst chosen. unfold slice_to.
    assert (E : (0 <=? cap)%Z = true) by by apply Z.leb_le.
    rewrite E, length_take. lia.
  - intros opp Hin. apply elem_of_qualify.
    by apply elem_of_slice_to in Hin.
  - apply process_each_dom.
  - intros i Hi. by destruct (process_each_other self chosen clock 0 i Hi).
  - intros i Hi.
    destruct (process_each_in self chosen clock 0 i Hi) as (opp & j & Ho & Hid & Hlook).
    exists opp, (processed_record opp (clock j)). by repeat split.
Qed.

Lemma process_keeps_consistent (self : WinScopeMasterOrchestrator.t)
    (opp : Opportunity.t) (now : datetime) :
  consistent self → consistent (_process_opportunity self opp now).
Proof.
  intros [Hdom Hrec]. rewrite process_opportunity_spec. split.
  - simpl. by rewrite !dom_insert_L, Hdom.
  - intros i r. simpl.
    destruct (decide (Opportunity.id opp = i)) as [<-|Hne].
    + rewrite !lookup_insert_eq. intros [= <-]. split; [done|].
      eexists. split; [reflexivity|]. by repeat split.
    + rewrite !lookup_insert_ne by done. apply Hrec.
Qed.

(** X22: processing keeps the pipeline and the table in step: starting from
    agreeing stores, after any series of processed opportunities both hold
    the same identities, and each row carries the record, the stage and the
    score that the pipeline holds. *)
Theorem processing_keeps_stores_in_step (self : WinScopeMasterOrchestrator.t)
    (opps : list Opportunity.t) (clock : nat → datetime) (k : nat) :
  consistent self → consistent (process_each self opps clock k).
Proof.
  revert self k. induction opps as [|opp rest IH]; intros self k Hc; [done|].
  cbn [process_each]. apply IH. by apply process_keeps_consistent.
Qed.

Lemma processing_keeps_stores_in_step_witness :
  let empty := WinScopeMasterOrchestrator.mk config ∅ ∅ in
  consistent empty
  ∧ consistent (process_each empty [boundary_opp; ca_opp; boundary_opp] (λ _, 0%Z) 0).
Proof.
  intros empty.
  assert (H : consistent empty).
  { split; [done|]. intros i r Hi. simpl in Hi. by rewrite lookup_empty in Hi. }
  split; [exact H|].
  exact (processing_keeps_stores_in_step empty _ (λ _, 0%Z) 0 H).
Defined.

Lemma generate_proposal_cases (record : OpportunityRecord.t) (written : result unit) :
  match written with
  | Ok _ =>
      _generate_proposal_for_opportunity record written
      = OpportunityRecord.set_stage
          (OpportunityRecord.set_proposal_document_path record
             ("/home/claude/outputs/proposals/" ++ OpportunityRecord.id record
              ++ "_proposal.txt")%string)
          PROPOSAL_GENERATED
  | Raised _ => _generate_proposal_for_opportunity record written = record
  end.
Proof. by destruct written. Qed.

(** X23: a cycle of the orchestrator, as the source stands, creates no record and
    never writes the table: it only moves the records at [QUOTES_RECEIVED]
    whose proposal file could be written to [PROPOSAL_GENERATED], setting
    their proposal path, and leaves every other record as it was; no stage
    moves backwards, and the rows of the moved records keep the old stage. *)
Theorem run_pipeline_cycle_only_generates (self : WinScopeMasterOrchestrator.t)
    (clock : nat → datetime) (writes : string → result unit) :
  let after := run_pipeline_cycle self clock writes in
  opportunities_table after = opportunities_table self
  ∧ dom (pipeline after) = dom (pipeline self)
  ∧ ∀ i r, pipeline self !! i = Some r →
      ∃ r', pipeline after !! i = Some r'
        ∧ OpportunityRecord.id r' = OpportunityRecord.id r
        ∧ (stage_index (OpportunityRecord.stage r)
           <= stage_index (OpportunityRecord.stage r'))%nat
        ∧ (OpportunityRecord.stage r ≠ QUOTES_RECEIVED → r' = r)
        ∧ (∀ e, writes (OpportunityRecord.id r) = Raised e → r' = r)
        ∧ (OpportunityRecord.stage r = QUOTES_RECEIVED →
           writes (OpportunityRecord.id r) = Ok tt →
           OpportunityRecord.stage r' = PROPOSAL_GENERATED
           ∧ OpportunityRecord.proposal_document_path r'
             = Some ("/home/claude/outputs/proposals/" ++ OpportunityRecord.id r
                     ++ "_proposal.txt")%string).
Proof.
  intros after. subst after. unfold run_pipeline_cycle, qualify_and_process.
  assert (Hnone : slice_to (max_concurrent_processing (self_config self))
                    (_qualify_opportunities self []) = []).
  { unfold slice_to. simpl. by destruct (0 <=? _)%Z; rewrite take_nil. }
  rewrite Hnone. cbn [process_each]. unfold generate_ready_proposals. simpl.
  split; [done|]. split; [apply dom_fmap_L|].
  intros i r Hi. rewrite lookup_fmap, Hi. simpl. eexists. split; [reflexivity|].
  destruct (decide (OpportunityRecord.stage r = QUOTES_RECEIVED)) as [Hs|Hs].
  - pose proof (generate_proposal_cases r (writes (OpportunityRecord.id r))) as Hcase.
    destruct (writes (OpportunityRecord.id r)) as [[]|e].
    + rewrite Hcase. simpl. rewrite Hs. simpl.
      split; [done|]. split; [lia|]. split; [done|]. split; [done|]. done.
    + rewrite Hcase. split; [done|]. split; [lia|]. split; [done|]. split; [done|].
      done.
  - split; [done|]. split; [lia|]. split; [done|]. split; [done|]. done.
Qed.

End MorePipeline.

(** ** Extraction by the California scraper *)

Section Extraction.

Import CaliforniaEProcureScraper.

Lemma post_init_fresh (o : Opportunity.t) :
  Opportunity.id o = ""%string →
  Opportunity.post_init o = Opportunity.set_id o (Opportunity.generate_id o).
Proof. intros H. unfold Opportunity.post_init. by rewrite decide_True. Qed.

Lemma extract_row_shape (config : PortalConfig.t) (page : results_page)
    (i n : nat) (r : table_row) (opp : Opportunity.t) :
  extract_row config page i n r = Some (Ok opp) → extracted_for config opp.
Proof.
  unfold extract_row. destruct (title_elem r) as [title|]; [|done].
  destruct (OpportunityScorer.falsy (link_href r ≫= id)).
  - intros [= <-]. rewrite post_init_fresh by done. by repeat split.
  - destruct (detail r) as [d|e]; [|done].
    intros [= <-]. rewrite post_init_fresh by done. by repeat split.
Qed.

Lemma extract_row_untitled (config : PortalConfig.t) (page : results_page)
    (i n : nat) (r : table_row) :
  extract_row config page i n r = None ↔ untitled (RowRead r) = true.
Proof.
  unfold extract_row, untitled. destruct (title_elem r) as [title|]; [|done].
  destruct (OpportunityScorer.falsy _); [done|]. by destruct (detail r).
Qed.

Lemma extract_rows_spec (config : PortalConfig.t) (page : results_page)
    (rs : list row_run) (i : nat) (opps : list Opportunity.t) (log : list string) :
  ∃ added lines,
    extract_rows config page rs i opps log = (opps ++ added, log ++ lines)
    ∧ (length added + length lines + length (List.filter untitled rs)
       = length rs)%nat
    ∧ Forall (extracted_for config) added.
Proof.
  revert i opps log. induction rs as [|run rest IH]; intros i opps log.
  - exists [], []. by rewrite !app_nil_r.
  - cbn [extract_rows List.filter].
    destruct run as [e|r].
    + destruct (IH (S i) opps (log ++ ["Error extracting opportunity from row: " ++ str e]%string))
        as (added & lines & -> & Hlen & Hall).
      exists added, (("Error extracting opportunity from row: " ++ str e)%string :: lines).
      rewrite <- app_assoc. split; [done|]. split; [simpl in *; lia | done].
    + pose proof (extract_row_untitled config page i (length opps) r) as Hu.
      pose proof (extract_row_shape config page i (length opps) r) as Hs.
      destruct (extract_row config page i (length opps) r) as [[opp|e]|].
      * destruct (IH (S i) (opps ++ [opp]) log) as (added & lines & -> & Hlen & Hall).
        exists (opp :: added), lines. rewrite <- app_assoc.
        assert (Hf : untitled (RowRead r) = false).
        { apply not_true_is_false. intros Hf. by apply Hu in Hf. }
        rewrite Hf. split; [done|]. split; [simpl in *; lia|].
        constructor; [by apply Hs | done].
      * destruct (IH (S i) opps
                    (log ++ ["Error extracting opportunity from row: " ++ str e]%string))
          as (added & lines & -> & Hlen & Hall).
        exists added, (("Error extracting opportunity from row: " ++ str e)%string :: lines).
        rewrite <- app_assoc.
        assert (Hf : untitled (RowRead r) = false).
        { apply not_true_is_false. intros Hf. by apply Hu in Hf. }
        rewrite Hf. split; [done|]. split; [simpl in *; lia | done].
      * destruct (IH (S i) opps log) as (added & lines & -> & Hlen & Hall).
        exists added, lines.
        assert (Hf : untitled (RowRead r) = true) by by apply Hu.
        rewrite Hf. split; [done|]. split; [simpl in *; lia | done].
Qed.

(** X24: whatever the page shows, every row is accounted for: it yields an
    opportunity, or one logged line, or it had no title and is passed over in
    silence.  Every opportunity extracted carries the name and the codes of
    the portal, the location "California", no value and no set-aside, and an
    identity generated from its portal and solicitation number. *)
Theorem extraction_accounts_for_rows (config : PortalConfig.t) (page : results_page)
    (rs : list row_run) (opps : list Opportunity.t) (log : list string) :
  rows page = Ok rs →
  _extract_opportunities config page = Ok (opps, log) →
  Forall (extracted_for config) opps
  ∧ (OpportunityScorer.falsy (PortalConfig.selectors config !! "opportunity_rows"%string)
     = true → opps = [] ∧ log = [])
  ∧ (OpportunityScorer.falsy (PortalConfig.selectors config !! "opportunity_rows"%string)
     = false →
     (length opps + length log + length (List.filter untitled rs) = length rs)%nat).
Proof.
  intros Hrows. unfold _extract_opportunities. rewrite Hrows.
  destruct (OpportunityScorer.falsy _).
  - intros [= <- <-]. by repeat split.
  - cbn [mbind result_bind].
    destruct (extract_rows_spec config page rs 0 [] []) as (added & lines & -> & Hlen & Hall).
    intros [= <- <-]. by repeat split.
Qed.

Lemma extraction_accounts_for_rows_witness :
  ∃ rs opps log,
    (rows two_row_page = Ok rs
     ∧ _extract_opportunities california_with_rows two_row_page = Ok (opps, log))
    ∧ Forall (extracted_for california_with_rows) opps
    ∧ length opps = 1%nat.
Proof.
  eexists _, _, _. split; [split; reflexivity|].
  split; [|reflexivity].
  exact (proj1 (extraction_accounts_for_rows california_with_rows two_row_page _ _ _
                  eq_refl eq_refl)).
Defined.

End Extraction.

(** ** From extraction to qualification *)

Section ExtractedScore.

Import OpportunityScorer.

(** X25: an opportunity as the California scraper extracts it, for a portal that
    shares a code with the profile, scores between 57.5 and 82.5 under the
    default profile, whatever its text and whatever the judgment service
    does: it always passes the default qualification threshold. *)
Theorem extracted_opportunity_qualifies (self : OpportunityScorer.t)
    (orch : WinScopeMasterOrchestrator.t) (config : PortalConfig.t)
    (opp : Opportunity.t) (c : string) :
  self_profile self = company_profile →
  WinScopeMasterOrchestrator.self_config orch = WinScopeMasterOrchestrator.config →
  extracted_for config opp →
  c ∈ profile_naics_codes company_profile → c ∈ PortalConfig.naics_codes config →
  ∃ s, score_opportunity self opp = Ok (Finite s)
       ∧ (57.5 <= s)%Q ∧ (s <= 82.5)%Q
       ∧ WinScopeMasterOrchestrator._qualify_opportunities orch
           [Opportunity.set_match_score opp s]
         = [Opportunity.set_match_score opp s].
Proof.
  intros Hprofile Hcfg (Hportal & Hcodes & Hloc & Hval & Hset & Hid) Hc1 Hc2.
  assert (Hn : _score_naics_match self (Opportunity.naics_codes opp) = 1%Q).
  { rewrite Hcodes.
    assert (Hne : PortalConfig.naics_codes config ≠ []).
    { intros He. rewrite He in Hc2. by apply elem_of_nil in Hc2. }
    apply (naics_match_levels self _ Hne). rewrite Hprofile. by exists c. }
  assert (Hg : _score_geography self (Opportunity.location opp) = 1%Q).
  { rewrite Hloc.
    apply (geography_matches_any_substring self "" "Ca" "lifornia"); [done|].
    rewrite Hprofile. apply list_elem_of_here. }
  destruct (score_keywords_range self (Opportunity.title opp)
              (Opportunity.description opp)) as (k & Hk & Hk0 & Hk1).
  exists (py_round2 (0 + 1 * 25 + 0.5 * 20 + 1 * 15 + 0.5 * 15 + k * 25)).
  assert (Hscore : score_opportunity self opp
                   = Ok (Finite (py_round2 (0 + 1 * 25 + 0.5 * 20 + 1 * 15 + 0.5 * 15
                                            + k * 25)))).
  { unfold score_opportunity. rewrite Hn, Hg, Hval, Hset, Hk. reflexivity. }
  split; [exact Hscore|].
  set (total := (0 + 1 * 25 + 0.5 * 20 + 1 * 15 + 0.5 * 15 + k * 25)%Q).
  assert (Hlow : (inject_Z 5750 <= total * 100)%Q).
  { change (inject_Z 5750) with 5750%Q. subst total. lra. }
  assert (Hhigh : (total * 100 <= inject_Z 8250)%Q).
  { change (inject_Z 8250) with 8250%Q. subst total. lra. }
  destruct (py_round2_between 5750 8250 total Hlow Hhigh) as [Ha Hb].
  split; [lra|]. split; [lra|].
  unfold WinScopeMasterOrchestrator._qualify_opportunities. rewrite Hcfg. simpl.
  assert (Hq : Qle_bool 50 (py_round2 total) = true) by (apply Qle_bool_iff; lra).
  by rewrite Hq.
Qed.

Lemma extracted_opportunity_qualifies_witness :
  let orch := WinScopeMasterOrchestrator.mk WinScopeMasterOrchestrator.config ∅ ∅ in
  (self_profile offline_scorer = company_profile
   ∧ WinScopeMasterOrchestrator.self_config orch = WinScopeMasterOrchestrator.config
   ∧ extracted_for california_with_rows extracted_sample
   ∧ "333249"%string ∈ profile_naics_codes company_profile
   ∧ "333249"%string ∈ PortalConfig.naics_codes california_with_rows)
  ∧ ∃ s, score_opportunity offline_scorer extracted_sample = Ok (Finite s)
         ∧ (57.5 <= s)%Q ∧ (s <= 82.5)%Q.
Proof.
  intros orch.
  assert (H3 : extracted_for california_with_rows extracted_sample).
  { repeat split; vm_compute; reflexivity. }
  assert (H4 : "333249"%string ∈ profile_naics_codes company_profile)
    by apply list_elem_of_here.
  assert (H5 : "333249"%string ∈ PortalConfig.naics_codes california_with_rows)
    by apply list_elem_of_here.
  split; [split; [reflexivity | split; [reflexivity | split; [exact H3 | split;
    [exact H4 | exact H5]]]]|].
  destruct (extracted_opportunity_qualifies offline_scorer orch california_with_rows
              extracted_sample "333249" eq_refl eq_refl H3 H4 H5)
    as (s & Hs & Hlow & Hhigh & _).
  exists s. exact (conj Hs (conj Hlow Hhigh)).
Defined.

End ExtractedScore.

(** ** Fallback solicitation numbers *)

Section FallbackNumbers.

Import CaliforniaEProcureScraper.

Lemma str_app_inv_head (p a b : string) : (p ++ a = p ++ b)%string → a = b.
Proof. induction p as [|c p IH]; simpl; [done|]. intros [= H]. by apply IH. Qed.

Lemma extract_row_fallback (config : PortalConfig.t) (page : results_page)
    (i n : nat) (r : table_row) (opp : Opportunity.t) :
  OpportunityScorer.falsy (link_href r ≫= id) = true →
  extract_row config page i n r = Some (Ok opp) →
  Opportunity.solicitation_number opp
  = ("CA-" ++ strftime_day page (row_clock page i) ++ "-" ++ pretty n)%string.
Proof.
  intros Hlink. unfold extract_row. destruct (title_elem r) as [title|]; [|done].
  rewrite Hlink. intros [= <-]. by rewrite post_init_fresh.
Qed.

Lemma extract_rows_fallback (config : PortalConfig.t) (page : results_page)
    (rs : list row_run) (i : nat) (opps : list Opportunity.t) (log : list string) :
  (∀ r, RowRead r ∈ rs → OpportunityScorer.falsy (link_href r ≫= id) = true) →
  ∃ added,
    (extract_rows config page rs i opps log).1 = opps ++ added
    ∧ ∀ k opp, added !! k = Some opp →
        ∃ j, Opportunity.solicitation_number opp
             = ("CA-" ++ strftime_day page (row_clock page j) ++ "-"
                ++ pretty (length opps + k)%nat)%string.
Proof.
  revert i opps log. induction rs as [|run rest IH]; intros i opps log Hno.
  - exists []. rewrite app_nil_r. split; [done|]. intros k opp Hk. done.
  - assert (Hrest : ∀ r, RowRead r ∈ rest →
                      OpportunityScorer.falsy (link_href r ≫= id) = true).
    { intros r Hr. apply Hno. by apply elem_of_cons; right. }
    cbn [extract_rows]. destruct run as [e|r].
    + apply IH, Hrest.
    + pose proof (extract_row_fallback config page i (length opps) r) as Hf.
      destruct (extract_row config page i (length opps) r) as [[opp|e]|].
      * destruct (IH (S i) (opps ++ [opp]) log Hrest) as (added & -> & Hnum).
        exists (opp :: added). rewrite <- app_assoc. split; [done|].
        intros [|k] o Hk.
        -- simpl in Hk. injection Hk as <-. exists i. rewrite Nat.add_0_r.
           apply Hf; [|done]. apply Hno. apply list_elem_of_here.
        -- simpl in Hk. destruct (Hnum k o Hk) as [j Hj]. exists j.
           rewrite Hj, length_app. simpl.
           by replace (length opps + 1 + k)%nat with (length opps + S k)%nat by lia.
      * apply IH, Hrest.
      * apply IH, Hrest.
Qed.

(** X26: when no row of the page has a detail link and the scrape stays within
    one day, the opportunity extracted at position [k] carries the number
    made of "CA-", the day and [k], so no two opportunities of the scrape
    share a solicitation number. *)
Theorem fallback_numbers_distinct (config : PortalConfig.t) (page : results_page)
    (rs : list row_run) (opps : list Opportunity.t) (log : list string) (day : string) :
  rows page = Ok rs →
  (∀ r, RowRead r ∈ rs → OpportunityScorer.falsy (link_href r ≫= id) = true) →
  (∀ i, strftime_day page (row_clock page i) = day) →
  _extract_opportunities config page = Ok (opps, log) →
  (∀ k opp, opps !! k = Some opp →
     Opportunity.solicitation_number opp = ("CA-" ++ day ++ "-" ++ pretty k)%string)
  ∧ NoDup (map Opportunity.solicitation_number opps).
Proof.
  intros Hrows Hno Hday. unfold _extract_opportunities. rewrite Hrows.
  assert (Hnum : ∀ os, (∃ added, os = [] ++ added
                         ∧ ∀ k opp, added !! k = Some opp →
                             ∃ j, Opportunity.solicitation_number opp
                                  = ("CA-" ++ strftime_day page (row_clock page j) ++ "-"
                                     ++ pretty (length ([] : list Opportunity.t) + k)%nat)%string) →
            ∀ k opp, os !! k = Some opp →
              Opportunity.solicitation_number opp
              = ("CA-" ++ day ++ "-" ++ pretty k)%string).
  { intros os (added & -> & H) k opp Hk. destruct (H k opp Hk) as [j Hj].
    by rewrite Hj, Hday. }
  assert (Hgoal : ∀ os, (∀ k opp, os !! k = Some opp →
                           Opportunity.solicitation_number opp
                           = ("CA-" ++ day ++ "-" ++ pretty k)%string) →
            NoDup (map Opportunity.solicitation_number os)).
  { intros os H. apply NoDup_alt. intros k k' x Hk Hk'.
    change (map Opportunity.solicitation_number os)
      with (Opportunity.solicitation_number <$> os) in Hk, Hk'.
    apply list_lookup_fmap_Some in Hk as (o & -> & Ho).
    apply list_lookup_fmap_Some in Hk' as (o' & Heq & Ho').
    rewrite (H k o Ho), (H k' o' Ho') in Heq.
    do 3 apply str_app_inv_head in Heq. by apply (inj pretty) in Heq. }
  destruct (OpportunityScorer.falsy _).
  - intros [= <- <-]. split; [done | constructor].
  - cbn [mbind result_bind]. intros [= Hos].
    pose proof (extract_rows_fallback config page rs 0 [] [] Hno) as Hx.
    rewrite Hos in Hx. simpl fst in Hx.
    split; [by apply Hnum | by apply Hgoal, Hnum].
Qed.

Lemma fallback_numbers_distinct_witness :
  ∃ rs opps log,
    (rows five_row_page = Ok rs
     ∧ (∀ r, RowRead r ∈ rs → OpportunityScorer.falsy (link_href r ≫= id) = true)
     ∧ (∀ i, strftime_day five_row_page (row_clock five_row_page i) = "20251201"%string)
     ∧ _extract_opportunities california_with_rows five_row_page = Ok (opps, log))
    ∧ length rs = 5%nat
    ∧ map Opportunity.title opps
      = ["Robot cell"; "Conveyor line upgrade"; "Vision system"]%string
    ∧ map Opportunity.solicitation_number opps
      = ["CA-20251201-0"; "CA-20251201-1"; "CA-20251201-2"]%string
    ∧ (∀ k opp, opps !! k = Some opp →
         Opportunity.solicitation_number opp
         = ("CA-" ++ "20251201" ++ "-" ++ pretty k)%string)
    ∧ NoDup (map Opportunity.solicitation_number opps).
Proof.
  eexists _, _, _.
  assert (Hno : ∀ r, RowRead r ∈ [plain_row (Some " Robot cell "%string)
                                    (Some "12/31/2025"%string);
                                  plain_row None None;
                                  plain_row (Some "Conveyor line upgrade"%string) None;
                                  RowRaises TimeoutError;
                                  plain_row (Some "Vision system"%string)
                                    (Some "12/31/2025"%string)] →
           OpportunityScorer.falsy (link_href r ≫= id) = true).
  { intros r Hr. unfold plain_row in Hr.
    rewrite !elem_of_cons, elem_of_nil in Hr.
    destruct Hr as [Hr|[Hr|[Hr|[Hr|[Hr|[]]]]]];
      first [discriminate Hr | (injection Hr as ->; reflexivity)]. }
  assert (Hday : ∀ i, strftime_day five_row_page (row_clock five_row_page i)
                      = "20251201"%string) by reflexivity.
  split; [split; [reflexivity | split; [exact Hno | split; [exact Hday | reflexivity]]]|].
  split; [reflexivity|]. split; [reflexivity|]. split; [reflexivity|].
  exact (fallback_numbers_distinct california_with_rows five_row_page _ _ _ _
           eq_refl Hno Hday eq_refl).
Defined.

End FallbackNumbers.

(** ** Proposal sections *)

Section Sections.

Import ProposalGenerator.

Lemma generate_section_cases (self : ProposalGenerator.t)
    (section_name context_json instructions : string) :
  match client_messages_create self
          (section_prompt section_name context_json instructions) with
  | Ok (block :: _) =>
      _generate_section self section_name context_json instructions
      = OpportunityScorer.strip block
  | _ =>
      _generate_section self section_name context_json instructions
      = ("[Section generation failed: " ++ section_name ++ "]")%string
  end.
Proof.
  unfold _generate_section.
  destruct (client_messages_create self _) as [[|block rest]|e]; reflexivity.
Qed.

(** X27: whatever the remote service does, a proposal gets its four sections and
    no other: a section whose call fails, or comes back without content,
    holds the notice "[Section generation failed: <name>]", and one whose
    call answers holds the stripped text of the first block. *)
Theorem proposal_has_four_sections (self : ProposalGenerator.t) (context_json : string) :
  let sections := _generate_all_sections self context_json in
  dom sections = list_to_set section_names
  ∧ size sections = 4%nat
  ∧ ∀ name, name ∈ section_names →
      ∃ instructions text,
        sections !! name = Some text
        ∧ text = _generate_section self name context_json instructions
        ∧ ((∀ block rest,
              client_messages_create self (section_prompt name context_json instructions)
              ≠ Ok (block :: rest)) →
           text = ("[Section generation failed: " ++ name ++ "]")%string)
        ∧ (∀ block rest,
             client_messages_create self (section_prompt name context_json instructions)
             = Ok (block :: rest) →
             text = OpportunityScorer.strip block).
Proof.
  intros sections. subst sections. unfold _generate_all_sections.
  split; [|split].
  - rewrite !dom_insert_L, dom_empty_L. unfold section_names. simpl. set_solver.
  - rewrite !map_size_insert_None; [by rewrite map_size_empty|done..].
  - intros name Hname. unfold section_names in Hname.
    rewrite !elem_of_cons, elem_of_nil in Hname.
    assert (Hcase : ∀ instructions,
              let text := _generate_section self name context_json instructions in
              ((∀ block rest,
                  client_messages_create self
                    (section_prompt name context_json instructions)
                  ≠ Ok (block :: rest)) →
               text = ("[Section generation failed: " ++ name ++ "]")%string)
              ∧ (∀ block rest,
                   client_messages_create self
                     (section_prompt name context_json instructions)
                   = Ok (block :: rest) →
                   text = OpportunityScorer.strip block)).
    { intros instructions text. subst text.
      pose proof (generate_section_cases self name context_json instructions) as Hc.
      destruct (client_messages_create self _) as [[|block rest]|e].
      - split; [done|]. intros b r Hbr. done.
      - split; [intros Hno; by destruct (Hno block rest)|].
        intros b r [= <- <-]. done.
      - split; [done|]. intros b r Hbr. done. }
    destruct Hname as [->|[->|[->|[->|[]]]]];
      eexists _, _; (split; [by simplify_map_eq|]); (split; [reflexivity|]);
      apply Hcase.
Qed.

Example section_prompt_title :
  String.prefix "You are writing the Executive Summary section of a government proposal."
    (section_prompt "executive_summary" "{}" "")
  = true.
Proof. reflexivity. Qed.

(** White space outside ASCII goes as well: here a no-break space (U+00A0)
    before the text and a line separator (U+2028) after it. *)
Example strip_unicode_white_space :
  OpportunityScorer.strip
    (OpportunityScorer.of_bytes [194; 160; 32]%nat ++ "Our approach"
     ++ OpportunityScorer.of_bytes [226; 128; 168; 10; 194; 160]%nat)
  = "Our approach"%string.
Proof. reflexivity. Qed.

End Sections.
